(** * ATLAS-Data-Project: the batch-distribution coordinator and its worker

    A shallow embedding of [src/common/comms.py], [src/common/config.py],
    [src/manager/higgs_manager.py] and the message loop of
    [src/worker/higgs_worker.py].

    Conventions of the embedding:
    - Python [int] is [Z]; Python [str] is [string]; Python [bytes] is
      [list Byte.byte].
    - The Python [float] values the partitioner computes with (the sampling
      fraction, a batch's [fraction] attribute) are IEEE 754 doubles,
      [spec_float] with a precision of 53 bits, and their operations round
      to nearest, ties to even. The mass and the weight of an event, which
      the program only stores and counts, are kept as rationals.
    - Wall-clock time is counted in ticks of the clock. Time passes while
      the program sleeps and, in the collector, while it polls the broker:
      how long the poll of each round takes is a parameter of the run.
    - Every effect of the program (printing, the broker, the clock, the
      identifier generator) acts on an explicit [World]; a computation is a
      function from the world to an [outcome] and the next world.
    - A raised Python exception is the outcome [Raise]; a loop whose number
      of iterations is not bounded by its arguments takes a fuel argument
      and yields [OutOfFuel] when the fuel does not suffice. *)

From Stdlib Require Import ZArith QArith Lia List.
From Stdlib.Strings Require Import Byte.
From Stdlib.Floats Require Import SpecFloat.
From stdpp Require Import base numbers option list gmap strings pretty.

Local Open Scope string_scope.
Local Open Scope list_scope.
Local Open Scope Z_scope.

(* ===================================================================== *)
(** * Part I. The program                                                 *)
(* ===================================================================== *)

(** ** Python values shared by all modules *)

(** Exceptions. [SystemExit] is what [sys.exit] raises and is not a subclass
    of [Exception]; every other exception the program meets is one, and is
    kept as its class name and its message ([str(e)]). *)
Inductive exn : Type :=
| SystemExit (code : Z)
| PyError (cls : string) (msg : string).

Definition is_Exception (e : exn) : bool :=
  match e with
  | SystemExit _ => false
  | PyError _ _ => true
  end.

Definition exn_str (e : exn) : string :=
  match e with
  | SystemExit code => pretty code
  | PyError _ msg => msg
  end.

Inductive outcome (A : Type) : Type :=
| Ok (a : A)
| Raise (e : exn)
| OutOfFuel.
Arguments Ok {A} a.
Arguments Raise {A} e.
Arguments OutOfFuel {A}.

#[global] Instance outcome_ret : MRet outcome := fun A a => Ok a.

#[global] Instance outcome_bind : MBind outcome := fun A B f r =>
  match r with
  | Ok a => f a
  | Raise e => Raise e
  | OutOfFuel => OutOfFuel
  end.

(** One processed event of an awkward array. The numeric content is never
    inspected by the distribution logic. *)
Record Event : Type := mkEvent {
  mass : Q;
  mc_weight : option Q
}.

(** A Python [float] is an IEEE 754 double: a [spec_float] of 53 bits of
    precision, whose operations round to nearest, ties to even. *)
Definition float : Type := spec_float.
Definition prec : Z := 53.
Definition emax : Z := 1024.

(** The doubles [1.0] and [0.5]. *)
Definition float_one : float := S754_finite false 4503599627370496 (-52).
Definition float_half : float := S754_finite false 4503599627370496 (-53).

(** ** [comms.py] *)

Definition RABBITMQ_SERVER : string := "rabbitmq".
Definition TASKS_QUEUE : string := "tasks".
Definition RESULTS_QUEUE : string := "results".

(** [class DataBatch]. [processed_data] is [None] until a worker fills it. *)
Record DataBatch : Type := mkDataBatch {
  batch_id : string;
  sample : string;
  subsample : string;
  sample_type : string;
  path : string;
  fraction : float;
  start_index : Z;
  stop_index : Z;
  processed_data : option (list Event)
}.

(** [DataBatch.__init__]: the eight arguments, [processed_data = None]. *)
Definition DataBatch_init (batch_id sample subsample sample_type path : string)
    (fraction : float) (start_index stop_index : Z) : DataBatch :=
  mkDataBatch batch_id sample subsample sample_type path fraction
              start_index stop_index None.

Definition set_processed_data (b : DataBatch) (d : list Event) : DataBatch :=
  mkDataBatch (batch_id b) (sample b) (subsample b) (sample_type b) (path b)
              (fraction b) (start_index b) (stop_index b) (Some d).

(** ** The world the program runs in *)

Definition bytes : Type := list Byte.byte.

(** A message waiting in a broker queue: the instant from which the broker
    can hand it out, and its body. *)
Record Msg : Type := mkMsg {
  available_at : Z;
  body : bytes
}.

(** What the program does to the outside, in order. *)
Inductive Effect : Type :=
| Print (line : string)
| PrintBatch (b : DataBatch)
| Connect (hostname : string) (ok : bool)
| ConnectionClose
| ChannelOpen
| ChannelClose
| QueueDeclare (queue : string)
| BasicPublish (queue : string) (payload : bytes)
| BasicGet (queue : string) (auto_ack : bool) (reply : option bytes)
| BasicAck (tag : Z)
| BasicNack (tag : Z) (requeue : bool)
| TimeRead (t : Z)
| Sleep (seconds : Z)
| SaveFigure (filename : string).

Record World : Type := mkWorld {
  clock : Z;                          (* what [time.time()] returns *)
  network : list bool;                (* fate of the coming connection attempts *)
  queues : gmap string (list Msg);    (* broker queues, head first *)
  unacked : gmap Z (string * bytes);  (* delivered, not yet acknowledged *)
  next_tag : Z;                       (* next delivery tag *)
  uuid_count : nat;                   (* identifiers drawn so far *)
  effects : list Effect               (* oldest first *)
}.

Definition M (A : Type) : Type := World -> outcome A * World.

#[global] Instance M_ret : MRet M := fun A a w => (Ok a, w).

#[global] Instance M_bind : MBind M := fun A B f m w =>
  match m w with
  | (Ok a, w') => f a w'
  | (Raise e, w') => (Raise e, w')
  | (OutOfFuel, w') => (OutOfFuel, w')
  end.

Definition raise {A : Type} (e : exn) : M A := fun w => (Raise e, w).

Definition out_of_fuel {A : Type} : M A := fun w => (OutOfFuel, w).

(** [try: body  except <classes> as e: handler e], where [catches] tells
    which exceptions the [except] clause names. *)
Definition try_except {A : Type} (catches : exn -> bool) (body : M A)
    (handler : exn -> M A) : M A :=
  fun w =>
    match body w with
    | (Raise e, w') => if catches e then handler e w' else (Raise e, w')
    | r => r
    end.

Definition emit (e : Effect) : M unit := fun w =>
  (Ok tt, mkWorld (clock w) (network w) (queues w) (unacked w) (next_tag w)
                  (uuid_count w) (effects w ++ [e])).

Definition print (line : string) : M unit := emit (Print line).

(** [sys.exit(code)]. *)
Definition sys_exit {A : Type} (code : Z) : M A := raise (SystemExit code).

(** [time.time()]. *)
Definition time_time : M Z := fun w =>
  (Ok (clock w),
   mkWorld (clock w) (network w) (queues w) (unacked w) (next_tag w)
           (uuid_count w) (effects w ++ [TimeRead (clock w)])).

(** [time.sleep(seconds)]: a negative argument is a [ValueError]. *)
Definition time_sleep (seconds : Z) : M unit := fun w =>
  if seconds <? 0
  then (Raise (PyError "ValueError" "sleep length must be non-negative"), w)
  else (Ok tt,
        mkWorld (clock w + seconds) (network w) (queues w) (unacked w)
                (next_tag w) (uuid_count w) (effects w ++ [Sleep seconds])).

(** The program is busy for [ticks] ticks of the clock. *)
Definition time_passes (ticks : nat) : M unit := fun w =>
  (Ok tt,
   mkWorld (clock w + Z.of_nat ticks) (network w) (queues w) (unacked w)
           (next_tag w) (uuid_count w) (effects w)).

(** [for x in xs: body x]. *)
Fixpoint for_each {A : Type} (body : A -> M unit) (xs : list A) : M unit :=
  match xs with
  | [] => mret tt
  | x :: rest => body x ;; for_each body rest
  end.

(** The process exit status the shell sees for a run of a [main]. *)
Definition exit_status {A : Type} (r : outcome A) : option Z :=
  match r with
  | Ok _ => Some 0
  | Raise (SystemExit code) => Some code
  | Raise (PyError _ _) => Some 1
  | OutOfFuel => None
  end.

Definition lift {A : Type} (r : outcome A) : M A := fun w => (r, w).

(** ** Built-ins *)

(** [len(xs)]. *)
Definition len {A : Type} (xs : list A) : Z := Z.of_nat (length xs).

(** [float(n)], as an arithmetic operator converts an int operand: the
    nearest double, ties to the even one, or an [OverflowError]. *)
Definition py_float_of_int (n : Z) : outcome float :=
  match binary_normalize prec emax n 0 false with
  | S754_infinity _ =>
      Raise (PyError "OverflowError" "int too large to convert to float")
  | x => Ok x
  end.

(** [n * x] on an int and a float. *)
Definition py_mul_int_float (n : Z) (x : float) : outcome float :=
  y ← py_float_of_int n;
  Ok (SFmul prec emax y x).

(** The integer nearest to [m * 2^e], ties to the even one. *)
Definition round_half_even (m e : Z) : Z :=
  if 0 <=? e then m * 2 ^ e
  else
    let d := 2 ^ (- e) in
    let fl := m / d in
    let r2 := 2 * (m mod d) in
    if r2 <? d then fl
    else if d <? r2 then fl + 1
    else if Z.even fl then fl else fl + 1.

(** [round(x)] of a float: an int, or an error when [x] is not finite. *)
Definition py_round (x : float) : outcome Z :=
  match x with
  | S754_zero _ => Ok 0
  | S754_finite s m e => Ok (cond_Zopp s (round_half_even (Z.pos m) e))
  | S754_infinity _ =>
      Raise (PyError "OverflowError" "cannot convert float infinity to integer")
  | S754_nan => Raise (PyError "ValueError" "cannot convert float NaN to integer")
  end.

(** The items [start, start+step, ...] below [stop], for a positive step. *)
Fixpoint range_up (fuel : nat) (start stop step : Z) : list Z :=
  match fuel with
  | O => []
  | S fuel' =>
      if start <? stop
      then start :: range_up fuel' (start + step) stop step
      else []
  end.

(** The items [start, start+step, ...] above [stop], for a negative step. *)
Fixpoint range_down (fuel : nat) (start stop step : Z) : list Z :=
  match fuel with
  | O => []
  | S fuel' =>
      if stop <? start
      then start :: range_down fuel' (start + step) stop step
      else []
  end.

(** [range(start, stop, step)], as the list a [for] loop walks through. Each
    item moves by at least one towards [stop], so the distance between
    [start] and [stop] is fuel enough. *)
Definition py_range (start stop step : Z) : outcome (list Z) :=
  if step =? 0 then Raise (PyError "ValueError" "range() arg 3 must not be zero")
  else if 0 <? step then Ok (range_up (Z.to_nat (stop - start)) start stop step)
  else Ok (range_down (Z.to_nat (start - stop)) start stop step).

(** An int as the float operand of an exact operation. *)
Definition exact_float (a : Z) : float :=
  match a with
  | Z0 => S754_zero false
  | Zpos p => S754_finite false p 0
  | Zneg p => S754_finite true p 0
  end.

(** [a / b] on two ints: the double nearest to the quotient, ties to the
    even one; a [ZeroDivisionError], or an [OverflowError] when the quotient
    is beyond the doubles. *)
Definition py_truediv (a b : Z) : outcome float :=
  if b =? 0 then Raise (PyError "ZeroDivisionError" "division by zero")
  else
    match SFdiv prec emax (exact_float a) (exact_float b) with
    | S754_infinity _ =>
        Raise (PyError "OverflowError"
                 "integer division result too large for a float")
    | q => Ok q
    end.

(** ** [config.py] *)

Definition PATH : string := "https://atlas-opendata.web.cern.ch/Legacy13TeV/4lep/".
Definition FRACTION : float := float_one.
Definition BATCH_SIZE : Z := 100000.

(** One entry of the [SAMPLES] dictionary. *)
Record SampleInfo : Type := mkSampleInfo {
  sample_list : list string;
  color : option string
}.

(** [SAMPLES]: a dict is walked in insertion order, so it is kept as the
    list of its items. *)
Definition SAMPLES : list (string * SampleInfo) :=
  [ ("data",
     mkSampleInfo ["data_A"; "data_B"; "data_C"; "data_D"] None);
    ("Background $Z,t\bar{t}$",
     mkSampleInfo ["Zee"; "Zmumu"; "ttbar_lep"] (Some "#6b59d3"));
    ("Background $ZZ^*$",
     mkSampleInfo ["llll"] (Some "#ff0000"));
    ("Signal ($m_H$ = 125 GeV)",
     mkSampleInfo ["ggH125_ZZ4lep"; "VBFH125_ZZ4lep"; "WH125_ZZ4lep"; "ZH125_ZZ4lep"]
                  (Some "#00cdff")) ].

(** ** [higgs_manager.py]: [data_batcher] *)

(** Line 160: the number of events of a subsample that are processed,
    [min(data_num_events, round(data_num_events * fraction))]. *)
Definition num_events_of (data_num_events : Z) (fraction : float) : outcome Z :=
  product ← py_mul_int_float data_num_events fraction;
  rounded ← py_round product;
  Ok (Z.min data_num_events rounded).

Section Batcher.

(** The collaborators of the partitioner that live outside the repository:
    the [n]-th value of [str(uuid.uuid4())], the text of
    [infofile.infos[subsample]["DSID"]], and the [num_entries] that uproot
    reads from the tree at a path. The last two can fail. *)
Variable uuid4 : nat -> string.
Variable infofile_DSID : string -> outcome string.
Variable tree_num_entries : string -> outcome Z.

(** [str(uuid.uuid4())]. *)
Definition uuid4_str : M string := fun w =>
  (Ok (uuid4 (uuid_count w)),
   mkWorld (clock w) (network w) (queues w) (unacked w) (next_tag w)
           (S (uuid_count w)) (effects w)).

(** Lines 164-172: one [DataBatch] per item of
    [range(0, num_events, batch_size)]. *)
Definition batch_subsample (sample subsample sample_type path_subsample : string)
    (num_events batch_size : Z) : M (list DataBatch) :=
  starts ← lift (py_range 0 num_events batch_size);
  mapM (fun start =>
          let stop := Z.min (start + batch_size) num_events in
          batch_fraction ← lift (py_truediv (stop - start) num_events);
          new_id ← uuid4_str;
          mret (DataBatch_init new_id sample subsample sample_type
                               path_subsample batch_fraction start stop))
       starts.

(** Lines 138-160 and the call of the inner loop, for one subsample. *)
Definition batch_one (path : string) (fraction : float) (batch_size : Z)
    (sample subsample : string) : M (list DataBatch) :=
  '(sample_type, prefix) ←
     (if String.eqb sample "data"
      then mret ("measured", "Data/")
      else dsid ← lift (infofile_DSID subsample);
           mret ("monte-carlo", "MC/mc_" +:+ dsid +:+ "."));
  let path_subsample := path +:+ prefix +:+ subsample +:+ ".4lep.root" in
  data_num_events ← lift (tree_num_entries (path_subsample +:+ ":mini"));
  num_events ← lift (num_events_of data_num_events fraction);
  batch_subsample sample subsample sample_type path_subsample
                  num_events batch_size.

Definition data_batcher (samples : list (string * SampleInfo)) (path : string)
    (fraction : float) (batch_size : Z) : M (list DataBatch) :=
  per_sample ←
    mapM (fun item : string * SampleInfo =>
            per_subsample ←
              mapM (batch_one path fraction batch_size (fst item))
                   (sample_list (snd item));
            mret (concat per_subsample))
         samples;
  mret (concat per_sample).

End Batcher.

(** ** The broker, as pika shows it

    A queue hands out its head message once that message's instant has come.
    The operations of the broker read the clock of the world and do not move
    it; the time a poll of the collector takes is added by [time_passes]. *)

Inductive Connection : Type := BlockingConnection.

Definition is_AMQPConnectionError (e : exn) : bool :=
  match e with
  | PyError cls _ => String.eqb cls "AMQPConnectionError"
  | SystemExit _ => false
  end.

(** [pika.BlockingConnection(pika.ConnectionParameters(hostname))]: the next
    entry of [network] says whether the server answers; with no entry left it
    does not. *)
Definition pika_connect (hostname : string) : M Connection := fun w =>
  let ok := match network w with ok :: _ => ok | [] => false end in
  let w' := mkWorld (clock w) (tail (network w)) (queues w) (unacked w)
                    (next_tag w) (uuid_count w)
                    (effects w ++ [Connect hostname ok]) in
  if ok then (Ok BlockingConnection, w')
  else (Raise (PyError "AMQPConnectionError" ""), w').

Definition connection_close (c : Connection) : M unit := emit ConnectionClose.

Definition connection_channel (c : Connection) : M unit := emit ChannelOpen.

Definition channel_close : M unit := emit ChannelClose.

(** [channel.queue_declare(queue_name)]: creates the queue unless it exists. *)
Definition queue_declare (queue_name : string) : M unit := fun w =>
  (Ok tt,
   mkWorld (clock w) (network w)
           (match queues w !! queue_name with
            | Some _ => queues w
            | None => <[queue_name := []]> (queues w)
            end)
           (unacked w) (next_tag w) (uuid_count w)
           (effects w ++ [QueueDeclare queue_name])).

(** [channel.basic_publish(exchange="", routing_key=queue_name, body=payload)]:
    the message joins the tail of the queue of that name, if there is one. *)
Definition basic_publish (queue_name : string) (payload : bytes) : M unit := fun w =>
  (Ok tt,
   mkWorld (clock w) (network w)
           (alter (fun q => q ++ [mkMsg (clock w) payload]) queue_name (queues w))
           (unacked w) (next_tag w) (uuid_count w)
           (effects w ++ [BasicPublish queue_name payload])).

(** [channel.basic_get(queue_name, auto_ack=...)]: the delivery tag and the
    body of the head message, or [None] ([response[0] is None]) when no
    message can be handed out now. Without [auto_ack] the message stays with
    the broker as unacknowledged. *)
Definition basic_get (queue_name : string) (auto_ack : bool)
    : M (option (Z * bytes)) := fun w =>
  match default [] (queues w !! queue_name) with
  | m :: rest =>
      if available_at m <=? clock w
      then (Ok (Some (next_tag w, body m)),
            mkWorld (clock w) (network w)
                    (<[queue_name := rest]> (queues w))
                    (if auto_ack then unacked w
                     else <[next_tag w := (queue_name, body m)]> (unacked w))
                    (next_tag w + 1) (uuid_count w)
                    (effects w ++ [BasicGet queue_name auto_ack (Some (body m))]))
      else (Ok None,
            mkWorld (clock w) (network w) (queues w) (unacked w) (next_tag w)
                    (uuid_count w)
                    (effects w ++ [BasicGet queue_name auto_ack None]))
  | [] => (Ok None,
           mkWorld (clock w) (network w) (queues w) (unacked w) (next_tag w)
                   (uuid_count w)
                   (effects w ++ [BasicGet queue_name auto_ack None]))
  end.

(** [channel.basic_ack(tag)]. *)
Definition basic_ack (tag : Z) : M unit := fun w =>
  (Ok tt,
   mkWorld (clock w) (network w) (queues w) (delete tag (unacked w))
           (next_tag w) (uuid_count w) (effects w ++ [BasicAck tag])).

(** [channel.basic_nack(tag, requeue=...)]: with [requeue] the message goes
    back to the head of its queue. *)
Definition basic_nack (tag : Z) (requeue : bool) : M unit := fun w =>
  (Ok tt,
   mkWorld (clock w) (network w)
           (match unacked w !! tag with
            | Some (queue_name, payload) =>
                if requeue
                then alter (fun q => mkMsg (clock w) payload :: q) queue_name (queues w)
                else queues w
            | None => queues w
            end)
           (delete tag (unacked w))
           (next_tag w) (uuid_count w) (effects w ++ [BasicNack tag requeue])).

(** ** [comms.py]: [open_connection] and [send_data] *)

(** The [while attempts < retries] loop of [open_connection]. [attempts]
    grows by one in every round that does not return, so [retries - attempts]
    rounds of fuel are enough. *)
Fixpoint open_connection_loop (fuel : nat) (hostname : string)
    (attempts retries wait_time : Z) : M (option Connection) :=
  if attempts <? retries then
    match fuel with
    | O => out_of_fuel
    | S fuel' =>
        try_except is_AMQPConnectionError
          (connection ← pika_connect hostname;
           mret (Some (Some connection)))
          (fun _ => mret None)
        ≫= fun attempt =>
        match attempt with
        | Some returned => mret returned
        | None =>
            let attempts := attempts + 1 in
            if attempts <? retries
            then time_sleep wait_time;;
                 open_connection_loop fuel' hostname attempts retries wait_time
            else mret None
        end
    end
  else mret None.

Definition open_connection (hostname : string) (retries wait_time : Z)
    : M (option Connection) :=
  open_connection_loop (Z.to_nat retries) hostname 0 retries wait_time.

Section Transport.

(** [pickle.dumps] and [pickle.loads] on [DataBatch] objects; the byte
    format belongs to the pickle library. *)
Variable pickle_dumps : DataBatch -> bytes.
Variable pickle_loads : bytes -> outcome DataBatch.

Definition send_data (batches : list DataBatch) (connection : Connection)
    (queue_name : string) : M unit :=
  connection_channel connection;;
  queue_declare queue_name;;
  for_each (fun batch =>
              let pickled_batch := pickle_dumps batch in
              basic_publish queue_name pickled_batch)
           batches;;
  channel_close.

(** ** [higgs_manager.py]: [retrieve_batches] *)

(** The [while len(batches) != num_batches] loop, lines 301-317, followed
    by lines 320-322. One unit of fuel is one round of the loop. The poll of
    line 303 in the [i]-th round from here takes [lag i] ticks of the clock,
    and the broker answers at the end of them. *)
Fixpoint retrieve_loop (fuel : nat) (lag : nat -> nat) (queue_name : string)
    (num_batches wait_time terminate_time start : Z)
    (batches : list DataBatch) : M (list DataBatch) :=
  if negb (len batches =? num_batches) then
    match fuel with
    | O => out_of_fuel
    | S fuel' =>
        time_passes (lag 0%nat);;
        response ← basic_get queue_name true;
        batches ← match response with
                  | Some (_, payload) =>
                      batch ← lift (pickle_loads payload);
                      mret (batches ++ [batch])
                  | None => mret batches
                  end;
        now ← time_time;
        if terminate_time <? now - start
        then channel_close;; mret batches
        else time_sleep wait_time;;
             retrieve_loop fuel' (fun i => lag (S i)) queue_name num_batches
                           wait_time terminate_time start batches
    end
  else channel_close;; mret batches.

Definition retrieve_batches (fuel : nat) (lag : nat -> nat)
    (connection : Connection) (queue_name : string)
    (num_batches wait_time terminate_time : Z) : M (list DataBatch) :=
  start ← time_time;
  connection_channel connection;;
  queue_declare queue_name;;
  retrieve_loop fuel lag queue_name num_batches wait_time terminate_time start [].

End Transport.

(** ** More built-ins *)

(** [d[key]] on a dictionary. *)
Definition dict_getitem {V : Type} (d : gmap string V) (key : string) : outcome V :=
  match d !! key with
  | Some v => Ok v
  | None => Raise (PyError "KeyError" key)
  end.

(** What a name of [higgs_manager.py] can be bound to where a loop walks
    over it: a list of batches, or a function of the module. *)
Inductive pyobj : Type :=
| PyList (items : list DataBatch)
| PyFunction (name : string).

(** [iter(obj)], as the [for] statement calls it. *)
Definition py_iter (obj : pyobj) : M (list DataBatch) :=
  match obj with
  | PyList items => mret items
  | PyFunction _ => raise (PyError "TypeError" "'function' object is not iterable")
  end.

(** [ak.concatenate(arrays)] along the first axis. Awkward refuses a [None]
    among the arrays and refuses an empty list of arrays. *)
Definition ak_concatenate (arrays : list (option (list Event)))
    : outcome (list Event) :=
  if existsb (fun a => match a with None => true | Some _ => false end) arrays
  then Raise (PyError "TypeError"
                "Encountered a None value, but None conversion/promotion is disabled")
  else match arrays with
       | [] => Raise (PyError "ValueError" "need at least one array to concatenate")
       | _ => Ok (concat (omap id arrays))
       end.

(** ** [higgs_manager.py]: [group_batches] and [missing_batches] *)

(** The loop over the samples, lines 201-212, on the dictionary built so
    far. *)
Fixpoint group_batches_loop (batches : list DataBatch) (names : list string)
    (samples_data : gmap string (list Event))
    : outcome (gmap string (list Event)) :=
  match names with
  | [] => Ok samples_data
  | name :: rest =>
      let arrays :=
        map processed_data (filter (fun batch => sample batch = name) batches) in
      data ← ak_concatenate arrays;
      group_batches_loop batches rest (<[name := data]> samples_data)
  end.

Definition group_batches (batches : list DataBatch)
    (samples : list (string * SampleInfo)) : outcome (gmap string (list Event)) :=
  group_batches_loop batches (map fst samples) ∅.

(** [missing_batches]. A later batch with the same id replaces an earlier
    one in the dictionary comprehension. The order in which Python walks a
    set is not fixed; the list is given in the order of [elements]. *)
Definition missing_batches (expected_batches retrieved_batches : list DataBatch)
    : outcome (option (list DataBatch)) :=
  let expected_batches_map : gmap string DataBatch :=
    foldl (fun d batch => <[batch_id batch := batch]> d) ∅ expected_batches in
  let retrieved_batch_ids : gset string :=
    list_to_set (map batch_id retrieved_batches) in
  let missing_batch_ids : gset string :=
    dom expected_batches_map ∖ retrieved_batch_ids in
  if Z.of_nat (size missing_batch_ids) =? 0 then Ok None
  else
    missing ← mapM (dict_getitem expected_batches_map) (elements missing_batch_ids);
    Ok (Some missing).

(** ** [higgs_manager.py]: [main] *)

Section Manager.

Variable uuid4 : nat -> string.
Variable infofile_DSID : string -> outcome string.
Variable tree_num_entries : string -> outcome Z.
Variable pickle_dumps : DataBatch -> bytes.
Variable pickle_loads : bytes -> outcome DataBatch.

(** [plot_data], the plotting collaborator. *)
Variable plot_data : gmap string (list Event) -> string -> M unit.

(** Lines 54-57. *)
Definition check_retrieved (processed_batches : list DataBatch) : M unit :=
  if len processed_batches =? 0
  then print "error: failed to retrieve processed data";; sys_exit 1
  else mret tt.

(** Lines 59-79. In [main] the name [missing_batches] is the function of
    the module: the list returned by the call is [missing_data_batches]. *)
Definition report_missing (batches processed_batches : list DataBatch) : M unit :=
  missing_data_batches ← lift (missing_batches batches processed_batches);
  match missing_data_batches with
  | Some missing_data_batches =>
      if len batches / 2 <? len missing_data_batches
      then print "error: missing more than 50% of the expected data";;
           sys_exit 1
      else print "warning: missing the following batches of data";;
           items ← py_iter (PyFunction "missing_batches");
           for_each (fun batch => emit (PrintBatch batch)) items;;
           print "warning: attempting to proceed"
  | None => mret tt
  end.

(** Lines 84-93. *)
Definition check_samples (samples_data : gmap string (list Event))
    (samples : list (string * SampleInfo)) : M unit :=
  for_each (fun name =>
              data ← lift (dict_getitem samples_data name);
              if len data =? 0
              then print ("error: no data for sample - " +:+ name);;
                   sys_exit 1
              else if len data <? 50
              then print ("warning: less than 50 events for sample - " +:+ name)
              else mret tt)
           (map fst samples).

(** Lines 81-99. *)
Definition aggregate_and_plot (processed_batches : list DataBatch) : M unit :=
  samples_data ← lift (group_batches processed_batches SAMPLES);
  check_samples samples_data SAMPLES;;
  plot_data samples_data "output/higgs_zz.png";;
  print "success: figure created".

(** Lines 38-99, once the connection is open. *)
Definition run_job (fuel : nat) (lag : nat -> nat) (connection : Connection)
    : M unit :=
  batches ← data_batcher uuid4 infofile_DSID tree_num_entries
                         SAMPLES PATH FRACTION BATCH_SIZE;
  print ("status: number of batches - " +:+ pretty (len batches));;
  send_data pickle_dumps batches connection TASKS_QUEUE;;
  processed_batches ← retrieve_batches pickle_loads fuel lag connection
                                       RESULTS_QUEUE (len batches) 1 240;
  connection_close connection;;
  check_retrieved processed_batches;;
  report_missing batches processed_batches;;
  aggregate_and_plot processed_batches.

Definition main (fuel : nat) (lag : nat -> nat) : M unit :=
  connection ← open_connection RABBITMQ_SERVER 6 5;
  match connection with
  | None => print "error: RabbitMQ connection failed";; sys_exit 1
  | Some connection => run_job fuel lag connection
  end.

End Manager.

(** ** [higgs_worker.py]: the message loop *)

Module higgs_worker.

Definition newline : string := String (Ascii.ascii_of_nat 10) EmptyString.

(** [array[:, k]] on a jagged array of integers: the item of index [k] of
    every row. Awkward refuses the slice with an [IndexError] when a row is
    too short. *)
Definition column (k : nat) (array : list (list Z)) : outcome (list Z) :=
  mapM (fun row : list Z =>
          match row !! k with
          | Some x => Ok x
          | None => Raise (PyError "IndexError" "index out of range")
          end) array.

(** The integer types the items of an array can have: that of the branch
    in the file. *)
Inductive dtype : Type :=
| int8 | int16 | int32 | int64
| uint8 | uint16 | uint32 | uint64.

Definition signed (t : dtype) : bool :=
  match t with
  | int8 | int16 | int32 | int64 => true
  | uint8 | uint16 | uint32 | uint64 => false
  end.

Definition bits (t : dtype) : Z :=
  match t with
  | int8 | uint8 => 8
  | int16 | uint16 => 16
  | int32 | uint32 => 32
  | int64 | uint64 => 64
  end.

(** The value of type [t] that an integer wraps around to. *)
Definition wrap (t : dtype) (x : Z) : Z :=
  let m := 2 ^ bits t in
  if signed t then (x + m / 2) mod m - m / 2 else x mod m.

(** [a + b] on two columns of one array of type [t], item by item: the sum
    stays in the type and wraps around, without an error. *)
Definition column_add (t : dtype) (a b : list Z) : list Z :=
  zip_with (fun x y => wrap t (x + y)) a b.

(** The sum of the columns 0 to 3, as both selections compute it. *)
Definition sum_of_four (t : dtype) (array : list (list Z)) : outcome (list Z) :=
  c0 ← column 0 array;
  c1 ← column 1 array;
  c2 ← column 2 array;
  c3 ← column 3 array;
  Ok (column_add t (column_add t (column_add t c0 c1) c2) c3).

Definition valid_lepton_type (t : dtype) (lepton_types : list (list Z))
    : outcome (list bool) :=
  sum_lepton_types ← sum_of_four t lepton_types;
  let valid :=
    map (fun s => (s =? 44) || (s =? 48) || (s =? 52)) sum_lepton_types in
  Ok valid.

Definition valid_lepton_charge (t : dtype) (lepton_charges : list (list Z))
    : outcome (list bool) :=
  sum_lepton_charges ← sum_of_four t lepton_charges;
  let valid := map (fun s => s =? 0) sum_lepton_charges in
  Ok valid.

(** [events[mask]] with an array of booleans: the events whose flag is set,
    in order. *)
Definition mask_select {A : Type} (events : list A) (mask : list bool) : list A :=
  map fst (filter (fun pair : A * bool => snd pair = true) (zip events mask)).

Section Cuts.

(** The events of a chunk, of which the selection reads two fields, and
    the integer types of these two branches. *)
Variable Row : Type.
Variable lep_type : Row -> list Z.
Variable lep_charge : Row -> list Z.
Variable type_dtype : dtype.
Variable charge_dtype : dtype.

(** Lines 171-177 of [process_data]: the two selections, one after the
    other. *)
Definition cut_events (events : list Row) : outcome (list Row) :=
  let lepton_types := map lep_type events in
  mask ← valid_lepton_type type_dtype lepton_types;
  let events := mask_select events mask in
  let lepton_charges := map lep_charge events in
  mask ← valid_lepton_charge charge_dtype lepton_charges;
  let events := mask_select events mask in
  Ok events.

End Cuts.

Section Worker.

Variable pickle_dumps : DataBatch -> bytes.
Variable pickle_loads : bytes -> outcome DataBatch.

(** Lines 166-207 of [process_data]: opening the file with uproot and,
    for each chunk of the entries [[start_index, stop_index)], the
    physics selection and the line of statistics. It gets the batch and
    the instant the timer was started, and gives the selected events of
    each chunk, or fails. *)
Variable select_events : DataBatch -> Z -> M (list (list Event)).

(** The [while attempts < retries] loop of [retrieve_batch]; [attempts]
    grows by one in every round that does not return. *)
Fixpoint retrieve_batch_loop (fuel : nat) (queue_name : string)
    (attempts retries wait_time : Z) : M (option (Z * DataBatch)) :=
  if attempts <? retries then
    match fuel with
    | O => out_of_fuel
    | S fuel' =>
        response ← basic_get queue_name false;
        match response with
        | Some (delivery_tag, payload) =>
            batch ← lift (pickle_loads payload);
            mret (Some (delivery_tag, batch))
        | None =>
            let attempts := attempts + 1 in
            time_sleep wait_time;;
            retrieve_batch_loop fuel' queue_name attempts retries wait_time
        end
    end
  else mret None.

Definition retrieve_batch (queue_name : string) (retries wait_time : Z)
    : M (option (Z * DataBatch)) :=
  retrieve_batch_loop (Z.to_nat retries) queue_name 0 retries wait_time.

Definition process_data (batch : DataBatch) : M DataBatch :=
  print ("Sample      : " +:+ sample batch +:+ newline +:+
         "Subsample   : " +:+ subsample batch +:+ newline +:+
         "Sample Type : " +:+ sample_type batch);;
  start ← time_time;
  valid_events ← select_events batch start;
  data ← lift (ak_concatenate (map Some valid_events));
  mret (set_processed_data batch data).

(** Lines 54-70 of [main]: the [try] statement around one task. *)
Definition handle_task (connection : Connection) (message_tag : Z)
    (batch : DataBatch) : M unit :=
  try_except is_Exception
    (processed_batch ← process_data batch;
     send_data pickle_dumps [processed_batch] connection RESULTS_QUEUE;;
     basic_ack message_tag)
    (fun e =>
       print ("error: failed to process batch " +:+ exn_str e);;
       basic_nack message_tag true).

(** The [while True] loop of [main]; one unit of fuel is one round. *)
Fixpoint worker_loop (fuel : nat) (connection : Connection) : M unit :=
  match fuel with
  | O => out_of_fuel
  | S fuel' =>
      task ← retrieve_batch TASKS_QUEUE 12 5;
      match task with
      | None =>
          channel_close;;
          connection_close connection;;
          print "exiting: no tasks in queue";;
          sys_exit 0
      | Some (message_tag, batch) =>
          handle_task connection message_tag batch;;
          worker_loop fuel' connection
      end
  end.

Definition main (fuel : nat) : M unit :=
  connection ← open_connection RABBITMQ_SERVER 6 5;
  match connection with
  | None => print "error: RabbitMQ connection failed";; sys_exit 1
  | Some connection =>
      connection_channel connection;;
      queue_declare TASKS_QUEUE;;
      worker_loop fuel connection
  end.

End Worker.

End higgs_worker.

(** ** Vocabulary of the statements *)

(** The start offsets [0, B, 2B, ...] of the batches of a subsample of [N]
    events: one for each [k] below [ceil(N/B)]. *)
Definition batch_starts (N B : Z) : list Z :=
  map (fun k : nat => Z.of_nat k * B) (seq 0 (Z.to_nat ((N + B - 1) / B))).

(** A float that is zero or a positive finite number. *)
Definition not_negative (x : float) : Prop :=
  x = S754_zero false \/ exists m e, x = S754_finite false m e.

(** [file] is the file of subsample [sub] of sample [name] under [root], as
    lines 139-151 name it, and uproot reads [T] entries from its tree
    (line 156). *)
Definition subsample_file (infofile_DSID : string -> outcome string)
    (tree_num_entries : string -> outcome Z) (root name sub file : string)
    (T : Z) : Prop :=
  (exists prefix,
      (if String.eqb name "data" then prefix = "Data/"
       else exists dsid,
              infofile_DSID sub = Ok dsid /\ prefix = "MC/mc_" +:+ dsid +:+ ".")
      /\ file = root +:+ prefix +:+ sub +:+ ".4lep.root")
  /\ tree_num_entries (file +:+ ":mini") = Ok T.

(** The ranges of [units] cut [[0, N)] into [ceil(N/B)] consecutive pieces
    of [B] offsets, the last one possibly shorter: the [k]-th unit covers
    [[k*B, min((k+1)*B, N))]; the ranges are non-empty, lie in [[0, N)], are
    pairwise disjoint, and every offset of [[0, N)] is in one of them. *)
Definition partitions (N B : Z) (units : list DataBatch) : Prop :=
  Z.of_nat (length units) = (N + B - 1) / B
  /\ (forall (k : nat) u, units !! k = Some u ->
        start_index u = Z.of_nat k * B
        /\ stop_index u = Z.min ((Z.of_nat k + 1) * B) N)
  /\ (forall u, u ∈ units ->
        0 <= start_index u /\ start_index u < stop_index u /\ stop_index u <= N)
  /\ (forall (i j : nat) u v, i <> j ->
        units !! i = Some u -> units !! j = Some v ->
        stop_index u <= start_index v \/ stop_index v <= start_index u)
  /\ (forall x, 0 <= x < N <->
        exists u, u ∈ units /\ start_index u <= x < stop_index u).

(** A world at time 0 with no queue declared, nothing printed, and the given
    fates of the coming connection attempts. *)
Definition fresh_world (net : list bool) : World :=
  mkWorld 0 net ∅ ∅ 1 0 [].

(** The set of the ids of a list of batches. *)
Definition ids (batches : list DataBatch) : gset string :=
  list_to_set (map batch_id batches).

(** A batch that only its id and its sample tell apart from others. *)
Definition plain_batch (id name : string) : DataBatch :=
  DataBatch_init id name "data_A" "measured" "Data/data_A.4lep.root"
                 float_one 0 100.

(** The world [w] once the effect [e] has been added to its record. *)
Definition and_then (w : World) (e : Effect) : World :=
  mkWorld (clock w) (network w) (queues w) (unacked w) (next_tag w)
          (uuid_count w) (effects w ++ [e]).

(** The messages waiting in a queue (none if it was never declared). *)
Definition queue_of (queue_name : string) (w : World) : list Msg :=
  default [] (queues w !! queue_name).

(** The world right after lines 290-297 of [retrieve_batches]: the clock
    was read, a channel opened and the queue declared. *)
Definition collector_ready (queue_name : string) (w : World) : World :=
  mkWorld (clock w) (network w)
          (match queues w !! queue_name with
           | Some _ => queues w
           | None => <[queue_name := []]> (queues w)
           end)
          (unacked w) (next_tag w) (uuid_count w)
          (((effects w ++ [TimeRead (clock w)]) ++ [ChannelOpen])
             ++ [QueueDeclare queue_name]).

(** No poll takes any time. *)
Definition on_time : nat -> nat := fun _ => 0%nat.

(** The time the first [k] polls take. *)
Fixpoint total_lag (lag : nat -> nat) (k : nat) : Z :=
  match k with
  | O => 0
  | S k' => Z.of_nat (lag 0%nat) + total_lag (fun i => lag (S i)) k'
  end.

(** A round that starts at the instant [t] gets the answer of the broker at
    [t + lag 0], and the next round starts [wait] later. The [i]-th message
    of [msgs] has reached the queue when the [i]-th poll is answered and
    unpickles to the [i]-th unit of [units]. *)
Fixpoint ready_for (pickle_loads : bytes -> outcome DataBatch)
    (lag : nat -> nat) (t wait : Z)
    (msgs : list Msg) (units : list DataBatch) : Prop :=
  match msgs, units with
  | [], [] => True
  | m :: msgs', u :: units' =>
      available_at m <= t + Z.of_nat (lag 0%nat)
      /\ pickle_loads (body m) = Ok u
      /\ ready_for pickle_loads (fun i => lag (S i))
                   (t + Z.of_nat (lag 0%nat) + wait) wait msgs' units'
  | _, _ => False
  end.

(** What the collector does to the outside while it receives [msgs], one at
    each poll of the rounds from instant [t] on: the poll, the reading of
    the clock, and the sleep. *)
Fixpoint poll_trace (queue_name : string) (lag : nat -> nat) (t wait : Z)
    (msgs : list Msg) : list Effect :=
  match msgs with
  | [] => []
  | m :: msgs' =>
      BasicGet queue_name true (Some (body m))
        :: TimeRead (t + Z.of_nat (lag 0%nat)) :: Sleep wait
        :: poll_trace queue_name (fun i => lag (S i))
                      (t + Z.of_nat (lag 0%nat) + wait) wait msgs'
  end.

(** No message of the queue can be handed out up to the instant [t]. *)
Definition silent_until (t : Z) (queue_name : string) (w : World) : Prop :=
  match queue_of queue_name w with
  | [] => True
  | m :: _ => t < available_at m
  end.

(** ** Fixtures of the examples *)

(** A stand-in for pickle: only the id of a batch travels, and the batch is
    rebuilt around it. *)
Definition id_dumps (b : DataBatch) : bytes := String.list_byte_of_string (batch_id b).

Definition id_loads (payload : bytes) : outcome DataBatch :=
  Ok (plain_batch (String.string_of_list_byte payload) "data").

(** A message carrying the batch of the given id, in the queue from [t] on. *)
Definition msg_at (t : Z) (id : string) : Msg :=
  mkMsg t (id_dumps (plain_batch id "data")).

(** A world at time 0 whose results queue holds the given messages. *)
Definition world_with_results (msgs : list Msg) : World :=
  mkWorld 0 [] {[RESULTS_QUEUE := msgs]} ∅ 1 0 [].

(** Stand-ins for the collaborators of the coordinator: ids in the order
    they are drawn, one dataset number, 150000 events in every file, and a
    plot that only saves its figure. *)
Definition nth_id (n : nat) : string := "id-" +:+ pretty n.

Definition any_DSID (subsample : string) : outcome string := Ok "361106".

Definition any_num_entries (tree : string) : outcome Z := Ok 150000.

Definition save_only (samples_data : gmap string (list Event)) (filename : string)
    : M unit :=
  emit (SaveFigure filename).

(** A stand-in for the reading of a file that cannot be opened. *)
Definition unreadable (batch : DataBatch) (start : Z) : M (list (list Event)) :=
  raise (PyError "FileNotFoundError" ("file not found: " +:+ path batch)).

(** A stand-in for pickle on the results queue: the payload names a batch of
    a table by its id. *)
Definition table_loads (table : list DataBatch) (payload : bytes)
    : outcome DataBatch :=
  match find (fun b => String.eqb (batch_id b) (String.string_of_list_byte payload))
             table with
  | Some b => Ok b
  | None => Raise (PyError "UnpicklingError" "unknown batch")
  end.

(** The batches the coordinator makes with the stand-ins above and the given
    sizes of the files, each processed into 60 events. *)
Definition processed_job (tree_num_entries : string -> outcome Z) : list DataBatch :=
  match fst (data_batcher nth_id any_DSID tree_num_entries
                          SAMPLES PATH FRACTION BATCH_SIZE (fresh_world [])) with
  | Ok batches =>
      map (fun b => set_processed_data b (replicate 60 (mkEvent 125 None))) batches
  | _ => []
  end.

(** A world in which the server answers and the results of the given
    batches are in the results queue already. *)
Definition world_with_done (done : list DataBatch) : World :=
  mkWorld 0 [true] {[RESULTS_QUEUE := map (fun b => mkMsg 0 (id_dumps b)) done]}
          ∅ 1 0 [].

(** Sizes of the files when the one of subsample [llll] holds no event. *)
Definition llll_is_empty (tree : string) : outcome Z :=
  if String.eqb tree (PATH +:+ "MC/mc_361106.llll.4lep.root:mini")
  then Ok 0 else Ok 150000.

(** A stand-in for a selection that keeps one event of one chunk. *)
Definition one_event (batch : DataBatch) (start : Z) : M (list (list Event)) :=
  mret [[mkEvent 125 None]].

(** A world at time 0 whose tasks queue holds the given messages. *)
Definition world_with_tasks (msgs : list Msg) : World :=
  mkWorld 0 [] {[TASKS_QUEUE := msgs]} ∅ 1 0 [].

(** ** Vocabulary of the further statements *)

(** The record of [j] connection attempts that failed, each followed by the
    wait before the next one. *)
Definition failed_attempts (hostname : string) (wait : Z) (j : nat) : list Effect :=
  concat (replicate j [Connect hostname false; Sleep wait]).

(** The world after an attempt to connect, of which [ok] tells the fate. *)
Definition after_connect (hostname : string) (ok : bool) (w : World) : World :=
  mkWorld (clock w) (tail (network w)) (queues w) (unacked w) (next_tag w)
          (uuid_count w) (effects w ++ [Connect hostname ok]).

(** The messages [send_data] puts on a queue at instant [t]. *)
Definition sent_at (pickle_dumps : DataBatch -> bytes) (t : Z)
    (batches : list DataBatch) : list Msg :=
  map (fun batch => mkMsg t (pickle_dumps batch)) batches.

(** [w'] differs from [w] at most in its queues and its record of effects. *)
Definition same_but_queues (w w' : World) : Prop :=
  clock w' = clock w /\ network w' = network w /\ unacked w' = unacked w
  /\ next_tag w' = next_tag w /\ uuid_count w' = uuid_count w.

(** The retrieved batches that belong to a sample, in the order they were
    retrieved, and their events put end to end. *)
Definition batches_of (batches : list DataBatch) (name : string) : list DataBatch :=
  filter (fun batch => sample batch = name) batches.

Definition sample_events (batches : list DataBatch) (name : string) : list Event :=
  concat (omap processed_data (batches_of batches name)).

(** The warnings of lines 91-93 for the samples of [names], in order. *)
Definition low_warnings (samples_data : gmap string (list Event))
    (names : list string) : list Effect :=
  omap (fun name =>
          match samples_data !! name with
          | Some data =>
              if len data <? 50
              then Some (Print ("warning: less than 50 events for sample - " +:+ name))
              else None
          | None => None
          end) names.

(** The world [w] once the effects [es] have been added to its record. *)
Definition and_then_all (w : World) (es : list Effect) : World :=
  mkWorld (clock w) (network w) (queues w) (unacked w) (next_tag w)
          (uuid_count w) (effects w ++ es).

(** Between [w] and [w'] the identifiers of [units] were drawn, one after
    the other, and none besides. *)
Definition draws (uuid4 : nat -> string) (w : World) (units : list DataBatch)
    (w' : World) : Prop :=
  map batch_id units = map uuid4 (seq (uuid_count w) (length units))
  /\ uuid_count w' = (uuid_count w + length units)%nat.

(** The job the coordinator makes with the stand-ins, as dispatched. *)
Definition dispatched_job : list DataBatch :=
  match fst (data_batcher nth_id any_DSID any_num_entries
                          SAMPLES PATH FRACTION BATCH_SIZE (fresh_world [])) with
  | Ok batches => batches
  | _ => []
  end.

(** The record of [k] polls of a worker that brought nothing, each followed
    by its wait. *)
Definition idle_polls (queue_name : string) (wait : Z) (k : nat) : list Effect :=
  concat (replicate k [BasicGet queue_name false None; Sleep wait]).

(** The world after a worker took the head message [m] of a queue at the end
    of [k] idle polls: the message waits for its acknowledgement under the
    delivery tag that was the next one. *)
Definition after_delivery (queue_name : string) (wait : Z) (k : nat) (m : Msg)
    (rest : list Msg) (w : World) : World :=
  mkWorld (clock w + Z.of_nat k * wait) (network w)
          (<[queue_name := rest]> (queues w))
          (<[next_tag w := (queue_name, body m)]> (unacked w))
          (next_tag w + 1) (uuid_count w)
          (effects w ++ idle_polls queue_name wait k
                     ++ [BasicGet queue_name false (Some (body m))]).

(** The sum of the first four items of a row as the integer type [t] of
    its array has it, and what the two selections ask of it. *)
Definition four_sum (row : list Z) : Z := foldr Z.add 0 (take 4 row).

Definition type_ok (t : higgs_worker.dtype) (row : list Z) : bool :=
  let s := higgs_worker.wrap t (four_sum row) in
  (s =? 44) || (s =? 48) || (s =? 52).

Definition charge_ok (t : higgs_worker.dtype) (row : list Z) : bool :=
  higgs_worker.wrap t (four_sum row) =? 0.

(** The integers that the type [t] holds. *)
Definition in_dtype (t : higgs_worker.dtype) (x : Z) : Prop :=
  if higgs_worker.signed t
  then - 2 ^ (higgs_worker.bits t - 1) <= x < 2 ^ (higgs_worker.bits t - 1)
  else 0 <= x < 2 ^ higgs_worker.bits t.

(** How many of the first four items of a row are the given value. *)
Definition count_of (value : Z) (row : list Z) : nat :=
  length (filter (fun item => item = value) (take 4 row)).

(* ===================================================================== *)
(** * Part II. Properties                                                 *)
(* ===================================================================== *)

(** ** Running computations *)

Lemma bind_Ok {A B : Type} (m : M A) (f : A -> M B) (w w' : World) (a : A) :
  m w = (Ok a, w') -> (m ≫= f) w = f a w'.
Proof. intros H. unfold mbind, M_bind. now rewrite H. Qed.

Lemma bind_Raise {A B : Type} (m : M A) (f : A -> M B) (w w' : World) (e : exn) :
  m w = (Raise e, w') -> (m ≫= f) w = (Raise e, w').
Proof. intros H. unfold mbind, M_bind. now rewrite H. Qed.

Lemma bind_inv_Ok {A B : Type} (m : M A) (f : A -> M B) (w w' : World) (b : B) :
  (m ≫= f) w = (Ok b, w') ->
  exists a w1, m w = (Ok a, w1) /\ f a w1 = (Ok b, w').
Proof.
  unfold mbind, M_bind. destruct (m w) as [[a | e |] w1]; try discriminate.
  intros H. now exists a, w1.
Qed.

(** A [mapM] whose body succeeds on every item succeeds, item by item. *)
Lemma mapM_Forall2 {A B : Type} (f : A -> M B) (P : A -> B -> Prop) (xs : list A) :
  (forall x w, x ∈ xs -> exists y w', f x w = (Ok y, w') /\ P x y) ->
  forall w, exists ys w', mapM f xs w = (Ok ys, w') /\ Forall2 P xs ys.
Proof.
  induction xs as [|x xs IH]; intros Hf w.
  - exists [], w. split; [reflexivity | constructor].
  - destruct (Hf x w) as (y & w1 & Hy & HP); [left |].
    destruct (IH (fun x' w' Hin => Hf x' w' (list_elem_of_further _ _ _ Hin)) w1)
      as (ys & w2 & Hys & HPs).
    exists (y :: ys), w2. split; [| now constructor].
    cbn [mapM]. rewrite (bind_Ok _ _ _ _ _ Hy).
    now rewrite (bind_Ok _ _ _ _ _ Hys).
Qed.

(** ** The partitioner *)

Lemma range_up_closed (step : Z) (Hstep : 0 < step) :
  forall (fuel : nat) (start stop : Z),
    stop - start <= Z.of_nat fuel ->
    range_up fuel start stop step =
    map (fun k : nat => start + Z.of_nat k * step)
        (seq 0 (Z.to_nat ((stop - start + step - 1) / step))).
Proof.
  induction fuel as [|fuel IH]; intros start stop Hfuel.
  - assert ((stop - start + step - 1) / step <= 0) as Hq.
    { apply Z.lt_succ_r, Z.div_lt_upper_bound; lia. }
    now replace (Z.to_nat _) with 0%nat by lia.
  - cbn [range_up]. destruct (Z.ltb_spec start stop) as [Hlt | Hge].
    + rewrite IH by lia.
      assert (0 <= (stop - start - 1) / step) as Hq by (apply Z.div_pos; lia).
      replace (stop - start + step - 1) with ((stop - start - 1) + 1 * step) by lia.
      rewrite Z.div_add by lia.
      replace (Z.to_nat ((stop - start - 1) / step + 1))
        with (S (Z.to_nat ((stop - start - 1) / step))) by lia.
      replace (stop - (start + step) + step - 1) with (stop - start - 1) by lia.
      cbn [seq map]. f_equal; [lia |].
      rewrite <- seq_shift, map_map. apply map_ext. intros k. lia.
    + assert ((stop - start + step - 1) / step <= 0) as Hq.
      { apply Z.lt_succ_r, Z.div_lt_upper_bound; lia. }
      now replace (Z.to_nat _) with 0%nat by lia.
Qed.

Lemma py_range_batch_starts (N B : Z) :
  0 < B -> py_range 0 N B = Ok (batch_starts N B).
Proof.
  intros HB. unfold py_range.
  destruct (Z.eqb_spec B 0) as [? | _]; [lia |].
  destruct (Z.ltb_spec 0 B) as [_ | ?]; [| lia].
  rewrite (range_up_closed B HB) by lia.
  unfold batch_starts. now replace (N - 0 + B - 1) with (N + B - 1) by lia.
Qed.

Lemma batch_starts_lookup (N B : Z) (k : nat) (s : Z) :
  0 < B -> batch_starts N B !! k = Some s ->
  s = Z.of_nat k * B /\ 0 <= s < N.
Proof.
  intros HB Hk. unfold batch_starts in Hk.
  rewrite list_lookup_fmap in Hk.
  destruct (seq 0 _ !! k) as [k' |] eqn:Hseq; [| discriminate].
  apply lookup_seq in Hseq as [-> Hlt]. cbn in Hk. injection Hk as <-.
  split; [reflexivity |]. split; [lia |].
  assert (Z.of_nat k < (N + B - 1) / B) as Hq by lia.
  assert (B * ((N + B - 1) / B) <= N + B - 1) by (apply Z.mul_div_le; lia).
  nia.
Qed.

(** ** Doubles *)

Lemma digits2_pos_size (p : positive) : digits2_pos p = Pos.size p.
Proof. induction p as [p IH | p IH |]; cbn; congruence. Qed.

(** The number of binary digits of a positive integer. *)
Lemma Zdigits2_log2 (m : Z) : 0 < m -> Zdigits2 m = Z.log2 m + 1.
Proof.
  destruct m as [|p|p]; try lia. intros _. cbn [Zdigits2].
  destruct p as [p | p |]; cbn [digits2_pos Z.log2]; rewrite ?digits2_pos_size; lia.
Qed.

Lemma Zdigits2_nonneg (m : Z) : 0 <= Zdigits2 m.
Proof. destruct m; cbn; lia. Qed.

Lemma Zdigits2_mono (a b : Z) : 0 <= a <= b -> Zdigits2 a <= Zdigits2 b.
Proof.
  intros [Ha Hab]. destruct (Z.eq_dec a 0) as [-> | Hne].
  - apply Zdigits2_nonneg.
  - rewrite (Zdigits2_log2 a), (Zdigits2_log2 b) by lia.
    pose proof (Z.log2_le_mono a b Hab). lia.
Qed.

Lemma Zdigits2_succ (m : Z) : 0 <= m -> Zdigits2 (m + 1) <= Zdigits2 m + 1.
Proof.
  intros Hm. destruct (Z.eq_dec m 0) as [-> | Hne]; [vm_compute; discriminate |].
  rewrite (Zdigits2_log2 (m + 1)), (Zdigits2_log2 m) by lia.
  pose proof (Z.log2_le_mono (m + 1) (2 * m) ltac:(lia)) as H.
  rewrite Z.log2_double in H by lia. lia.
Qed.

Lemma Zdigits2_below (m k : Z) : 0 <= m < 2 ^ k -> 0 <= k -> Zdigits2 m <= k.
Proof.
  intros [Hm Hlt] Hk. destruct (Z.eq_dec m 0) as [-> | Hne]; [exact Hk |].
  rewrite Zdigits2_log2 by lia.
  apply Z.log2_lt_pow2 in Hlt; [| lia]. lia.
Qed.

Lemma Zdigits2_mul (a b : Z) : 0 < a -> 0 < b ->
  Zdigits2 (a * b) <= Zdigits2 a + Zdigits2 b.
Proof.
  intros Ha Hb.
  rewrite (Zdigits2_log2 (a * b)), (Zdigits2_log2 a), (Zdigits2_log2 b) by nia.
  pose proof (Z.log2_mul_above a b ltac:(lia) ltac:(lia)). lia.
Qed.

(** Shifting a mantissa to the right never makes it larger. *)
Lemma shr_1_le (mrs : shr_record) :
  0 <= shr_m mrs -> 0 <= shr_m (shr_1 mrs) <= shr_m mrs.
Proof.
  destruct mrs as [m r s]. cbn [shr_m shr_1].
  destruct m as [|[p | p |]|p]; cbn [shr_m]; lia.
Qed.

Lemma iter_pos_shr_1_le (p : positive) :
  forall mrs : shr_record,
    0 <= shr_m mrs -> 0 <= shr_m (SpecFloat.iter_pos shr_1 p mrs) <= shr_m mrs.
Proof.
  induction p as [p IH | p IH |]; intros mrs Hm; cbn [SpecFloat.iter_pos].
  - pose proof (shr_1_le mrs Hm) as H1.
    pose proof (IH (shr_1 mrs) ltac:(lia)) as H2.
    pose proof (IH (SpecFloat.iter_pos shr_1 p (shr_1 mrs)) ltac:(lia)). lia.
  - pose proof (IH mrs Hm) as H1.
    pose proof (IH (SpecFloat.iter_pos shr_1 p mrs) ltac:(lia)). lia.
  - now apply shr_1_le.
Qed.

Lemma shr_m_of_loc (m : Z) (l : location) : shr_m (shr_record_of_loc m l) = m.
Proof. destruct l as [|[]]; reflexivity. Qed.

Lemma round_nearest_even_bounds (m : Z) (l : location) :
  m <= round_nearest_even m l <= m + 1.
Proof. destruct l as [|[]]; cbn; try destruct (Z.even m); lia. Qed.

(** One shift of a mantissa to the exponent that its size asks for. *)
Lemma shr_fexp_bounds (m e : Z) (l : location) (S' E : Z) :
  0 <= m -> e <= E -> Zdigits2 m + e <= S' ->
  let '(mrs, e') := shr_fexp prec emax m e l in
  0 <= shr_m mrs <= m /\ e' <= Z.max E (fexp prec emax S').
Proof.
  intros Hm He HS. unfold shr_fexp, shr.
  assert (fexp prec emax (Zdigits2 m + e) <= fexp prec emax S') as Hf
    by (unfold fexp; lia).
  destruct (fexp prec emax (Zdigits2 m + e) - e) as [|n|n] eqn:Hn.
  - rewrite shr_m_of_loc. lia.
  - pose proof (iter_pos_shr_1_le n (shr_record_of_loc m l)) as Hs.
    rewrite shr_m_of_loc in Hs. specialize (Hs Hm). lia.
  - rewrite shr_m_of_loc. lia.
Qed.

(** Rounding a mantissa that is not negative gives a zero or a finite
    number of the sign asked for, whenever the sizes [D] of the mantissa,
    [E] of the exponent and [S'] of their sum leave room below the largest
    exponent of a double. *)
Lemma binary_round_aux_finite (s : bool) (m e : Z) (l : location) (D E S' : Z) :
  0 <= m -> Zdigits2 m <= D -> e <= E -> Zdigits2 m + e <= S' ->
  let E1 := Z.max E (fexp prec emax S') in
  let E2 := Z.max E1 (fexp prec emax (D + 1 + E1)) in
  E2 <= emax - prec ->
  binary_round_aux prec emax s m e l = S754_zero s
  \/ exists m' e',
       binary_round_aux prec emax s m e l = S754_finite s m' e'
       /\ Z.pos m' <= m + 1 /\ e' <= E2.
Proof.
  intros Hm HD He HS E1 E2 Hroom. unfold binary_round_aux.
  pose proof (shr_fexp_bounds m e l S' E Hm He HS) as H1.
  destruct (shr_fexp prec emax m e l) as [mrs1 e1]. destruct H1 as [Hm1 He1].
  pose proof (round_nearest_even_bounds (shr_m mrs1) (loc_of_shr_record mrs1)) as Hr.
  set (mr := round_nearest_even (shr_m mrs1) (loc_of_shr_record mrs1)) in *.
  assert (Zdigits2 mr <= D + 1) as Hdr.
  { transitivity (Zdigits2 (m + 1)); [apply Zdigits2_mono; lia |].
    pose proof (Zdigits2_succ m Hm). lia. }
  pose proof (shr_fexp_bounds mr e1 loc_Exact (D + 1 + E1) E1 ltac:(lia)
                ltac:(subst E1; lia) ltac:(subst E1; lia)) as H2.
  destruct (shr_fexp prec emax mr e1 loc_Exact) as [mrs2 e2].
  destruct H2 as [Hm2 He2]. fold E2 in He2.
  destruct (shr_m mrs2) as [|m2|m2] eqn:Hs2; [now left | | lia].
  right. destruct (Z.leb_spec e2 (emax - prec)) as [_ | ?]; [| lia].
  exists m2, e2. split; [reflexivity |]. lia.
Qed.

Lemma iter_xO_shift (p d : positive) :
  Z.pos (Pos.iter xO p d) = Z.pos p * 2 ^ Z.pos d.
Proof.
  apply (Pos.iter_ind positive xO p (fun d r => Z.pos r = Z.pos p * 2 ^ Z.pos d)).
  - rewrite Z.pow_1_r. lia.
  - intros d' r IH. rewrite Pos2Z.inj_succ, Z.pow_succ_r by lia. lia.
Qed.

Lemma round_half_even_nonneg (m e : Z) : 0 <= m -> 0 <= round_half_even m e.
Proof.
  intros Hm. unfold round_half_even.
  destruct (0 <=? e) eqn:He; [apply Z.leb_le in He; nia |].
  apply Z.leb_gt in He.
  assert (0 < 2 ^ (- e)) by (apply Z.pow_pos_nonneg; lia).
  assert (0 <= m / 2 ^ (- e)) by (apply Z.div_pos; lia).
  repeat case_match; lia.
Qed.

Lemma py_round_not_negative (x : float) :
  not_negative x -> exists r, py_round x = Ok r /\ 0 <= r.
Proof.
  intros [-> | (m & e & ->)]; cbn [py_round cond_Zopp].
  - exists 0. split; [reflexivity | lia].
  - eexists. split; [reflexivity |]. apply round_half_even_nonneg. lia.
Qed.

(** An int below [2^63] converts to a double without overflow. *)
Lemma py_float_of_int_small (T : Z) :
  0 < T < 2 ^ 63 ->
  exists y, py_float_of_int T = Ok y
            /\ (y = S754_zero false
                \/ exists m e, y = S754_finite false m e
                               /\ Z.pos m <= 2 ^ 116 /\ e <= 74).
Proof.
  intros [HT0 HT]. destruct T as [|p|p]; try lia.
  unfold py_float_of_int, binary_normalize, binary_round.
  assert (Zdigits2 (Z.pos p) <= 63) as Hd by (apply Zdigits2_below; lia).
  pose proof (Zdigits2_nonneg (Z.pos p)) as Hd0.
  change (Z.pos (digits2_pos p)) with (Zdigits2 (Z.pos p)).
  set (d := Zdigits2 (Z.pos p)) in *.
  assert (exists mz ez,
            shl_align p 0 (fexp prec emax (d + 0)) = (mz, ez)
            /\ Z.pos mz < 2 ^ 116 /\ ez <= 0 /\ Zdigits2 (Z.pos mz) + ez <= 63)
    as (mz & ez & -> & Hmz & Hez & Hsum).
  { unfold shl_align. unfold fexp, emin, prec, emax.
    destruct (Z.max (d + 0 - 53) (3 - 1024 - 53) - 0) as [|n|n] eqn:Hn.
    - exists p, 0. split; [reflexivity |]. fold d. split; [| lia].
      apply (Z.lt_le_trans _ (2 ^ 63)); [lia |]. apply Z.pow_le_mono_r; lia.
    - exists p, 0. split; [reflexivity |]. fold d. split; [| lia].
      apply (Z.lt_le_trans _ (2 ^ 63)); [lia |]. apply Z.pow_le_mono_r; lia.
    - eexists _, _. split; [reflexivity |].
      rewrite iter_xO_shift.
      assert (Z.pos n <= 53) by lia.
      assert (0 < 2 ^ Z.pos n) by (apply Z.pow_pos_nonneg; lia).
      assert (Z.pos p * 2 ^ Z.pos n < 2 ^ (63 + Z.pos n)) as Hlt
        by (rewrite Z.pow_add_r by lia; nia).
      split; [| split; [lia |]].
      + apply (Z.lt_le_trans _ _ _ Hlt). apply Z.pow_le_mono_r; lia.
      + pose proof (Zdigits2_below (Z.pos p * 2 ^ Z.pos n) (63 + Z.pos n)
                      ltac:(nia) ltac:(lia)). lia. }
  destruct (binary_round_aux_finite false (Z.pos mz) ez loc_Exact 116 0 63)
    as [-> | (m' & e' & -> & Hm' & He')]; try lia.
  - apply Zdigits2_below; lia.
  - vm_compute. discriminate.
  - eauto.
  - exists (S754_finite false m' e'). split; [reflexivity |]. right.
    exists m', e'. split; [reflexivity |]. split; [lia |].
    revert He'. vm_compute. tauto.
Qed.

(** What [0 < f <= 1] says of a double [f]. *)
Lemma fraction_shape (f : float) :
  valid_binary prec emax f = true ->
  SFltb (S754_zero false) f = true ->
  SFleb f float_one = true ->
  exists m e, f = S754_finite false m e /\ Zdigits2 (Z.pos m) <= 53 /\ e <= -52.
Proof.
  intros Hvalid Hpos Hle. destruct f as [s | s | | s m e]; try discriminate.
  - destruct s; discriminate.
  - destruct s; [discriminate |]. exists m, e. split; [reflexivity |].
    cbn [valid_binary] in Hvalid. unfold bounded, canonical_mantissa in Hvalid.
    apply andb_prop in Hvalid as [Hcanon _]. apply Z.eqb_eq in Hcanon.
    unfold fexp, emin, prec, emax in Hcanon. cbn [Zdigits2].
    split; [lia |].
    unfold SFleb, SFcompare, float_one in Hle.
    destruct (Z.compare_spec e (-52)); [lia | lia | discriminate].
Qed.

(** Line 160 on a count of entries below [2^63] and a fraction in [(0, 1]]:
    the product and its rounding are defined, and nothing is negative. *)
Lemma num_events_of_small (T : Z) (f : float) :
  0 < T < 2 ^ 63 ->
  valid_binary prec emax f = true ->
  SFltb (S754_zero false) f = true ->
  SFleb f float_one = true ->
  exists product rounded,
    py_mul_int_float T f = Ok product
    /\ py_round product = Ok rounded
    /\ 0 <= rounded
    /\ num_events_of T f = Ok (Z.min T rounded).
Proof.
  intros HT Hvalid Hpos Hle.
  destruct (fraction_shape f Hvalid Hpos Hle) as (mf & ef & -> & Hmf & Hef).
  destruct (py_float_of_int_small T HT) as (y & Hy & Hshape).
  assert (not_negative (SFmul prec emax y (S754_finite false mf ef))) as Hprod.
  { destruct Hshape as [-> | (mt & et & -> & Hmt & Het)]; [now left |].
    cbn [SFmul xorb].
    assert (Zdigits2 (Z.pos (mt * mf)) <= 170) as Hdigits.
    { assert (Zdigits2 (Z.pos mt) <= 117) by (apply Zdigits2_below; lia).
      pose proof (Zdigits2_mul (Z.pos mt) (Z.pos mf) ltac:(lia) ltac:(lia)).
      rewrite Pos2Z.inj_mul. lia. }
    destruct (binary_round_aux_finite false (Z.pos (mt * mf)) (et + ef) loc_Exact
                170 22 192) as [-> | (m' & e' & -> & _)]; try lia.
    - vm_compute. discriminate.
    - now left.
    - right. eauto. }
  destruct (py_round_not_negative _ Hprod) as (r & Hr & Hr0).
  exists (SFmul prec emax y (S754_finite false mf ef)), r.
  unfold num_events_of, py_mul_int_float. rewrite Hy. cbn. rewrite Hr. cbn. auto.
Qed.

(** A part divided by the whole is a double: neither error of [/]. *)
Lemma py_truediv_part (a b : Z) :
  0 < a <= b -> exists q, py_truediv a b = Ok q.
Proof.
  intros [Ha Hab]. unfold py_truediv.
  destruct (Z.eqb_spec b 0) as [? | _]; [lia |].
  destruct a as [|pa|pa]; try lia. destruct b as [|pb|pb]; try lia.
  cbn [exact_float SFdiv xorb]. unfold SFdiv_core_binary.
  set (d1 := Zdigits2 (Z.pos pa)). set (d2 := Zdigits2 (Z.pos pb)).
  assert (d1 <= d2) as Hd by (apply Zdigits2_mono; lia).
  set (e' := Z.min (fexp prec emax (d1 + 0 - (d2 + 0))) (0 - 0)).
  assert (-1074 <= e' <= -53) as He'
    by (unfold e', fexp, emin, prec, emax; lia).
  destruct (0 - 0 - e') as [|s|s] eqn:Hs; try lia.
  rewrite Z.shiftl_mul_pow2 by lia.
  destruct (Z.div_eucl (Z.pos pa * 2 ^ Z.pos s) (Z.pos pb)) as [q r] eqn:Hdiv.
  assert (q = Z.pos pa * 2 ^ Z.pos s / Z.pos pb) as Hq
    by (unfold Z.div; now rewrite Hdiv).
  assert (0 < 2 ^ Z.pos s) by (apply Z.pow_pos_nonneg; lia).
  assert (0 <= q <= 2 ^ Z.pos s) as Hqb.
  { rewrite Hq. split; [apply Z.div_pos; nia |].
    apply Z.div_le_upper_bound; nia. }
  assert (Zdigits2 q <= Z.pos s + 1) as Hdq.
  { apply Zdigits2_below; [| lia]. rewrite Z.pow_add_r by lia. lia. }
  destruct (binary_round_aux_finite false q e' (new_location (Z.pos pb) r)
              1075 (-53) 1) as [-> | (m' & e2 & -> & _)]; try lia.
  - vm_compute. discriminate.
  - eauto.
  - eauto.
Qed.

(** What line 160 gives is never more than the number of entries. *)
Lemma num_events_of_le (T : Z) (f : float) (N : Z) :
  num_events_of T f = Ok N -> N <= T.
Proof.
  unfold num_events_of. destruct (py_mul_int_float T f) as [x | |]; try discriminate.
  cbn. destruct (py_round x) as [r | |]; try discriminate.
  cbn. intros [= <-]. lia.
Qed.

(** The ranges of the inner loop cut [[0, N)] into pieces. *)
Lemma ranges_partition (N B : Z) (units : list DataBatch) :
  0 <= N -> 0 < B ->
  Forall2 (fun s u => start_index u = s /\ stop_index u = Z.min (s + B) N)
          (batch_starts N B) units ->
  partitions N B units.
Proof.
  intros HN HB Hall.
  assert (0 <= (N + B - 1) / B) as Hq by (apply Z.div_pos; lia).
  assert (length units = Z.to_nat ((N + B - 1) / B)) as Hlen.
  { rewrite <- (Forall2_length _ _ _ Hall). unfold batch_starts.
    now rewrite length_map, length_seq. }
  assert (forall (k : nat) u, units !! k = Some u ->
            start_index u = Z.of_nat k * B
            /\ stop_index u = Z.min ((Z.of_nat k + 1) * B) N
            /\ 0 <= Z.of_nat k * B < N) as Hat.
  { intros k u Hk.
    destruct (Forall2_lookup_r _ _ _ _ _ Hall Hk) as (s & Hs & Hstart & Hstop).
    apply batch_starts_lookup in Hs as [-> Hr]; [| assumption].
    split; [exact Hstart |]. split; [| lia]. rewrite Hstop. f_equal. lia. }
  unfold partitions.
  split; [lia |]. split; [intros k u Hk; destruct (Hat k u Hk); tauto |].
  split; [| split].
  - intros u Hu. apply list_elem_of_lookup in Hu as [k Hk].
    destruct (Hat k u Hk) as (-> & -> & Hr). lia.
  - intros i j u v Hij Hi Hj.
    destruct (Hat i u Hi) as (-> & -> & _).
    destruct (Hat j v Hj) as (-> & -> & _).
    destruct (Nat.lt_total i j) as [Hlt | [? | Hlt]]; [left | contradiction | right]; nia.
  - intros x. split.
    + intros Hx.
      assert (0 <= x / B) as Hk0 by (apply Z.div_pos; lia).
      assert (x / B < (N + B - 1) / B) as Hk1.
      { replace (N + B - 1) with ((N - 1) + 1 * B) by lia.
        rewrite Z.div_add by lia.
        assert (x / B <= (N - 1) / B) by (apply Z.div_le_mono; lia). lia. }
      destruct (lookup_lt_is_Some_2 units (Z.to_nat (x / B))) as [u Hu]; [lia |].
      exists u. split; [apply list_elem_of_lookup; eauto |].
      destruct (Hat _ _ Hu) as (-> & -> & _).
      rewrite Z2Nat.id by lia.
      pose proof (Z.mul_div_le x B HB).
      pose proof (Z.mul_succ_div_gt x B HB). lia.
    + intros (u & Hu & Hx). apply list_elem_of_lookup in Hu as [k Hk].
      destruct (Hat k u Hk) as (Hs & He & Hr). lia.
Qed.

Section BatcherFacts.

Variable uuid4 : nat -> string.
Variable infofile_DSID : string -> outcome string.
Variable tree_num_entries : string -> outcome Z.

(** The inner loop never fails for a positive batch size, and its units
    carry the ranges [[s, min (s + B) N)] for the offsets [s] of
    [batch_starts], in that order, and the names it was given. *)
Lemma batch_subsample_ranges (name sub kind file : string) (N B : Z) (w : World) :
  0 < B ->
  exists units w',
    batch_subsample uuid4 name sub kind file N B w = (Ok units, w')
    /\ Forall2 (fun s u => start_index u = s /\ stop_index u = Z.min (s + B) N)
               (batch_starts N B) units
    /\ Forall (fun u => sample u = name /\ subsample u = sub /\ path u = file) units.
Proof.
  intros HB. unfold batch_subsample.
  rewrite (bind_Ok _ _ w w (batch_starts N B))
    by (unfold lift; now rewrite py_range_batch_starts).
  destruct (mapM_Forall2
              (fun start =>
                 let stop := Z.min (start + B) N in
                 batch_fraction ← lift (py_truediv (stop - start) N);
                 new_id ← uuid4_str uuid4;
                 mret (DataBatch_init new_id name sub kind file batch_fraction
                                      start stop))
              (fun s u => (start_index u = s /\ stop_index u = Z.min (s + B) N)
                          /\ sample u = name /\ subsample u = sub /\ path u = file)
              (batch_starts N B)) with (w := w)
    as (units & w' & Hrun & Hall).
  { intros s w0 Hs.
    apply list_elem_of_lookup in Hs as [k Hk].
    apply batch_starts_lookup in Hk as [_ Hrange]; [| assumption].
    destruct (py_truediv_part (Z.min (s + B) N - s) N ltac:(lia)) as (q & Hq).
    cbn zeta. rewrite (bind_Ok _ _ w0 w0 q) by (unfold lift; now rewrite Hq).
    eexists _, _. split; [reflexivity |]. repeat split; reflexivity. }
  exists units, w'. split; [exact Hrun |]. split.
  - eapply Forall2_impl; [exact Hall |]. cbn beta. tauto.
  - clear Hrun. induction Hall as [|s u ss us [_ Hu] _ IH]; constructor; assumption.
Qed.

(** Lines 138-160 for one subsample whose file can be read: the inner loop
    runs on the file of the subsample with what line 160 computes. *)
Lemma batch_one_run (root : string) (f : float) (B : Z) (name sub file : string)
    (T N : Z) (w : World) :
  subsample_file infofile_DSID tree_num_entries root name sub file T ->
  num_events_of T f = Ok N ->
  batch_one uuid4 infofile_DSID tree_num_entries root f B name sub w
  = batch_subsample uuid4 name sub
                    (if String.eqb name "data" then "measured" else "monte-carlo")
                    file N B w.
Proof.
  intros ((prefix & Hprefix & ->) & HT) HN. unfold batch_one.
  destruct (String.eqb name "data").
  - subst prefix.
    rewrite (bind_Ok _ _ w w ("measured", "Data/")) by reflexivity.
    cbn beta iota zeta.
    rewrite (bind_Ok _ _ w w T) by (unfold lift; now rewrite HT).
    now rewrite (bind_Ok _ _ w w N) by (unfold lift; now rewrite HN).
  - destruct Hprefix as (dsid & Hdsid & ->).
    rewrite (bind_Ok _ _ w w ("monte-carlo", "MC/mc_" +:+ dsid +:+ "."))
      by (unfold lift, mbind, M_bind; now rewrite Hdsid).
    cbn beta iota zeta.
    rewrite (bind_Ok _ _ w w T) by (unfold lift; now rewrite HT).
    now rewrite (bind_Ok _ _ w w N) by (unfold lift; now rewrite HN).
Qed.

End BatcherFacts.

(** Results that are each the image of something are the images of a list. *)
Lemma Forall2_images {A B C : Type} (R : A -> C -> Prop) (g : C -> B)
    (xs : list A) (ys : list B) :
  Forall2 (fun x y => exists c, y = g c /\ R x c) xs ys ->
  exists cs, ys = map g cs /\ Forall2 R xs cs.
Proof.
  induction 1 as [|x y xs ys (c & -> & Hc) _ (cs & -> & Hcs)].
  - exists []. split; [reflexivity | constructor].
  - exists (c :: cs). split; [reflexivity | now constructor].
Qed.

(** C1. For a batch size [B > 0] and a sampling fraction [0 < f <= 1],
    [data_batcher] on samples whose files can be read, each with a number
    [T > 0] of entries (a 64-bit count), returns one group of units for each
    subsample, in the order of the configuration. The group of a subsample
    belongs to it and to its file, and it cuts [[0, N)] into [ceil(N/B)]
    ranges, [N = min(T, round(T*f))] in the arithmetic of Python's floats:
    the [k]-th one is [[k*B, min((k+1)*B, N))]; the ranges are non-empty, lie
    in [[0, N)], are pairwise disjoint, and every offset of [[0, N)] is in
    one of them. *)
Theorem data_batcher_partitions_subsample
    (uuid4 : nat -> string) (infofile_DSID : string -> outcome string)
    (tree_num_entries : string -> outcome Z)
    (samples : list (string * SampleInfo)) (root : string) (f : float) (B : Z)
    (w : World) :
  0 < B ->
  valid_binary prec emax f = true ->
  SFltb (S754_zero false) f = true ->
  SFleb f float_one = true ->
  (forall name info sub,
      (name, info) ∈ samples -> sub ∈ sample_list info ->
      exists file T,
        subsample_file infofile_DSID tree_num_entries root name sub file T
        /\ 0 < T < 2 ^ 63) ->
  exists (groups : list (list (list DataBatch))) (w' : World),
    data_batcher uuid4 infofile_DSID tree_num_entries samples root f B w
      = (Ok (concat (map (@concat DataBatch) groups)), w')
    /\ Forall2
         (fun item per_sample =>
            Forall2
              (fun sub units =>
                 exists file T product rounded,
                   subsample_file infofile_DSID tree_num_entries root
                                  (fst item) sub file T
                   /\ py_mul_int_float T f = Ok product
                   /\ py_round product = Ok rounded
                   /\ Forall (fun u => sample u = fst item /\ subsample u = sub
                                       /\ path u = file) units
                   /\ partitions (Z.min T rounded) B units)
              (sample_list (snd item)) per_sample)
         samples groups.
Proof.
  intros HB Hvalid Hpos Hle Hfiles.
  set (P := fun (name sub : string) (units : list DataBatch) =>
              exists file T product rounded,
                subsample_file infofile_DSID tree_num_entries root name sub file T
                /\ py_mul_int_float T f = Ok product
                /\ py_round product = Ok rounded
                /\ Forall (fun u => sample u = name /\ subsample u = sub
                                    /\ path u = file) units
                /\ partitions (Z.min T rounded) B units).
  assert (forall name info sub w0,
            (name, info) ∈ samples -> sub ∈ sample_list info ->
            exists units w1,
              batch_one uuid4 infofile_DSID tree_num_entries root f B name sub w0
                = (Ok units, w1)
              /\ P name sub units) as Hone.
  { intros name info sub w0 Hitem Hsub.
    destruct (Hfiles name info sub Hitem Hsub) as (file & T & Hfile & HT).
    destruct (num_events_of_small T f HT Hvalid Hpos Hle)
      as (product & rounded & Hproduct & Hround & Hr0 & HN).
    rewrite (batch_one_run uuid4 infofile_DSID tree_num_entries root f B name sub
               file T _ w0 Hfile HN).
    destruct (batch_subsample_ranges uuid4 infofile_DSID tree_num_entries name sub
                (if String.eqb name "data" then "measured" else "monte-carlo")
                file (Z.min T rounded) B w0 HB)
      as (units & w1 & Hrun & Hranges & Hnames).
    exists units, w1. split; [exact Hrun |].
    exists file, T, product, rounded. repeat (split; [assumption |]).
    apply ranges_partition; [lia | assumption | assumption]. }
  destruct (mapM_Forall2
              (fun item : string * SampleInfo =>
                 per_subsample ←
                   mapM (batch_one uuid4 infofile_DSID tree_num_entries root f B
                                   (fst item))
                        (sample_list (snd item));
                 mret (concat per_subsample))
              (fun item units =>
                 exists per_sample,
                   units = concat per_sample
                   /\ Forall2 (P (fst item)) (sample_list (snd item)) per_sample)
              samples) with (w := w)
    as (per_sample & w' & Hrun & Hall).
  { intros [name info] w0 Hitem. cbn [fst snd].
    destruct (mapM_Forall2
                (batch_one uuid4 infofile_DSID tree_num_entries root f B name)
                (P name) (sample_list info)) with (w := w0)
      as (per_subsample & w1 & Hsub & Hgroups).
    { intros sub w2 Hsub. now apply (Hone name info sub w2). }
    exists (concat per_subsample), w1. split; [| eauto].
    now rewrite (bind_Ok _ _ _ _ _ Hsub). }
  apply Forall2_images in Hall as (groups & -> & Hgroups).
  exists groups, w'. split; [| exact Hgroups].
  unfold data_batcher. now rewrite (bind_Ok _ _ _ _ _ Hrun).
Qed.

(** Witness of C1: the job of the configuration, with stand-ins that give
    every file 150000 entries. *)
Lemma data_batcher_partitions_subsample_witness :
  exists (groups : list (list (list DataBatch))) (w' : World),
    data_batcher nth_id any_DSID any_num_entries SAMPLES PATH FRACTION BATCH_SIZE
                 (fresh_world [])
      = (Ok (concat (map (@concat DataBatch) groups)), w')
    /\ Forall2
         (fun item per_sample =>
            Forall2
              (fun sub units =>
                 exists file T product rounded,
                   subsample_file any_DSID any_num_entries PATH
                                  (fst item) sub file T
                   /\ py_mul_int_float T FRACTION = Ok product
                   /\ py_round product = Ok rounded
                   /\ Forall (fun u => sample u = fst item /\ subsample u = sub
                                       /\ path u = file) units
                   /\ partitions (Z.min T rounded) BATCH_SIZE units)
              (sample_list (snd item)) per_sample)
         SAMPLES groups.
Proof.
  apply (data_batcher_partitions_subsample nth_id any_DSID any_num_entries
           SAMPLES PATH FRACTION BATCH_SIZE (fresh_world []));
    try reflexivity.
  intros name info sub _ _. unfold subsample_file.
  destruct (String.eqb name "data") eqn:Hname.
  - exists (PATH +:+ "Data/" +:+ sub +:+ ".4lep.root"), 150000.
    split; [| split; reflexivity]. split; [| reflexivity].
    exists "Data/". split; reflexivity.
  - exists (PATH +:+ ("MC/mc_" +:+ "361106" +:+ ".") +:+ sub +:+ ".4lep.root"), 150000.
    split; [| split; reflexivity]. split; [| reflexivity].
    exists ("MC/mc_" +:+ "361106" +:+ "."). split; [| reflexivity].
    exists "361106". split; reflexivity.
Defined.

(** With five entries and a fraction of one tenth the product is the double
    [0.5], which rounds to the even [0]: no event is processed. With
    [2^53 + 1] entries and the whole sample the last entry is left out. *)
Example num_events_of_rounds_doubles :
  let tenth : float := S754_finite false 7205759403792794 (-56) in
  valid_binary prec emax tenth = true
  /\ num_events_of 5 tenth = Ok 0
  /\ num_events_of (2 ^ 53 + 1) float_one = Ok (2 ^ 53).
Proof. vm_compute. repeat split; reflexivity. Qed.

(** ** The reconciler *)

(** The dictionary comprehension of [missing_batches] files every batch
    under its own id, and its keys are the ids of the list. *)
Lemma expected_map_fold (expected : list DataBatch) :
  forall d : gmap string DataBatch,
    (forall k b, d !! k = Some b -> batch_id b = k) ->
    let d' := foldl (fun d batch => <[batch_id batch := batch]> d) d expected in
    (forall k b, d' !! k = Some b -> batch_id b = k)
    /\ dom d' = dom d ∪ ids expected.
Proof.
  induction expected as [|x xs IH]; intros d Hd; cbn.
  - split; [exact Hd |]. unfold ids. cbn. now rewrite (right_id_L ∅ (∪)).
  - destruct (IH (<[batch_id x := x]> d)) as [Hkeys Hdom].
    + intros k b. rewrite lookup_insert. case_decide; [| now apply Hd].
      intros [= <-]. assumption.
    + split; [exact Hkeys |]. rewrite Hdom, dom_insert_L.
      unfold ids. cbn. fold (ids xs).
      rewrite (comm_L (∪) {[batch_id x]} (dom d)).
      now rewrite (assoc_L (∪)).
Qed.

Lemma mapM_outcome_Forall2 {A B : Type} (f : A -> outcome B) (P : A -> B -> Prop)
    (xs : list A) :
  (forall x, x ∈ xs -> exists y, f x = Ok y /\ P x y) ->
  exists ys, mapM f xs = Ok ys /\ Forall2 P xs ys.
Proof.
  induction xs as [|x xs IH]; intros Hf.
  - exists []. split; [reflexivity | constructor].
  - destruct (Hf x) as (y & Hy & HP); [left |].
    destruct IH as (ys & Hys & HPs); [intros; apply Hf; now right |].
    exists (y :: ys). split; [| now constructor].
    cbn [mapM]. rewrite Hy. cbn. rewrite Hys. reflexivity.
Qed.

Lemma difference_empty_subseteq (X Y : gset string) : X ∖ Y = ∅ <-> X ⊆ Y.
Proof.
  split.
  - intros Hempty x Hx. destruct (decide (x ∈ Y)) as [? | Hn]; [assumption |].
    exfalso. apply (not_elem_of_empty (C := gset string) x).
    rewrite <- Hempty. apply elem_of_difference. now split.
  - intros Hsub. apply leibniz_equiv. intros x. split.
    + intros [Hx Hn]%elem_of_difference. now apply Hsub in Hx.
    + intros Hx. now apply not_elem_of_empty in Hx.
Qed.

Lemma ids_of_keys (keys : list string) (units : list DataBatch) :
  Forall2 (fun k b => batch_id b = k) keys units -> map batch_id units = keys.
Proof. induction 1; cbn; congruence. Qed.

(** C3, as the code has it. [missing_batches] never fails; it returns [None]
    exactly when every expected id is among the retrieved ids, that is when
    [ids E - ids R] is empty (ids that only [R] has do not matter); and when
    it returns a list, the ids of that list are exactly [ids E - ids R]. *)
Theorem missing_batches_reconciles (E R : list DataBatch) :
  (missing_batches E R = Ok None <-> ids E ⊆ ids R)
  /\ (exists result, missing_batches E R = Ok result
        /\ forall missing, result = Some missing ->
             ids missing = ids E ∖ ids R).
Proof.
  unfold missing_batches.
  destruct (expected_map_fold E ∅) as [Hkeys Hdom]; [intros k b; now rewrite lookup_empty |].
  cbn zeta in Hkeys, Hdom. rewrite dom_empty_L, (left_id_L ∅ (∪)) in Hdom.
  set (d := foldl _ ∅ E) in *. fold (ids R). rewrite Hdom.
  destruct (mapM_outcome_Forall2 (dict_getitem d)
              (fun k b => batch_id b = k) (elements (ids E ∖ ids R)))
    as (units & Hunits & Hall).
  { intros k Hk. apply elem_of_elements in Hk.
    assert (k ∈ dom d) as Hin by (rewrite Hdom; now apply elem_of_difference in Hk as [? _]).
    apply elem_of_dom in Hin as [b Hb]. exists b.
    unfold dict_getitem. rewrite Hb. split; [reflexivity | eauto]. }
  rewrite Hunits. cbn.
  destruct (Z.eqb_spec (Z.of_nat (size (ids E ∖ ids R))) 0) as [Hz | Hnz].
  - assert (ids E ∖ ids R = ∅) as Hempty by (apply leibniz_equiv, size_empty_inv; lia).
    split.
    + split; [intros _; now apply difference_empty_subseteq | reflexivity].
    + exists None. split; [reflexivity | discriminate].
  - split.
    + split; [discriminate |]. intros Hsub. exfalso. apply Hnz.
      apply difference_empty_subseteq in Hsub. rewrite Hsub. reflexivity.
    + exists (Some units). split; [reflexivity |].
      intros missing [= <-]. unfold ids at 1.
      rewrite (ids_of_keys _ _ Hall). apply list_to_set_elements_L.
Qed.

(** C3, as the spec words it, fails: a retrieved list that holds every
    expected id and one more gives [None], yet the two id sets differ. *)
Lemma missing_batches_none_despite_extra_id :
  let E := [plain_batch "a" "data"] in
  let R := [plain_batch "a" "data"; plain_batch "b" "data"] in
  ~ (missing_batches E R = Ok None <-> ids R = ids E).
Proof.
  intros E R [Hnone _].
  assert (ids R = ids E) as Heq by (apply Hnone; vm_compute; reflexivity).
  assert ("b" ∈ ids R) as Hb by (now apply elem_of_list_to_set; right; left).
  rewrite Heq in Hb. apply elem_of_list_to_set in Hb.
  apply list_elem_of_singleton in Hb. discriminate.
Qed.

(** ** The collector *)

Section CollectorFacts.

Variable pickle_loads : bytes -> outcome DataBatch.

(** A poll never fails and does not move the clock itself. *)
Lemma basic_get_Ok (queue_name : string) (auto_ack : bool) (w : World) :
  exists reply w',
    basic_get queue_name auto_ack w = (Ok reply, w') /\ clock w' = clock w.
Proof.
  unfold basic_get. destruct (default [] (queues w !! queue_name)) as [|m rest].
  - eauto.
  - destruct (available_at m <=? clock w); eauto.
Qed.

(** The time a round spends on its poll. *)
Lemma time_passes_run (ticks : nat) (w : World) :
  time_passes ticks w
  = (Ok tt,
     mkWorld (clock w + Z.of_nat ticks) (network w) (queues w) (unacked w)
             (next_tag w) (uuid_count w) (effects w)).
Proof. reflexivity. Qed.

Lemma total_lag_nonneg (k : nat) : forall lag : nat -> nat, 0 <= total_lag lag k.
Proof.
  induction k as [|k IH]; intros lag; cbn [total_lag]; [lia |].
  specialize (IH (fun i => lag (S i))). lia.
Qed.

(** A round that does not end the wait uses up one of the rounds that are
    left before the deadline. *)
Lemma rounds_left_step (T wait c c' : Z) (fuel : nat) :
  0 < wait -> c + wait <= c' -> c' - wait <= T ->
  Z.max 0 ((T - c) / wait + 1) + 1 <= Z.of_nat (S fuel) ->
  Z.max 0 ((T - c') / wait + 1) + 1 <= Z.of_nat fuel.
Proof.
  intros Hwait Hstep Hcheck Hfuel.
  assert ((T - c') / wait <= (T - c + (-1) * wait) / wait) as Hdiv
    by (apply Z.div_le_mono; lia).
  rewrite Z.div_add in Hdiv by lia.
  assert (0 <= (T - c) / wait) by (apply Z.div_pos; lia).
  lia.
Qed.

(** The accumulator never grows past [num_batches]: if it is within the
    bound when a round starts, what the loop returns is within it. *)
Lemma retrieve_loop_bounded (queue_name : string)
    (num_batches wait_time terminate_time start : Z) :
  forall (fuel : nat) (lag : nat -> nat) (batches : list DataBatch) (w : World)
         result w',
    len batches <= num_batches ->
    retrieve_loop pickle_loads fuel lag queue_name num_batches wait_time
                  terminate_time start batches w = (Ok result, w') ->
    len result <= num_batches.
Proof.
  induction fuel as [|fuel IH]; intros lag batches w result w' Hle Hrun;
    cbn [retrieve_loop] in Hrun;
    destruct (Z.eqb_spec (len batches) num_batches) as [Heq | Hne];
    cbn [negb] in Hrun;
    try (injection Hrun as <- _; exact Hle);
    try discriminate Hrun.
  apply bind_inv_Ok in Hrun as (? & w0 & _ & Hrun).
  apply bind_inv_Ok in Hrun as (response & w1 & _ & Hrun).
  apply bind_inv_Ok in Hrun as (next & w2 & Hnext & Hrun).
  apply bind_inv_Ok in Hrun as (now & w3 & _ & Hrun).
  assert (len next <= num_batches) as Hle'.
  { destruct response as [[tag payload] |].
    - apply bind_inv_Ok in Hnext as (batch & w4 & _ & Hnext).
      injection Hnext as <- _. unfold len in *. rewrite length_app. cbn. lia.
    - injection Hnext as <- _. exact Hle. }
  destruct (terminate_time <? now - start).
  - apply bind_inv_Ok in Hrun as (? & w4 & _ & Hrun).
    injection Hrun as <- _. exact Hle'.
  - apply bind_inv_Ok in Hrun as (? & w4 & _ & Hrun).
    now apply IH in Hrun.
Qed.

Lemma retrieve_batches_prelude (fuel : nat) (lag : nat -> nat)
    (connection : Connection) (queue_name : string)
    (num_batches wait_time terminate_time : Z) (w : World) :
  retrieve_batches pickle_loads fuel lag connection queue_name num_batches
                   wait_time terminate_time w
  = retrieve_loop pickle_loads fuel lag queue_name num_batches wait_time
                  terminate_time (clock w) [] (collector_ready queue_name w).
Proof. reflexivity. Qed.

Lemma queue_of_collector_ready (queue_name : string) (w : World) :
  queue_of queue_name (collector_ready queue_name w) = queue_of queue_name w.
Proof.
  unfold queue_of, collector_ready. cbn.
  destruct (queues w !! queue_name) as [msgs |] eqn:Hq.
  - now rewrite Hq.
  - now rewrite lookup_insert_eq.
Qed.

(** A poll that finds the head message arrived takes it off the queue. *)
Lemma basic_get_ready (queue_name : string) (w : World) (m : Msg) (rest : list Msg) :
  queue_of queue_name w = m :: rest ->
  available_at m <= clock w ->
  basic_get queue_name true w
  = (Ok (Some (next_tag w, body m)),
     mkWorld (clock w) (network w) (<[queue_name := rest]> (queues w))
             (unacked w) (next_tag w + 1) (uuid_count w)
             (effects w ++ [BasicGet queue_name true (Some (body m))])).
Proof.
  unfold queue_of, basic_get. intros -> Hm.
  destruct (Z.leb_spec (available_at m) (clock w)); [reflexivity | lia].
Qed.

(** A poll of a queue that cannot hand out anything changes nothing but
    the record of effects. *)
Lemma basic_get_silent (queue_name : string) (w : World) (t : Z) :
  silent_until t queue_name w ->
  clock w <= t ->
  basic_get queue_name true w
  = (Ok None,
     mkWorld (clock w) (network w) (queues w) (unacked w) (next_tag w)
             (uuid_count w) (effects w ++ [BasicGet queue_name true None])).
Proof.
  unfold silent_until, queue_of, basic_get. intros Hs Ht.
  destruct (default [] (queues w !! queue_name)) as [|m rest]; [reflexivity |].
  destruct (Z.leb_spec (available_at m) (clock w)); [lia | reflexivity].
Qed.

(** The loop on a queue whose messages arrive in time for the polls. *)
Lemma retrieve_loop_ready (queue_name : string)
    (num_batches wait_time terminate_time start : Z) (Hwait : 0 <= wait_time) :
  forall (ready : list Msg) (units : list DataBatch) (fuel : nat)
         (lag : nat -> nat) (batches : list DataBatch) (w : World)
         (rest : list Msg),
    ready_for pickle_loads lag (clock w) wait_time ready units ->
    queue_of queue_name w = ready ++ rest ->
    num_batches = len batches + len ready ->
    (ready <> [] ->
     clock w + (len ready - 1) * wait_time + total_lag lag (length ready) - start
       <= terminate_time) ->
    (length ready <= fuel)%nat ->
    exists w',
      retrieve_loop pickle_loads fuel lag queue_name num_batches wait_time
                    terminate_time start batches w = (Ok (batches ++ units), w')
      /\ clock w' = clock w + len ready * wait_time + total_lag lag (length ready)
      /\ effects w' = effects w
                      ++ poll_trace queue_name lag (clock w) wait_time ready
                      ++ [ChannelClose]
      /\ queue_of queue_name w' = rest.
Proof.
  induction ready as [|m ready IH];
    intros units fuel lag batches w rest Hready Hqueue Hnum Hdeadline Hfuel;
    destruct units as [|u units]; cbn [ready_for] in Hready; try contradiction.
  - exists (mkWorld (clock w) (network w) (queues w) (unacked w) (next_tag w)
                    (uuid_count w) (effects w ++ [ChannelClose])).
    unfold len in *. cbn [length] in Hnum.
    assert ((len batches =? num_batches) = true) as Hexit
      by (apply Z.eqb_eq; unfold len; lia).
    rewrite app_nil_r.
    split; [destruct fuel; cbn [retrieve_loop]; rewrite Hexit; reflexivity |].
    cbn. split; [lia |]. split; [reflexivity | exact Hqueue].
  - destruct Hready as (Harrived & Hloads & Hready).
    destruct fuel as [|fuel]; [cbn in Hfuel; lia |].
    unfold len in *. cbn [length total_lag] in Hnum, Hdeadline, Hfuel.
    pose proof (total_lag_nonneg (length ready) (fun i => lag (S i))) as Hlag.
    set (t := clock w + Z.of_nat (lag 0%nat)) in *.
    assert ((len batches =? num_batches) = false) as Hgo
      by (apply Z.eqb_neq; unfold len; lia).
    assert ((terminate_time <? t - start) = false) as Hcheck.
    { apply Z.ltb_ge. specialize (Hdeadline ltac:(discriminate)). nia. }
    assert ((wait_time <? 0) = false) as Hsleep by (apply Z.ltb_ge; lia).
    set (w0 := mkWorld t (network w) (queues w) (unacked w) (next_tag w)
                 (uuid_count w) (effects w)).
    set (w4 := mkWorld (t + wait_time) (network w)
                 (<[queue_name := ready ++ rest]> (queues w))
                 (unacked w) (next_tag w + 1) (uuid_count w)
                 (((effects w ++ [BasicGet queue_name true (Some (body m))])
                     ++ [TimeRead t]) ++ [Sleep wait_time])).
    destruct (IH units fuel (fun i => lag (S i)) (batches ++ [u]) w4 rest)
      as (w' & Hrun & Hclock & Heff & Hq).
    + exact Hready.
    + unfold queue_of, w4. cbn. now rewrite lookup_insert_eq.
    + rewrite length_app. cbn. lia.
    + intros Hne. unfold w4. cbn [clock].
      specialize (Hdeadline ltac:(discriminate)). lia.
    + lia.
    + exists w'. split; [| split; [| split]].
      * cbn [retrieve_loop]. rewrite Hgo. cbn [negb].
        rewrite (bind_Ok _ _ w w0 tt) by reflexivity.
        rewrite (bind_Ok _ _ _ _ _ (basic_get_ready queue_name w0 m (ready ++ rest)
                                       Hqueue Harrived)).
        unfold lift at 1. rewrite Hloads.
        unfold mbind, M_bind, mret, M_ret, time_time, time_sleep.
        cbn -[retrieve_loop Z.sub Z.add Z.ltb]. rewrite Hcheck, Hsleep.
        cbn [clock network queues unacked next_tag uuid_count effects].
        fold w4. rewrite Hrun. now rewrite <- app_assoc.
      * rewrite Hclock. unfold w4. cbn [clock length total_lag]. lia.
      * rewrite Heff. unfold w4. cbn [effects poll_trace clock]. fold t.
        now rewrite <- !app_assoc.
      * exact Hq.
Qed.

(** The loop on a queue that stays silent until the deadline has passed:
    it polls every [wait_time] ticks and gives up at the first poll answered
    later than [terminate_time] after [start]. No poll takes more than
    [late] ticks. *)
Lemma retrieve_loop_silent (queue_name : string)
    (num_batches wait_time terminate_time start : Z) (late : nat)
    (Hwait : 0 < wait_time) (Hnum : num_batches <> 0) :
  forall (fuel : nat) (lag : nat -> nat) (w : World),
    (forall i, (lag i <= late)%nat) ->
    silent_until (start + terminate_time + wait_time + Z.of_nat late) queue_name w ->
    clock w - start <= terminate_time + wait_time ->
    Z.max 0 ((terminate_time - (clock w - start)) / wait_time + 1) + 1
      <= Z.of_nat fuel ->
    exists w',
      retrieve_loop pickle_loads fuel lag queue_name num_batches wait_time
                    terminate_time start [] w = (Ok [], w')
      /\ terminate_time < clock w' - start
      /\ clock w' - start <= terminate_time + wait_time + Z.of_nat late.
Proof.
  induction fuel as [|fuel IH]; intros lag w Hlate Hsilent Hstart Hfuel; [lia |].
  assert ((len (@nil DataBatch) =? num_batches) = false) as Hgo
    by (apply Z.eqb_neq; unfold len; cbn; lia).
  assert ((wait_time <? 0) = false) as Hsleep by (apply Z.ltb_ge; lia).
  pose proof (Hlate 0%nat) as Hlag.
  set (w0 := mkWorld (clock w + Z.of_nat (lag 0%nat)) (network w) (queues w)
               (unacked w) (next_tag w) (uuid_count w) (effects w)).
  cbn [retrieve_loop]. rewrite Hgo. cbn [negb].
  rewrite (bind_Ok _ _ w w0 tt) by reflexivity.
  rewrite (bind_Ok _ _ _ _ _
             (basic_get_silent queue_name w0 _ Hsilent ltac:(cbn [clock w0]; lia))).
  unfold mbind, M_bind, mret, M_ret, time_time, time_sleep, channel_close, emit.
  cbn -[retrieve_loop Z.sub Z.add Z.ltb].
  destruct (Z.ltb_spec terminate_time (clock w + Z.of_nat (lag 0%nat) - start))
    as [Hover | Hnot].
  - eexists. split; [reflexivity |]. cbn [clock]. lia.
  - rewrite Hsleep. cbn [clock network queues unacked next_tag uuid_count effects].
    apply IH.
    + intros i. apply Hlate.
    + exact Hsilent.
    + cbn [clock]. lia.
    + cbn [clock].
      apply (rounds_left_step terminate_time wait_time (clock w - start)); [lia .. |].
      exact Hfuel.
Qed.

(** With a positive interval between polls the loop comes to an end,
    whatever the queue holds and however long the polls take: a number of
    rounds proportional to [terminate_time / wait_time] is fuel enough. *)
Lemma retrieve_loop_terminates (queue_name : string)
    (num_batches wait_time terminate_time start : Z) (Hwait : 0 < wait_time)
    (Hloads : forall payload, pickle_loads payload <> OutOfFuel) :
  forall (fuel : nat) (lag : nat -> nat) (batches : list DataBatch) (w : World),
    Z.max 0 ((terminate_time - (clock w - start)) / wait_time + 1) + 1
      <= Z.of_nat fuel ->
    fst (retrieve_loop pickle_loads fuel lag queue_name num_batches wait_time
                       terminate_time start batches w) <> OutOfFuel.
Proof.
  induction fuel as [|fuel IH]; intros lag batches w Hfuel; [lia |].
  cbn [retrieve_loop].
  destruct (negb (len batches =? num_batches)); [| discriminate].
  rewrite (bind_Ok _ _ _ _ _ (time_passes_run (lag 0%nat) w)).
  set (w0 := mkWorld (clock w + Z.of_nat (lag 0%nat)) (network w) (queues w)
               (unacked w) (next_tag w) (uuid_count w) (effects w)).
  destruct (basic_get_Ok queue_name true w0) as (reply & w1 & Hget & Hclock).
  rewrite (bind_Ok _ _ _ _ _ Hget).
  assert (forall next : list DataBatch,
            fst ((time_time ≫= fun now =>
                  if terminate_time <? now - start
                  then channel_close;; mret next
                  else time_sleep wait_time;;
                       retrieve_loop pickle_loads fuel (fun i => lag (S i))
                                     queue_name num_batches
                                     wait_time terminate_time start next) w1)
            <> OutOfFuel) as Hrest.
  { intros next.
    unfold mbind, M_bind, mret, M_ret, time_time, time_sleep, channel_close, emit.
    cbn -[retrieve_loop Z.sub Z.add Z.ltb]. rewrite Hclock. cbn [clock w0].
    destruct (Z.ltb_spec terminate_time (clock w + Z.of_nat (lag 0%nat) - start))
      as [Hover | Hnot]; [discriminate |].
    destruct (Z.ltb_spec wait_time 0) as [? | _]; [lia |].
    cbn [clock network queues unacked next_tag uuid_count effects].
    apply IH. cbn [clock].
    apply (rounds_left_step terminate_time wait_time (clock w - start)); [lia .. |].
    exact Hfuel. }
  destruct reply as [[tag payload] |].
  - unfold lift at 1. specialize (Hloads payload).
    destruct (pickle_loads payload) as [batch | e |] eqn:Hp; try contradiction.
    + specialize (Hrest (batches ++ [batch])).
      unfold mbind, M_bind, mret, M_ret in *. exact Hrest.
    + unfold mbind, M_bind. discriminate.
  - specialize (Hrest batches). unfold mbind, M_bind, mret, M_ret in *. exact Hrest.
Qed.

End CollectorFacts.

Lemma ready_for_length (pickle_loads : bytes -> outcome DataBatch) (wait : Z) :
  forall (msgs : list Msg) (units : list DataBatch) (lag : nat -> nat) (t : Z),
    ready_for pickle_loads lag t wait msgs units -> length msgs = length units.
Proof.
  induction msgs as [|m msgs IH]; intros [|u units] lag t H; cbn in *;
    try contradiction; [reflexivity |].
  destruct H as (_ & _ & H). f_equal. eauto.
Qed.

(** C9. With [num_batches = 0] the collector returns the empty list at once,
    whatever the fuel, the interval, the deadline and the time polls would
    take: the clock has not moved, the queue is untouched, and between
    opening and closing the channel there is neither a poll nor a sleep. *)
Theorem retrieve_batches_zero_expected
    (pickle_loads : bytes -> outcome DataBatch) (fuel : nat) (lag : nat -> nat)
    (connection : Connection) (queue_name : string)
    (wait_time terminate_time : Z) (w : World) :
  exists w',
    retrieve_batches pickle_loads fuel lag connection queue_name 0
                     wait_time terminate_time w = (Ok [], w')
    /\ clock w' = clock w
    /\ queue_of queue_name w' = queue_of queue_name w
    /\ effects w' = effects w ++ [TimeRead (clock w); ChannelOpen;
                                 QueueDeclare queue_name; ChannelClose].
Proof.
  rewrite retrieve_batches_prelude.
  eexists. split; [destruct fuel; reflexivity |].
  split; [reflexivity |]. split.
  - apply queue_of_collector_ready.
  - cbn. now rewrite <- !app_assoc.
Qed.

(** C10. Whatever the results queue holds, however long the polls take and
    however long the collector runs, the list it returns has at most
    [num_batches] units. *)
Theorem retrieve_batches_at_most_expected
    (pickle_loads : bytes -> outcome DataBatch) (fuel : nat) (lag : nat -> nat)
    (connection : Connection) (queue_name : string)
    (num_batches wait_time terminate_time : Z) (w w' : World)
    (result : list DataBatch) :
  0 <= num_batches ->
  retrieve_batches pickle_loads fuel lag connection queue_name num_batches
                   wait_time terminate_time w = (Ok result, w') ->
  len result <= num_batches.
Proof.
  intros Hnum Hrun. rewrite retrieve_batches_prelude in Hrun.
  now apply retrieve_loop_bounded in Hrun.
Qed.

(** Witness of C10: three results wait in the queue, two are expected. *)
Lemma retrieve_batches_at_most_expected_witness :
  let w := world_with_results [msg_at 0 "a"; msg_at 0 "b"; msg_at 0 "c"] in
  let result := [plain_batch "a" "data"; plain_batch "b" "data"] in
  fst (retrieve_batches id_loads 5 on_time BlockingConnection RESULTS_QUEUE
                        2 1 240 w)
    = Ok result
  /\ len result <= 2.
Proof.
  intros w result. split; [vm_compute; reflexivity |].
  apply (retrieve_batches_at_most_expected id_loads 5 on_time BlockingConnection
           RESULTS_QUEUE 2 1 240 w
           (snd (retrieve_batches id_loads 5 on_time BlockingConnection
                                  RESULTS_QUEUE 2 1 240 w)) result);
    [lia | vm_compute; reflexivity].
Defined.

(** C4, as the code has it. The collector polls at intervals: after every
    poll, with or without a message, it reads the clock, compares the elapsed
    time with the deadline and, if the deadline has not passed, sleeps
    [wait_time]. The poll of the [i]-th round takes [lag i] ticks. So
    (1) if the [i]-th of [k] messages is in the queue when the [i]-th poll is
    answered, and the [k - 1] sleeps between the polls and the [k] polls
    together take less than [terminate_time], it returns all [k] units in
    order, having slept after each message: it returns [k * wait_time] and
    the time of the polls after its start; and
    (2) if no poll takes more than [late] ticks, no message can be had until
    the deadline, one more interval and one more poll have passed, and at
    least one unit is expected, it returns the empty list later than
    [terminate_time] and at most [terminate_time + wait_time + late] after
    its start. *)
Theorem retrieve_batches_polls_at_intervals
    (pickle_loads : bytes -> outcome DataBatch) (connection : Connection)
    (queue_name : string) (wait_time terminate_time : Z) (lag : nat -> nat)
    (w : World) :
  (forall (ready rest : list Msg) (units : list DataBatch) (fuel : nat),
      0 <= wait_time ->
      queue_of queue_name w = ready ++ rest ->
      ready_for pickle_loads lag (clock w) wait_time ready units ->
      (units <> [] ->
       (len units - 1) * wait_time + total_lag lag (length units)
         < terminate_time) ->
      (length units <= fuel)%nat ->
      exists w',
        retrieve_batches pickle_loads fuel lag connection queue_name (len units)
                         wait_time terminate_time w = (Ok units, w')
        /\ clock w' = clock w + len units * wait_time
                      + total_lag lag (length units)
        /\ effects w' = effects w
                        ++ [TimeRead (clock w); ChannelOpen; QueueDeclare queue_name]
                        ++ poll_trace queue_name lag (clock w) wait_time ready
                        ++ [ChannelClose])
  /\ (forall (num_batches : Z) (fuel late : nat),
        0 < wait_time -> 0 <= terminate_time -> num_batches <> 0 ->
        (forall i, (lag i <= late)%nat) ->
        silent_until (clock w + terminate_time + wait_time + Z.of_nat late)
                     queue_name w ->
        terminate_time / wait_time + 2 <= Z.of_nat fuel ->
        exists w',
          retrieve_batches pickle_loads fuel lag connection queue_name num_batches
                           wait_time terminate_time w = (Ok [], w')
          /\ terminate_time < clock w' - clock w
          /\ clock w' - clock w <= terminate_time + wait_time + Z.of_nat late).
Proof.
  split.
  - intros ready rest units fuel Hwait Hqueue Hready Hdeadline Hfuel.
    pose proof (ready_for_length _ _ _ _ _ _ Hready) as Hlen.
    rewrite retrieve_batches_prelude.
    destruct (retrieve_loop_ready pickle_loads queue_name (len units) wait_time
                terminate_time (clock w) Hwait ready units fuel lag []
                (collector_ready queue_name w) rest)
      as (w' & Hrun & Hclock & Heff & _).
    + exact Hready.
    + now rewrite queue_of_collector_ready.
    + unfold len. cbn. lia.
    + intros Hne. cbn [clock collector_ready]. unfold len in *.
      rewrite Hlen. assert (units <> []) as Hunits.
      { intros ->. destruct ready; [contradiction | discriminate]. }
      specialize (Hdeadline Hunits). lia.
    + lia.
    + exists w'. split; [exact Hrun |]. split.
      * rewrite Hclock. cbn [clock collector_ready]. unfold len.
        rewrite Hlen. lia.
      * rewrite Heff. cbn [effects clock collector_ready].
        now rewrite <- !app_assoc.
  - intros num_batches fuel late Hwait Hterm Hnum Hlate Hsilent Hfuel.
    rewrite retrieve_batches_prelude.
    destruct (retrieve_loop_silent pickle_loads queue_name num_batches wait_time
                terminate_time (clock w) late Hwait Hnum fuel lag
                (collector_ready queue_name w))
      as (w' & Hrun & Hlow & Hhigh).
    + exact Hlate.
    + unfold silent_until. now rewrite queue_of_collector_ready.
    + cbn [clock collector_ready]. lia.
    + cbn [clock collector_ready].
      replace (terminate_time - (clock w - clock w)) with terminate_time by lia.
      assert (0 <= terminate_time / wait_time) by (apply Z.div_pos; lia). lia.
    + exists w'. split; [exact Hrun |]. lia.
Qed.

(** Witness of C4, on a clock that ticks every millisecond and with polls
    that take two of them: two results are in the queue from the start and
    two are expected; and an empty queue with a deadline of three seconds. *)
Lemma retrieve_batches_polls_at_intervals_witness :
  (let w := world_with_results [msg_at 0 "a"; msg_at 0 "b"] in
   let units := [plain_batch "a" "data"; plain_batch "b" "data"] in
   let lag := fun _ : nat => 2%nat in
   exists w',
     retrieve_batches id_loads 2 lag BlockingConnection RESULTS_QUEUE (len units)
                      1000 240000 w = (Ok units, w')
     /\ clock w' = clock w + len units * 1000 + total_lag lag (length units)
     /\ effects w' = effects w
                     ++ [TimeRead (clock w); ChannelOpen; QueueDeclare RESULTS_QUEUE]
                     ++ poll_trace RESULTS_QUEUE lag (clock w) 1000
                                   [msg_at 0 "a"; msg_at 0 "b"]
                     ++ [ChannelClose])
  /\ (let w := world_with_results [] in
      let lag := fun _ : nat => 2%nat in
      exists w',
        retrieve_batches id_loads 5 lag BlockingConnection RESULTS_QUEUE 1
                         1000 3000 w
          = (Ok [], w')
        /\ 3000 < clock w' - clock w
        /\ clock w' - clock w <= 3000 + 1000 + Z.of_nat 2).
Proof.
  split.
  - intros w units lag.
    apply (proj1 (retrieve_batches_polls_at_intervals id_loads BlockingConnection
                    RESULTS_QUEUE 1000 240000 lag w)
             [msg_at 0 "a"; msg_at 0 "b"] [] units 2%nat);
      [lia | reflexivity | | intros _; vm_compute; reflexivity | cbn; lia].
    cbn. repeat split; lia.
  - intros w lag.
    apply (proj2 (retrieve_batches_polls_at_intervals id_loads BlockingConnection
                    RESULTS_QUEUE 1000 3000 lag w) 1 5%nat 2%nat);
      [lia | lia | lia | intros i; unfold lag; lia | exact I | vm_compute; discriminate].
Defined.

(** C4, as the spec words it, fails. The clock ticks every millisecond and
    a poll takes one tick. Four results are in the queue from the start,
    four are expected, polls are two seconds apart and the deadline is three
    seconds: every message is there before the deadline, yet the collector
    sleeps after each poll that brought a message, returns only three of the
    four, and returns more than four seconds after its start. *)
Lemma retrieve_batches_sleeps_after_messages :
  let w := world_with_results
             [msg_at 0 "a"; msg_at 0 "b"; msg_at 0 "c"; msg_at 0 "d"] in
  Forall (fun m => available_at m < clock w + 3000) (queue_of RESULTS_QUEUE w)
  /\ exists w',
       retrieve_batches id_loads 10 (fun _ => 1%nat) BlockingConnection
                        RESULTS_QUEUE 4 2000 3000 w
         = (Ok [plain_batch "a" "data"; plain_batch "b" "data"; plain_batch "c" "data"],
            w')
       /\ clock w' - clock w = 4003
       /\ effects w' =
            [ TimeRead 0; ChannelOpen; QueueDeclare RESULTS_QUEUE;
              BasicGet RESULTS_QUEUE true (Some (body (msg_at 0 "a")));
              TimeRead 1; Sleep 2000;
              BasicGet RESULTS_QUEUE true (Some (body (msg_at 0 "b")));
              TimeRead 2002; Sleep 2000;
              BasicGet RESULTS_QUEUE true (Some (body (msg_at 0 "c")));
              TimeRead 4003; ChannelClose ].
Proof.
  intros w. split.
  - repeat constructor.
  - eexists. split; [vm_compute; reflexivity |]. split; reflexivity.
Qed.

(** ** The coordinator's policy *)

Lemma print_run (line : string) (w : World) :
  print line w = (Ok tt, and_then w (Print line)).
Proof. reflexivity. Qed.

(** C2. When some batches are missing but no more than half of the
    dispatched ones, lines 69-79 print the first warning and then fail: the
    loop of line 75 walks over the function [missing_batches], not over the
    list of missing batches, which is a [TypeError]. No batch is printed, the
    second warning is not printed, and aggregation is not reached. *)
Theorem report_missing_raises_TypeError
    (plot_data : gmap string (list Event) -> string -> M unit)
    (batches processed_batches missing : list DataBatch) (w : World) :
  missing_batches batches processed_batches = Ok (Some missing) ->
  len missing <= len batches / 2 ->
  (report_missing batches processed_batches;;
   aggregate_and_plot plot_data processed_batches) w
  = (Raise (PyError "TypeError" "'function' object is not iterable"),
     and_then w (Print "warning: missing the following batches of data")).
Proof.
  intros Hmissing Hhalf.
  apply bind_Raise. unfold report_missing.
  rewrite (bind_Ok _ _ w w (Some missing)) by (unfold lift; now rewrite Hmissing).
  destruct (Z.ltb_spec (len batches / 2) (len missing)) as [? | _]; [lia |].
  reflexivity.
Qed.

(** Witness of C2: two batches dispatched, one of them retrieved. *)
Lemma report_missing_raises_TypeError_witness :
  let a := plain_batch "a" "data" in
  let b := plain_batch "b" "data" in
  (report_missing [a; b] [a];; aggregate_and_plot save_only [a]) (fresh_world [])
  = (Raise (PyError "TypeError" "'function' object is not iterable"),
     and_then (fresh_world [])
              (Print "warning: missing the following batches of data")).
Proof.
  intros a b.
  apply (report_missing_raises_TypeError save_only [a; b] [a] [b] (fresh_world []));
    [vm_compute; reflexivity | vm_compute; discriminate].
Defined.

(** ** The aggregator *)

Lemma ak_concatenate_outcome (arrays : list (option (list Event))) :
  (exists data, ak_concatenate arrays = Ok data)
  \/ (exists cls msg, ak_concatenate arrays = Raise (PyError cls msg)).
Proof.
  unfold ak_concatenate. destruct (existsb _ arrays); [right; eauto |].
  destruct arrays; [right | left]; eauto.
Qed.

Lemma filter_sample_none (batches : list DataBatch) (name : string) :
  (forall b, b ∈ batches -> sample b <> name) ->
  filter (fun batch => sample batch = name) batches = [].
Proof.
  induction batches as [|x xs IH]; intros Hnone; [reflexivity |].
  rewrite filter_cons_False by (apply Hnone; left).
  apply IH. intros b Hb. apply Hnone. now right.
Qed.

(** A sample none of whose batches was retrieved makes the loop of
    [group_batches] fail, whatever it has grouped before. *)
Lemma group_batches_loop_raises (batches : list DataBatch) (name : string) :
  (forall b, b ∈ batches -> sample b <> name) ->
  forall (names : list string) (samples_data : gmap string (list Event)),
    name ∈ names ->
    exists cls msg,
      group_batches_loop batches names samples_data = Raise (PyError cls msg).
Proof.
  intros Hnone. induction names as [|n names IH]; intros samples_data Hin.
  - now apply elem_of_nil in Hin.
  - cbn [group_batches_loop]. apply elem_of_cons in Hin as [<- | Hin].
    + rewrite filter_sample_none by assumption. cbn. eauto.
    + destruct (ak_concatenate_outcome
                  (map processed_data
                       (filter (fun batch => sample batch = n) batches)))
        as [[data ->] | (cls & msg & ->)]; cbn; eauto.
Qed.

(** C5, first part. When no retrieved batch belongs to one of the samples,
    aggregation does not reach the check of line 87: [ak.concatenate] of
    [group_batches] is given no array and raises, so the run ends on an
    uncaught exception and the line ["error: no data for sample - ..."] is
    never printed (nothing at all is printed). *)
Theorem aggregate_raises_without_batches_of_a_sample
    (plot_data : gmap string (list Event) -> string -> M unit)
    (processed_batches : list DataBatch) (name : string) (w : World) :
  name ∈ map fst SAMPLES ->
  (forall b, b ∈ processed_batches -> sample b <> name) ->
  exists cls msg,
    aggregate_and_plot plot_data processed_batches w = (Raise (PyError cls msg), w).
Proof.
  intros Hname Hnone.
  destruct (group_batches_loop_raises processed_batches name Hnone
              (map fst SAMPLES) ∅ Hname) as (cls & msg & Hraise).
  exists cls, msg. unfold aggregate_and_plot. apply bind_Raise.
  unfold lift, group_batches. now rewrite Hraise.
Qed.

(** Witness of C5: one processed batch of the sample "data" and none of the
    sample of the ZZ* background. *)
Lemma aggregate_raises_without_batches_of_a_sample_witness :
  let a := set_processed_data (plain_batch "a" "data") [mkEvent 125 None] in
  exists cls msg,
    aggregate_and_plot save_only [a] (fresh_world [])
    = (Raise (PyError cls msg), fresh_world []).
Proof.
  intros a.
  apply (aggregate_raises_without_batches_of_a_sample save_only [a]
           "Background $ZZ^*$" (fresh_world [])).
  - do 2 right. left.
  - intros b Hb. apply list_elem_of_singleton in Hb. subst b. discriminate.
Defined.

(** The exception of that run is the [ValueError] of [ak.concatenate]. *)
Example aggregate_without_background_batches :
  let a := set_processed_data (plain_batch "a" "data") [mkEvent 125 None] in
  aggregate_and_plot save_only [a] (fresh_world [])
  = (Raise (PyError "ValueError" "need at least one array to concatenate"),
     fresh_world []).
Proof. vm_compute. reflexivity. Qed.

(** C5, the thresholds of lines 84-93 on a sample that was grouped: an
    array of no event ends the run with the error line and status 1, one of
    1 to 49 events gives the warning line and the run goes on, one of 50 or
    more gives nothing. *)
Lemma check_samples_thresholds (samples_data : gmap string (list Event))
    (name : string) (info : SampleInfo) (data : list Event) (w : World) :
  samples_data !! name = Some data ->
  check_samples samples_data [(name, info)] w
  = if len data =? 0
    then (Raise (SystemExit 1),
          and_then w (Print ("error: no data for sample - " +:+ name)))
    else if len data <? 50
    then (Ok tt,
          and_then w (Print ("warning: less than 50 events for sample - " +:+ name)))
    else (Ok tt, w).
Proof.
  intros Hdata. unfold check_samples. cbn [map fst for_each].
  unfold dict_getitem, lift. rewrite Hdata.
  unfold mbind, M_bind at 1 2. cbn beta iota.
  destruct (len data =? 0); [reflexivity |].
  destruct (len data <? 50); reflexivity.
Qed.

(** What lines 54-57 do with a list of results that is not empty: nothing. *)
Lemma check_retrieved_passes (processed_batches : list DataBatch) (w : World) :
  processed_batches <> [] ->
  check_retrieved processed_batches w = (Ok tt, w).
Proof.
  intros Hne. unfold check_retrieved.
  destruct processed_batches as [|b rest]; [contradiction | reflexivity].
Qed.

(** C6, as the code has it. A run of [main] leaves through [sys.exit(1)] on
    each of its failure paths, after its own error line: (1) when the
    connection cannot be opened; (2) when the connection is open, the job
    was cut into batches and sent, and the collector brought back an empty
    list; (3) when it brought back a list that is not empty and more than
    half of the batches sent are missing from it. The exit status is 1 on
    all three. (4) A run that returns from [main] has printed the success
    line last, and its status is 0. *)
Theorem coordinator_exit_statuses
    (uuid4 : nat -> string) (infofile_DSID : string -> outcome string)
    (tree_num_entries : string -> outcome Z)
    (pickle_dumps : DataBatch -> bytes) (pickle_loads : bytes -> outcome DataBatch)
    (plot_data : gmap string (list Event) -> string -> M unit)
    (fuel : nat) (lag : nat -> nat) (w : World) :
  let run := main uuid4 infofile_DSID tree_num_entries pickle_dumps pickle_loads
                  plot_data fuel lag w in
  (forall w1 : World,
      open_connection RABBITMQ_SERVER 6 5 w = (Ok None, w1) ->
      run = (Raise (SystemExit 1),
             and_then w1 (Print "error: RabbitMQ connection failed"))
      /\ exit_status (fst run) = Some 1)
  /\ (forall (connection : Connection) (batches processed : list DataBatch)
             (w1 w2 w3 w4 : World),
        open_connection RABBITMQ_SERVER 6 5 w = (Ok (Some connection), w1) ->
        data_batcher uuid4 infofile_DSID tree_num_entries
                     SAMPLES PATH FRACTION BATCH_SIZE w1 = (Ok batches, w2) ->
        send_data pickle_dumps batches connection TASKS_QUEUE
                  (and_then w2 (Print ("status: number of batches - "
                                       +:+ pretty (len batches))))
          = (Ok tt, w3) ->
        retrieve_batches pickle_loads fuel lag connection RESULTS_QUEUE
                         (len batches) 1 240 w3 = (Ok processed, w4) ->
        (processed = [] ->
         run = (Raise (SystemExit 1),
                and_then (and_then w4 ConnectionClose)
                         (Print "error: failed to retrieve processed data"))
         /\ exit_status (fst run) = Some 1)
        /\ (forall missing : list DataBatch,
              processed <> [] ->
              missing_batches batches processed = Ok (Some missing) ->
              len batches / 2 < len missing ->
              run = (Raise (SystemExit 1),
                     and_then (and_then w4 ConnectionClose)
                              (Print "error: missing more than 50% of the expected data"))
              /\ exit_status (fst run) = Some 1))
  /\ (forall w' : World,
        run = (Ok tt, w') ->
        (exists w0, w' = and_then w0 (Print "success: figure created"))
        /\ exit_status (fst run) = Some 0).
Proof.
  intros run. split; [| split].
  - intros w1 Hconn.
    assert (run = (Raise (SystemExit 1),
                   and_then w1 (Print "error: RabbitMQ connection failed"))) as ->
      by (unfold run, main; now rewrite (bind_Ok _ _ _ _ _ Hconn)).
    split; reflexivity.
  - intros connection batches processed w1 w2 w3 w4 Hconn Hbatches Hsent Hback.
    assert (run
            = (check_retrieved processed;;
               report_missing batches processed;;
               aggregate_and_plot plot_data processed)
                (and_then w4 ConnectionClose)) as Hrun.
    { unfold run, main. rewrite (bind_Ok _ _ _ _ _ Hconn). unfold run_job.
      rewrite (bind_Ok _ _ _ _ _ Hbatches).
      rewrite (bind_Ok _ _ _ _ _ (print_run _ w2)).
      rewrite (bind_Ok _ _ _ _ _ Hsent).
      rewrite (bind_Ok _ _ _ _ _ Hback).
      now rewrite (bind_Ok _ _ w4 (and_then w4 ConnectionClose) tt) by reflexivity. }
    split.
    + intros ->.
      assert (run = (Raise (SystemExit 1),
                     and_then (and_then w4 ConnectionClose)
                              (Print "error: failed to retrieve processed data")))
        as Hexit by (rewrite Hrun; apply bind_Raise; reflexivity).
      rewrite Hexit. split; reflexivity.
    + intros missing Hsome Hmissing Hmany.
      assert (run = (Raise (SystemExit 1),
                     and_then (and_then w4 ConnectionClose)
                              (Print "error: missing more than 50% of the expected data")))
        as Hexit.
      { rewrite Hrun.
        rewrite (bind_Ok _ _ _ _ _ (check_retrieved_passes processed _ Hsome)).
        apply bind_Raise. unfold report_missing.
        rewrite (bind_Ok _ _ _ (and_then w4 ConnectionClose) (Some missing))
          by (unfold lift; now rewrite Hmissing).
        destruct (Z.ltb_spec (len batches / 2) (len missing)) as [_ | ?]; [| lia].
        reflexivity. }
      rewrite Hexit. split; reflexivity.
  - intros w' Hrun. rewrite Hrun. split; [| reflexivity].
    unfold run, main in Hrun.
    apply bind_inv_Ok in Hrun as ([connection |] & w1 & _ & Hrun).
    + unfold run_job in Hrun.
      repeat (apply bind_inv_Ok in Hrun as (? & ? & _ & Hrun)).
      rewrite print_run in Hrun. eexists. now injection Hrun as <-.
    + apply bind_inv_Ok in Hrun as (? & w2 & _ & Hrun). discriminate Hrun.
Qed.

(** Witness of C6: a server that never answers; a run in which no result
    comes back before the deadline; a run in which five of the 24 results
    come back; and a run in which every result is there. *)
Lemma coordinator_exit_statuses_witness :
  let job := processed_job any_num_entries in
  let coordinator := main nth_id any_DSID any_num_entries id_dumps in
  let no_server := coordinator id_loads save_only 0%nat on_time (fresh_world []) in
  let no_result :=
    coordinator id_loads save_only 300%nat on_time (fresh_world [true]) in
  let few_results :=
    coordinator (table_loads job) save_only 300%nat on_time
                (world_with_done (take 5 job)) in
  let all_results :=
    coordinator (table_loads job) save_only 30%nat on_time (world_with_done job) in
  (no_server
   = (Raise (SystemExit 1),
      and_then (snd (open_connection RABBITMQ_SERVER 6 5 (fresh_world [])))
               (Print "error: RabbitMQ connection failed"))
   /\ exit_status (fst no_server) = Some 1)
  /\ (exists w4,
        no_result
        = (Raise (SystemExit 1),
           and_then (and_then w4 ConnectionClose)
                    (Print "error: failed to retrieve processed data"))
        /\ exit_status (fst no_result) = Some 1)
  /\ (exists w4,
        few_results
        = (Raise (SystemExit 1),
           and_then (and_then w4 ConnectionClose)
                    (Print "error: missing more than 50% of the expected data"))
        /\ exit_status (fst few_results) = Some 1)
  /\ ((exists w0, snd all_results = and_then w0 (Print "success: figure created"))
      /\ exit_status (fst all_results) = Some 0).
Proof.
  cbv zeta.
  split; [| split; [| split]].
  - apply (proj1 (coordinator_exit_statuses nth_id any_DSID any_num_entries
                    id_dumps id_loads save_only 0%nat on_time (fresh_world []))).
    vm_compute. reflexivity.
  - pose proof (proj1 (proj2 (coordinator_exit_statuses nth_id any_DSID
                                any_num_entries id_dumps id_loads save_only
                                300%nat on_time (fresh_world [true])))) as Hpath.
    cbv zeta in Hpath.
    evar (batches : list DataBatch).
    evar (w1 : World). evar (w2 : World). evar (w3 : World). evar (w4 : World).
    assert (open_connection RABBITMQ_SERVER 6 5 (fresh_world [true])
            = (Ok (Some BlockingConnection), w1)) as Hconn
      by (vm_compute; reflexivity).
    assert (data_batcher nth_id any_DSID any_num_entries
                         SAMPLES PATH FRACTION BATCH_SIZE w1 = (Ok batches, w2))
      as Hbatches by (vm_compute; reflexivity).
    assert (send_data id_dumps batches BlockingConnection TASKS_QUEUE
                      (and_then w2 (Print ("status: number of batches - "
                                           +:+ pretty (len batches))))
            = (Ok tt, w3)) as Hsent by (vm_compute; reflexivity).
    assert (retrieve_batches id_loads 300 on_time BlockingConnection RESULTS_QUEUE
                             (len batches) 1 240 w3 = (Ok [], w4)) as Hback
      by (vm_compute; reflexivity).
    exists w4.
    exact (proj1 (Hpath BlockingConnection batches [] w1 w2 w3 w4
                        Hconn Hbatches Hsent Hback) eq_refl).
  - pose proof (proj1 (proj2 (coordinator_exit_statuses nth_id any_DSID
                                any_num_entries id_dumps (table_loads (processed_job any_num_entries))
                                save_only 300%nat on_time
                                (world_with_done (take 5 (processed_job any_num_entries)))))) as Hpath.
    cbv zeta in Hpath.
    evar (batches : list DataBatch). evar (missing : list DataBatch).
    evar (w1 : World). evar (w2 : World). evar (w3 : World). evar (w4 : World).
    assert (open_connection RABBITMQ_SERVER 6 5 (world_with_done (take 5 (processed_job any_num_entries)))
            = (Ok (Some BlockingConnection), w1)) as Hconn
      by (vm_compute; reflexivity).
    assert (data_batcher nth_id any_DSID any_num_entries
                         SAMPLES PATH FRACTION BATCH_SIZE w1 = (Ok batches, w2))
      as Hbatches by (vm_compute; reflexivity).
    assert (send_data id_dumps batches BlockingConnection TASKS_QUEUE
                      (and_then w2 (Print ("status: number of batches - "
                                           +:+ pretty (len batches))))
            = (Ok tt, w3)) as Hsent by (vm_compute; reflexivity).
    assert (retrieve_batches (table_loads (processed_job any_num_entries)) 300 on_time BlockingConnection
                             RESULTS_QUEUE (len batches) 1 240 w3
            = (Ok (take 5 (processed_job any_num_entries)), w4)) as Hback
      by (vm_compute; reflexivity).
    assert (missing_batches batches (take 5 (processed_job any_num_entries)) = Ok (Some missing)) as Hmissing
      by (vm_compute; reflexivity).
    exists w4.
    apply (proj2 (Hpath BlockingConnection batches (take 5 (processed_job any_num_entries)) w1 w2 w3 w4
                        Hconn Hbatches Hsent Hback) missing);
      [vm_compute; discriminate | exact Hmissing | vm_compute; reflexivity].
  - apply (proj2 (proj2 (coordinator_exit_statuses nth_id any_DSID any_num_entries
                           id_dumps (table_loads (processed_job any_num_entries)) save_only 30%nat on_time
                           (world_with_done (processed_job any_num_entries))))).
    vm_compute. reflexivity.
Defined.

(** C6, as the spec words it, fails: a run that cannot connect and a run
    that retrieves no result print different error lines but leave with the
    same exit status. *)
Lemma connection_and_zero_results_exit_alike :
  let coordinator :=
    main nth_id any_DSID any_num_entries id_dumps id_loads save_only in
  let no_server := coordinator 0%nat on_time (fresh_world []) in
  let no_results := coordinator 300%nat on_time (fresh_world [true]) in
  last (effects (snd no_server)) = Some (Print "error: RabbitMQ connection failed")
  /\ last (effects (snd no_results))
     = Some (Print "error: failed to retrieve processed data")
  /\ exit_status (fst no_server) = Some 1
  /\ exit_status (fst no_results) = Some 1.
Proof. vm_compute. repeat split; reflexivity. Qed.

(** ** The worker *)

(** C8, as the code has it. For a task the worker has pulled: if processing
    succeeds, the enriched batch is published to the results queue and the
    task message is acknowledged after that; if processing raises an
    [Exception], the worker prints ["error: failed to process batch "]
    followed by the text of the exception, negatively acknowledges the task
    with requeue, and goes on with the next round of its loop. The line it
    prints carries the exception, not the id of the batch. *)
Theorem worker_settles_each_task
    (pickle_dumps : DataBatch -> bytes) (pickle_loads : bytes -> outcome DataBatch)
    (select_events : DataBatch -> Z -> M (list (list Event)))
    (connection : Connection) (fuel : nat) (message_tag : Z) (batch : DataBatch)
    (w w0 : World) :
  higgs_worker.retrieve_batch pickle_loads TASKS_QUEUE 12 5 w
    = (Ok (Some (message_tag, batch)), w0) ->
  let loop := higgs_worker.worker_loop pickle_dumps pickle_loads select_events in
  let handle := higgs_worker.handle_task pickle_dumps select_events in
  match higgs_worker.process_data select_events batch w0 with
  | (Ok processed, w1) =>
      exists w2,
        handle connection message_tag batch w0 = (Ok tt, w2)
        /\ effects w2 = effects w1
                        ++ [ChannelOpen; QueueDeclare RESULTS_QUEUE;
                            BasicPublish RESULTS_QUEUE (pickle_dumps processed);
                            ChannelClose; BasicAck message_tag]
        /\ loop (S fuel) connection w = loop fuel connection w2
  | (Raise e, w1) =>
      if is_Exception e
      then exists w2,
             handle connection message_tag batch w0 = (Ok tt, w2)
             /\ effects w2 = effects w1
                             ++ [Print ("error: failed to process batch " +:+ exn_str e);
                                 BasicNack message_tag true]
             /\ loop (S fuel) connection w = loop fuel connection w2
      else loop (S fuel) connection w = (Raise e, w1)
  | (OutOfFuel, w1) => loop (S fuel) connection w = (OutOfFuel, w1)
  end.
Proof.
  intros Hpull loop handle. unfold loop, handle.
  cbn [higgs_worker.worker_loop]. rewrite (bind_Ok _ _ _ _ _ Hpull).
  unfold higgs_worker.handle_task, try_except.
  destruct (higgs_worker.process_data select_events batch w0)
    as [[processed | e |] w1] eqn:Hprocess.
  - rewrite (bind_Ok _ _ _ _ _ Hprocess).
    eexists. split; [reflexivity |]. split.
    + cbn. now rewrite <- !app_assoc.
    + unfold mbind at 1, M_bind at 1. rewrite (bind_Ok _ _ _ _ _ Hprocess).
      reflexivity.
  - rewrite (bind_Raise _ _ _ _ _ Hprocess).
    destruct (is_Exception e) eqn:Hcatch.
    + eexists. split; [reflexivity |]. split.
      * cbn. now rewrite <- !app_assoc.
      * unfold mbind at 1, M_bind at 1. rewrite (bind_Raise _ _ _ _ _ Hprocess).
        rewrite Hcatch. reflexivity.
    + unfold mbind at 1, M_bind at 1. rewrite (bind_Raise _ _ _ _ _ Hprocess).
      rewrite Hcatch. reflexivity.
  - unfold mbind at 1 2, M_bind at 1 2. unfold mbind, M_bind in Hprocess |- *.
    rewrite Hprocess. reflexivity.
Qed.

(** Witness of C8: one task in the queue, processed once by a selection that
    succeeds and once by one that cannot open the file. *)
Lemma worker_settles_each_task_witness :
  let w := world_with_tasks [msg_at 0 "a"] in
  let a := plain_batch "a" "data" in
  let w0 := snd (higgs_worker.retrieve_batch id_loads TASKS_QUEUE 12 5 w) in
  (let loop := higgs_worker.worker_loop id_dumps id_loads one_event in
   let w1 := snd (higgs_worker.process_data one_event a w0) in
   exists w2,
     higgs_worker.handle_task id_dumps one_event BlockingConnection 1 a w0 = (Ok tt, w2)
     /\ effects w2 = effects w1
                     ++ [ChannelOpen; QueueDeclare RESULTS_QUEUE;
                         BasicPublish RESULTS_QUEUE
                           (id_dumps (set_processed_data a [mkEvent 125 None]));
                         ChannelClose; BasicAck 1]
     /\ loop 2%nat BlockingConnection w = loop 1%nat BlockingConnection w2)
  /\ (let loop := higgs_worker.worker_loop id_dumps id_loads unreadable in
      let w1 := snd (higgs_worker.process_data unreadable a w0) in
      exists w2,
        higgs_worker.handle_task id_dumps unreadable BlockingConnection 1 a w0
          = (Ok tt, w2)
        /\ effects w2 = effects w1
                        ++ [Print ("error: failed to process batch "
                                   +:+ "file not found: Data/data_A.4lep.root");
                            BasicNack 1 true]
        /\ loop 2%nat BlockingConnection w = loop 1%nat BlockingConnection w2).
Proof.
  intros w a w0.
  assert (higgs_worker.retrieve_batch id_loads TASKS_QUEUE 12 5 w
          = (Ok (Some (1, a)), w0)) as Hpull by (vm_compute; reflexivity).
  split.
  - exact (worker_settles_each_task id_dumps id_loads one_event BlockingConnection
             1%nat 1 a w w0 Hpull).
  - exact (worker_settles_each_task id_dumps id_loads unreadable BlockingConnection
             1%nat 1 a w w0 Hpull).
Defined.

(** C8, as the spec words it, fails on the log. Two tasks of one subsample
    that differ in their id and their range, processed from the same state
    and failing on the same unreadable file, leave the same record: no line
    the worker prints contains the id of the batch. *)
Lemma failure_log_does_not_identify_the_unit :
  let file := "Data/data_A.4lep.root" in
  let b1 := DataBatch_init "id-1" "data" "data_A" "measured" file float_half 0 100 in
  let b2 := DataBatch_init "id-2" "data" "data_A" "measured" file float_half 100 200 in
  let run b :=
    higgs_worker.handle_task id_dumps unreadable BlockingConnection 7 b
                             (fresh_world []) in
  batch_id b1 <> batch_id b2
  /\ fst (run b1) = Ok tt
  /\ effects (snd (run b1)) = effects (snd (run b2))
  /\ effects (snd (run b1)) =
       [ Print ("Sample      : data" +:+ higgs_worker.newline +:+
                "Subsample   : data_A" +:+ higgs_worker.newline +:+
                "Sample Type : measured");
         TimeRead 0;
         Print "error: failed to process batch file not found: Data/data_A.4lep.root";
         BasicNack 7 true ]
  /\ Forall (fun e => match e with
                      | Print line => String.index 0 (batch_id b1) line = None
                      | _ => True
                      end)
            (effects (snd (run b1))).
Proof.
  intros file b1 b2 run.
  split; [discriminate |]. split; [reflexivity |]. split; [reflexivity |].
  split; [reflexivity |]. vm_compute. repeat constructor.
Qed.

(** ** Whole runs *)

(** The scenario of four sources of 1000, 300, 50 and 900 records cut into
    batches of 100: 10, 3, 1 and 9 units, 23 in all. *)
Example data_batcher_four_sources :
  let sizes (tree : string) : outcome Z :=
    if String.eqb tree "Data/data_A.4lep.root:mini" then Ok 1000
    else if String.eqb tree "Data/data_B.4lep.root:mini" then Ok 300
    else if String.eqb tree "Data/data_C.4lep.root:mini" then Ok 50
    else Ok 900 in
  let samples :=
    [("data", mkSampleInfo ["data_A"; "data_B"; "data_C"; "data_D"] None)] in
  exists batches w',
    data_batcher nth_id any_DSID sizes samples "" float_one 100 (fresh_world [])
      = (Ok batches, w')
    /\ map (fun name => length (filter (fun b => subsample b = name) batches))
           ["data_A"; "data_B"; "data_C"; "data_D"]
       = [10; 3; 1; 9]%nat
    /\ length batches = 23%nat.
Proof.
  intros sizes samples. eexists _, _.
  split; [vm_compute; reflexivity |]. split; vm_compute; reflexivity.
Qed.

(** A run of [main] in which one of the 24 results never arrives: once the
    deadline of 240 seconds has passed the first warning is the last thing
    printed, and the run ends on the [TypeError] of line 75. *)
Example main_fails_on_a_missing_batch :
  let job := processed_job any_num_entries in
  let run := main nth_id any_DSID any_num_entries id_dumps (table_loads job)
                  save_only 300%nat on_time (world_with_done (tail job)) in
  fst run = Raise (PyError "TypeError" "'function' object is not iterable")
  /\ last (effects (snd run))
     = Some (Print "warning: missing the following batches of data")
  /\ 240 < clock (snd run) <= 241
  /\ exit_status (fst run) = Some 1.
Proof. vm_compute. repeat split; try reflexivity; discriminate. Qed.

(** A run of [main] in which the file of subsample [llll] holds no event, so
    that its sample gets no batch: every result arrives, and the run ends
    on the [ValueError] of [ak.concatenate] right after the connection is
    closed, without a line about the sample. *)
Example main_fails_when_a_sample_has_no_batch :
  let job := processed_job llll_is_empty in
  let run := main nth_id any_DSID llll_is_empty id_dumps (table_loads job)
                  save_only 30%nat on_time (world_with_done job) in
  fst run = Raise (PyError "ValueError" "need at least one array to concatenate")
  /\ last (effects (snd run)) = Some ConnectionClose
  /\ exit_status (fst run) = Some 1.
Proof. vm_compute. repeat split; reflexivity. Qed.

(* ===================================================================== *)
(** * Part III. Further properties of the code                            *)
(* ===================================================================== *)

(** ** [comms.py]: [open_connection] *)

(** One round of the [try] statement of [open_connection]. *)
Lemma connect_attempt (hostname : string) (w : World) :
  try_except is_AMQPConnectionError
    (connection ← pika_connect hostname; mret (Some (Some connection)))
    (fun _ => mret None) w
  = match network w with
    | true :: _ => (Ok (Some (Some BlockingConnection)), after_connect hostname true w)
    | _ => (Ok None, after_connect hostname false w)
    end.
Proof.
  unfold try_except, mbind, M_bind, pika_connect, after_connect.
  destruct (network w) as [|[] net]; reflexivity.
Qed.

Lemma open_connection_loop_connects (hostname : string) (retries wait_time : Z)
    (Hwait : 0 <= wait_time) :
  forall (j fuel : nat) (attempts : Z) (w : World) (rest : list bool),
    network w = replicate j false ++ true :: rest ->
    attempts + Z.of_nat j < retries ->
    (j < fuel)%nat ->
    open_connection_loop fuel hostname attempts retries wait_time w
    = (Ok (Some BlockingConnection),
       mkWorld (clock w + Z.of_nat j * wait_time) rest (queues w) (unacked w)
               (next_tag w) (uuid_count w)
               (effects w ++ failed_attempts hostname wait_time j
                          ++ [Connect hostname true])).
Proof.
  induction j as [|j IH]; intros fuel attempts w rest Hnet Hleft Hfuel;
    (destruct fuel as [|fuel]; [lia |]); cbn [open_connection_loop];
    (destruct (Z.ltb_spec attempts retries) as [_ | ?]; [| lia]);
    unfold mbind at 1, M_bind at 1; rewrite connect_attempt, Hnet;
    cbn [replicate app].
  - unfold mret, M_ret, after_connect. rewrite Hnet. cbn.
    do 2 f_equal. lia.
  - destruct (Z.ltb_spec (attempts + 1) retries) as [_ | ?]; [| lia].
    unfold mbind, M_bind, time_sleep.
    destruct (Z.ltb_spec wait_time 0) as [? | _]; [lia |].
    rewrite IH with (rest := rest).
    + unfold after_connect. rewrite Hnet. cbn. do 2 f_equal; [lia |].
      unfold failed_attempts. cbn. now rewrite <- !app_assoc.
    + unfold after_connect. cbn. now rewrite Hnet.
    + lia.
    + lia.
Qed.

(** X1. If the server refuses the first [j] attempts and answers the next
    one, with [j < retries], [open_connection] returns the connection: it
    has tried [j + 1] times, slept [wait_time] after each refusal, and
    [j * wait_time] seconds have passed. *)
Theorem open_connection_connects (hostname : string) (retries wait_time : Z)
    (j : nat) (w : World) (rest : list bool) :
  0 <= wait_time ->
  network w = replicate j false ++ true :: rest ->
  Z.of_nat j < retries ->
  open_connection hostname retries wait_time w
  = (Ok (Some BlockingConnection),
     mkWorld (clock w + Z.of_nat j * wait_time) rest (queues w) (unacked w)
             (next_tag w) (uuid_count w)
             (effects w ++ failed_attempts hostname wait_time j
                        ++ [Connect hostname true])).
Proof.
  intros Hwait Hnet Hj. unfold open_connection.
  apply open_connection_loop_connects; [assumption | assumption | lia | lia].
Qed.

(** Witness of X1: two refusals, then an answer, six attempts allowed. *)
Lemma open_connection_connects_witness :
  let w := fresh_world [false; false; true; false] in
  open_connection RABBITMQ_SERVER 6 5 w
  = (Ok (Some BlockingConnection),
     mkWorld (clock w + Z.of_nat 2 * 5) [false] (queues w) (unacked w)
             (next_tag w) (uuid_count w)
             (effects w ++ failed_attempts RABBITMQ_SERVER 5 2
                        ++ [Connect RABBITMQ_SERVER true])).
Proof.
  intros w.
  apply (open_connection_connects RABBITMQ_SERVER 6 5 2 w [false]);
    [lia | reflexivity | lia].
Defined.

Lemma open_connection_loop_gives_up (hostname : string) (retries wait_time : Z)
    (Hwait : 0 <= wait_time) :
  forall (n fuel : nat) (attempts : Z) (w : World),
    Z.of_nat (S n) = retries - attempts ->
    Forall (fun ok => ok = false) (take (S n) (network w)) ->
    (n < fuel)%nat ->
    open_connection_loop fuel hostname attempts retries wait_time w
    = (Ok None,
       mkWorld (clock w + Z.of_nat n * wait_time) (drop (S n) (network w))
               (queues w) (unacked w) (next_tag w) (uuid_count w)
               (effects w ++ failed_attempts hostname wait_time n
                          ++ [Connect hostname false])).
Proof.
  induction n as [|n IH]; intros fuel attempts w Hleft Hdown Hfuel;
    (destruct fuel as [|fuel]; [lia |]); cbn [open_connection_loop];
    (destruct (Z.ltb_spec attempts retries) as [_ | ?]; [| lia]);
    unfold mbind at 1, M_bind at 1; rewrite connect_attempt;
    (destruct (network w) as [|[] net] eqn:Hnet;
     [| apply Forall_cons in Hdown as [? _]; discriminate |]).
  - destruct (Z.ltb_spec (attempts + 1) retries) as [? | _]; [lia |].
    unfold mret, M_ret, after_connect. rewrite Hnet. cbn. do 2 f_equal. lia.
  - destruct (Z.ltb_spec (attempts + 1) retries) as [? | _]; [lia |].
    unfold mret, M_ret, after_connect. rewrite Hnet. cbn. do 2 f_equal. lia.
  - destruct (Z.ltb_spec (attempts + 1) retries) as [_ | ?]; [| lia].
    unfold mbind, M_bind, time_sleep.
    destruct (Z.ltb_spec wait_time 0) as [? | _]; [lia |].
    rewrite IH.
    + unfold after_connect. rewrite Hnet. cbn. do 2 f_equal; [lia |].
      unfold failed_attempts. cbn. now rewrite <- !app_assoc.
    + lia.
    + unfold after_connect. rewrite Hnet. cbn. constructor.
    + lia.
  - destruct (Z.ltb_spec (attempts + 1) retries) as [_ | ?]; [| lia].
    unfold mbind, M_bind, time_sleep.
    destruct (Z.ltb_spec wait_time 0) as [? | _]; [lia |].
    rewrite IH.
    + unfold after_connect. rewrite Hnet. cbn. do 2 f_equal; [lia |].
      unfold failed_attempts. cbn. now rewrite <- !app_assoc.
    + lia.
    + unfold after_connect. rewrite Hnet. cbn [network tail].
      now apply Forall_cons in Hdown as [_ ?].
    + lia.
Qed.

(** X2. If the server refuses each of the first [retries] attempts,
    [open_connection] returns [None] after exactly [retries] attempts; it
    sleeps between attempts but not after the last one, so
    [(retries - 1) * wait_time] seconds have passed. With [retries <= 0] it
    returns [None] at once without trying. *)
Theorem open_connection_gives_up (hostname : string) (retries wait_time : Z)
    (w : World) :
  0 <= wait_time ->
  Forall (fun ok => ok = false) (take (Z.to_nat retries) (network w)) ->
  open_connection hostname retries wait_time w
  = if 0 <? retries
    then (Ok None,
          mkWorld (clock w + (retries - 1) * wait_time)
                  (drop (Z.to_nat retries) (network w))
                  (queues w) (unacked w) (next_tag w) (uuid_count w)
                  (effects w
                     ++ failed_attempts hostname wait_time (Z.to_nat (retries - 1))
                     ++ [Connect hostname false]))
    else (Ok None, w).
Proof.
  intros Hwait Hdown. unfold open_connection.
  destruct (Z.ltb_spec 0 retries) as [Hpos | Hnone].
  - replace (Z.to_nat retries) with (S (Z.to_nat (retries - 1))) in * by lia.
    rewrite (open_connection_loop_gives_up hostname retries wait_time Hwait
               (Z.to_nat (retries - 1))); [| lia | assumption | lia].
    now rewrite Z2Nat.id by lia.
  - destruct (Z.to_nat retries); cbn [open_connection_loop];
      destruct (Z.ltb_spec 0 retries); try lia; reflexivity.
Qed.

(** Witness of X2: the server of the coordinator's call never answers. *)
Lemma open_connection_gives_up_witness :
  let w := fresh_world [false; false; false; false; false; false; true] in
  open_connection RABBITMQ_SERVER 6 5 w
  = (Ok None,
     mkWorld (clock w + (6 - 1) * 5) (drop (Z.to_nat 6) (network w))
             (queues w) (unacked w) (next_tag w) (uuid_count w)
             (effects w ++ failed_attempts RABBITMQ_SERVER 5 (Z.to_nat (6 - 1))
                        ++ [Connect RABBITMQ_SERVER false])).
Proof.
  intros w.
  apply (open_connection_gives_up RABBITMQ_SERVER 6 5 w); [lia |].
  repeat constructor.
Defined.

(** ** [comms.py]: [send_data] *)

Lemma publish_each (pickle_dumps : DataBatch -> bytes) (queue_name : string) :
  forall (batches : list DataBatch) (w : World) (msgs : list Msg),
    queues w !! queue_name = Some msgs ->
    exists w',
      for_each (fun batch =>
                  let pickled_batch := pickle_dumps batch in
                  basic_publish queue_name pickled_batch) batches w = (Ok tt, w')
      /\ same_but_queues w w'
      /\ queues w' !! queue_name
         = Some (msgs ++ sent_at pickle_dumps (clock w) batches)
      /\ (forall other, other <> queue_name ->
            queues w' !! other = queues w !! other)
      /\ effects w' = effects w
                      ++ map (fun b => BasicPublish queue_name (pickle_dumps b)) batches.
Proof.
  induction batches as [|b batches IH]; intros w msgs Hq.
  - exists w. cbn. rewrite !app_nil_r. repeat split; auto.
  - cbn [for_each]. unfold mbind at 1, M_bind at 1, basic_publish at 1. cbn zeta.
    match goal with |- context [for_each _ batches ?w1] => set (w1' := w1) end.
    destruct (IH w1' (msgs ++ [mkMsg (clock w) (pickle_dumps b)]))
      as (w' & Hrun & Hsame & Hqueue & Hothers & Heff).
    { unfold w1'. cbn. now rewrite lookup_alter_eq, Hq. }
    exists w'. split; [exact Hrun |]. split; [exact Hsame |]. split; [| split].
    + rewrite Hqueue. unfold w1'. cbn. now rewrite <- app_assoc.
    + intros other Hne. rewrite Hothers by assumption. unfold w1'. cbn.
      now rewrite lookup_alter_ne.
    + rewrite Heff. unfold w1'. cbn. now rewrite <- app_assoc.
Qed.

(** X3. [send_data] never fails and takes no time: it opens a channel,
    declares the queue, publishes one message per batch in the order of the
    list and closes the channel. The messages join the tail of the queue
    behind what was there; no other queue is touched. *)
Theorem send_data_appends_in_order (pickle_dumps : DataBatch -> bytes)
    (batches : list DataBatch) (connection : Connection) (queue_name : string)
    (w : World) :
  exists w',
    send_data pickle_dumps batches connection queue_name w = (Ok tt, w')
    /\ same_but_queues w w'
    /\ queue_of queue_name w'
       = queue_of queue_name w ++ sent_at pickle_dumps (clock w) batches
    /\ (forall other, other <> queue_name ->
          queues w' !! other = queues w !! other)
    /\ effects w' = effects w
                    ++ [ChannelOpen; QueueDeclare queue_name]
                    ++ map (fun b => BasicPublish queue_name (pickle_dumps b)) batches
                    ++ [ChannelClose].
Proof.
  unfold send_data.
  set (w1 := mkWorld (clock w) (network w)
               (match queues w !! queue_name with
                | Some _ => queues w
                | None => <[queue_name := []]> (queues w)
                end)
               (unacked w) (next_tag w) (uuid_count w)
               ((effects w ++ [ChannelOpen]) ++ [QueueDeclare queue_name])).
  destruct (publish_each pickle_dumps queue_name batches w1 (queue_of queue_name w))
    as (w2 & Hrun & Hsame & Hqueue & Hothers & Heff).
  { unfold w1, queue_of. cbn. destruct (queues w !! queue_name) eqn:Hq.
    - now rewrite Hq.
    - now rewrite lookup_insert_eq. }
  exists (and_then w2 ChannelClose). split; [| split; [| split; [| split]]].
  - rewrite (bind_Ok _ _ w (and_then w ChannelOpen) tt) by reflexivity.
    rewrite (bind_Ok _ _ _ w1 tt) by reflexivity.
    now rewrite (bind_Ok _ _ _ _ _ Hrun).
  - unfold same_but_queues in *. cbn. exact Hsame.
  - unfold queue_of at 1. cbn. now rewrite Hqueue.
  - intros other Hne. cbn. rewrite Hothers by assumption. unfold w1. cbn.
    destruct (queues w !! queue_name); [reflexivity |].
    now rewrite lookup_insert_ne.
  - cbn. rewrite Heff. unfold w1. cbn. now rewrite <- !app_assoc.
Qed.

(** ** From [send_data] to [retrieve_batches] *)

Lemma ready_for_sent (pickle_dumps : DataBatch -> bytes)
    (pickle_loads : bytes -> outcome DataBatch) (wait : Z) (Hwait : 0 <= wait) :
  forall (batches : list DataBatch) (lag : nat -> nat) (sent now : Z),
    (forall b, b ∈ batches -> pickle_loads (pickle_dumps b) = Ok b) ->
    sent <= now ->
    ready_for pickle_loads lag now wait (sent_at pickle_dumps sent batches) batches.
Proof.
  induction batches as [|b batches IH]; intros lag sent now Hcodec Hnow; cbn;
    [exact I |].
  split; [lia |]. split; [apply Hcodec; left |].
  apply IH; [| lia]. intros b' Hb'. apply Hcodec. now right.
Qed.

(** X4. What [send_data] puts on an empty queue, [retrieve_batches] takes
    off the same queue: if unpickling undoes pickling on the batches sent
    and the sleeps between the polls and the polls themselves, the [i]-th of
    which takes [lag i] ticks, together take less than the deadline, the
    collector returns the very list that was sent, in the order it was sent,
    and leaves the queue empty. *)
Theorem send_then_retrieve (pickle_dumps : DataBatch -> bytes)
    (pickle_loads : bytes -> outcome DataBatch) (batches : list DataBatch)
    (connection : Connection) (queue_name : string)
    (wait_time terminate_time : Z) (fuel : nat) (lag : nat -> nat) (w : World) :
  (forall b, b ∈ batches -> pickle_loads (pickle_dumps b) = Ok b) ->
  queue_of queue_name w = [] ->
  0 <= wait_time ->
  (batches <> [] ->
   (len batches - 1) * wait_time + total_lag lag (length batches)
     < terminate_time) ->
  (length batches <= fuel)%nat ->
  exists w',
    (send_data pickle_dumps batches connection queue_name;;
     retrieve_batches pickle_loads fuel lag connection queue_name (len batches)
                      wait_time terminate_time) w = (Ok batches, w')
    /\ clock w' = clock w + len batches * wait_time
                  + total_lag lag (length batches)
    /\ queue_of queue_name w' = [].
Proof.
  intros Hcodec Hempty Hwait Hdeadline Hfuel.
  set (w1 := mkWorld (clock w) (network w)
               (match queues w !! queue_name with
                | Some _ => queues w
                | None => <[queue_name := []]> (queues w)
                end)
               (unacked w) (next_tag w) (uuid_count w)
               ((effects w ++ [ChannelOpen]) ++ [QueueDeclare queue_name])).
  destruct (publish_each pickle_dumps queue_name batches w1 [])
    as (w2 & Hsend & Hsame & Hqueue & _ & _).
  { unfold w1. cbn. unfold queue_of in Hempty.
    destruct (queues w !! queue_name) as [msgs |] eqn:Hq.
    - cbn in Hempty. now rewrite Hq, Hempty.
    - now rewrite lookup_insert_eq. }
  destruct Hsame as (Hclock & _). cbn in Hqueue, Hclock.
  set (w3 := and_then w2 ChannelClose).
  assert (send_data pickle_dumps batches connection queue_name w = (Ok tt, w3))
    as Hsent.
  { unfold send_data.
    rewrite (bind_Ok _ _ w (and_then w ChannelOpen) tt) by reflexivity.
    rewrite (bind_Ok _ _ _ w1 tt) by reflexivity.
    now rewrite (bind_Ok _ _ _ _ _ Hsend). }
  destruct (retrieve_loop_ready pickle_loads queue_name (len batches) wait_time
              terminate_time (clock w3) Hwait
              (sent_at pickle_dumps (clock w) batches) batches fuel lag []
              (collector_ready queue_name w3) [])
    as (w' & Hrun & Hend & _ & Hleft).
  - apply ready_for_sent; [assumption | assumption |].
    cbn. lia.
  - rewrite queue_of_collector_ready, app_nil_r. unfold queue_of, w3. cbn.
    now rewrite Hqueue.
  - unfold len, sent_at. cbn. rewrite length_map. lia.
  - intros Hne. unfold len, sent_at in *. rewrite length_map in *.
    cbn [clock collector_ready].
    assert (batches <> []) as Hsome by (intros ->; now apply Hne).
    specialize (Hdeadline Hsome). lia.
  - unfold sent_at. rewrite length_map. exact Hfuel.
  - exists w'. split; [| split].
    + rewrite (bind_Ok _ _ _ _ _ Hsent). rewrite retrieve_batches_prelude. exact Hrun.
    + rewrite Hend. unfold len, sent_at. rewrite length_map. cbn. lia.
    + exact Hleft.
Qed.

(** Witness of X4: two batches through the stand-in codec, on a clock that
    ticks every millisecond, with polls that take three of them. *)
Lemma send_then_retrieve_witness :
  let batches := [plain_batch "a" "data"; plain_batch "b" "data"] in
  let w := fresh_world [] in
  let lag := fun _ : nat => 3%nat in
  exists w',
    (send_data id_dumps batches BlockingConnection RESULTS_QUEUE;;
     retrieve_batches id_loads 2 lag BlockingConnection RESULTS_QUEUE (len batches)
                      1000 240000)
      w = (Ok batches, w')
    /\ clock w' = clock w + len batches * 1000 + total_lag lag (length batches)
    /\ queue_of RESULTS_QUEUE w' = [].
Proof.
  intros batches w lag.
  apply (send_then_retrieve id_dumps id_loads batches BlockingConnection
           RESULTS_QUEUE 1000 240000 2 lag w).
  - intros b Hb. apply elem_of_cons in Hb as [-> | Hb]; [reflexivity |].
    apply list_elem_of_singleton in Hb as ->. reflexivity.
  - reflexivity.
  - lia.
  - intros _. vm_compute. reflexivity.
  - cbn. lia.
Defined.

(** ** [higgs_manager.py]: more on [retrieve_batches] *)

Section CollectorRounds.

Variable pickle_loads : bytes -> outcome DataBatch.

(** What a poll can do to a queue. *)
Lemma basic_get_inv (queue_name : string) (auto_ack : bool) (w w1 : World)
    (reply : option (Z * bytes)) :
  basic_get queue_name auto_ack w = (Ok reply, w1) ->
  clock w1 = clock w
  /\ ((reply = None /\ queue_of queue_name w1 = queue_of queue_name w)
      \/ (exists m, reply = Some (next_tag w, body m)
                    /\ queue_of queue_name w = m :: queue_of queue_name w1
                    /\ available_at m <= clock w)).
Proof.
  unfold basic_get, queue_of.
  destruct (default [] (queues w !! queue_name)) as [|m rest] eqn:Hq.
  - intros [= <- <-]. cbn. rewrite Hq. auto.
  - destruct (Z.leb_spec (available_at m) (clock w)) as [Hm | Hm].
    + intros [= <- <-]. cbn. split; [reflexivity |]. right. exists m.
      rewrite lookup_insert_eq. cbn. auto.
    + intros [= <- <-]. cbn. rewrite Hq. auto.
Qed.

(** The loop leaves at once when the expected number is reached. *)
Lemma retrieve_loop_exit (fuel : nat) (lag : nat -> nat) (queue_name : string)
    (num_batches wait_time terminate_time start : Z) (batches : list DataBatch)
    (w : World) :
  len batches = num_batches ->
  retrieve_loop pickle_loads fuel lag queue_name num_batches wait_time
                terminate_time start batches w
  = (Ok batches, and_then w ChannelClose).
Proof.
  intros Hnum. apply Z.eqb_eq in Hnum.
  destruct fuel; cbn [retrieve_loop]; rewrite Hnum; reflexivity.
Qed.

(** One round of the loop that ends well: the poll took its time and
    brought nothing or the head of the queue; then the deadline had passed
    and the round returned, or it had not and the loop went on after the
    sleep. *)
Lemma retrieve_round_inv (fuel : nat) (lag : nat -> nat) (queue_name : string)
    (num_batches wait_time terminate_time start : Z) (batches result : list DataBatch)
    (w w' : World) :
  len batches <> num_batches ->
  retrieve_loop pickle_loads (S fuel) lag queue_name num_batches wait_time
                terminate_time start batches w = (Ok result, w') ->
  exists (next : list DataBatch) (w1 : World),
    clock w1 = clock w + Z.of_nat (lag 0%nat)
    /\ ((next = batches /\ queue_of queue_name w1 = queue_of queue_name w)
        \/ (exists m u, queue_of queue_name w = m :: queue_of queue_name w1
                        /\ available_at m <= clock w1
                        /\ pickle_loads (body m) = Ok u
                        /\ next = batches ++ [u]))
    /\ ((terminate_time < clock w1 - start /\ result = next
         /\ clock w' = clock w1
         /\ queue_of queue_name w' = queue_of queue_name w1)
        \/ (clock w1 - start <= terminate_time /\ 0 <= wait_time
            /\ exists w4, clock w4 = clock w1 + wait_time
                          /\ queue_of queue_name w4 = queue_of queue_name w1
                          /\ retrieve_loop pickle_loads fuel (fun i => lag (S i))
                               queue_name num_batches
                               wait_time terminate_time start next w4
                             = (Ok result, w'))).
Proof.
  intros Hnum Hrun. cbn [retrieve_loop] in Hrun.
  destruct (Z.eqb_spec (len batches) num_batches) as [? | _]; [contradiction |].
  cbn [negb] in Hrun.
  rewrite (bind_Ok _ _ _ _ _ (time_passes_run (lag 0%nat) w)) in Hrun.
  set (w0 := mkWorld (clock w + Z.of_nat (lag 0%nat)) (network w) (queues w)
               (unacked w) (next_tag w) (uuid_count w) (effects w)) in Hrun.
  apply bind_inv_Ok in Hrun as (response & w1 & Hget & Hrun).
  apply bind_inv_Ok in Hrun as (next & w2 & Hnext & Hrun).
  apply bind_inv_Ok in Hrun as (now & w3 & Htime & Hrun).
  apply basic_get_inv in Hget as (Hclock & Hget).
  change (queue_of queue_name w0) with (queue_of queue_name w) in Hget.
  change (clock w0) with (clock w + Z.of_nat (lag 0%nat)) in Hget, Hclock.
  rewrite <- Hclock in Hget.
  injection Htime as <- <-.
  assert (w2 = w1
          /\ ((next = batches /\ queue_of queue_name w1 = queue_of queue_name w)
              \/ (exists m u, queue_of queue_name w = m :: queue_of queue_name w1
                              /\ available_at m <= clock w1
                              /\ pickle_loads (body m) = Ok u
                              /\ next = batches ++ [u]))) as [-> Hpoll].
  { destruct Hget as [[-> Hsame] | (m & -> & Hhead & Harrived)].
    - injection Hnext as <- <-. auto.
    - apply bind_inv_Ok in Hnext as (u & w5 & Hloads & Hnext).
      injection Hnext as <- <-. unfold lift in Hloads.
      destruct (pickle_loads (body m)) as [u' | |] eqn:Hu; try discriminate.
      injection Hloads as <- <-. split; [reflexivity |]. right. eauto 8. }
  exists next, w1. split; [exact Hclock |]. split; [exact Hpoll |].
  cbn [clock] in Hrun.
  destruct (Z.ltb_spec terminate_time (clock w1 - start)) as [Hover | Hnot].
  - left. apply bind_inv_Ok in Hrun as (? & w4 & Hclose & Hrun).
    injection Hrun as <- <-. injection Hclose as _ <-. cbn. auto.
  - right. apply bind_inv_Ok in Hrun as (? & w4 & Hsleep & Hrun).
    unfold time_sleep in Hsleep.
    destruct (Z.ltb_spec wait_time 0) as [? | Hwait]; [discriminate |].
    injection Hsleep as _ <-. split; [exact Hnot |]. split; [exact Hwait |].
    eexists. split; [| split; [| exact Hrun]]; cbn; [lia | reflexivity].
Qed.

End CollectorRounds.

Lemma retrieve_loop_no_fuel (pickle_loads : bytes -> outcome DataBatch)
    (lag : nat -> nat) (queue_name : string)
    (num_batches wait_time terminate_time start : Z)
    (batches result : list DataBatch) (w w' : World) :
  len batches <> num_batches ->
  retrieve_loop pickle_loads 0 lag queue_name num_batches wait_time terminate_time
                start batches w <> (Ok result, w').
Proof.
  intros Hnum. cbn [retrieve_loop].
  destruct (Z.eqb_spec (len batches) num_batches); [contradiction | discriminate].
Qed.

Lemma retrieve_loop_elapsed (pickle_loads : bytes -> outcome DataBatch)
    (queue_name : string) (num_batches wait_time terminate_time start : Z)
    (late : nat) :
  forall (fuel : nat) (lag : nat -> nat) (batches result : list DataBatch)
         (w w' : World),
    (forall i, (lag i <= late)%nat) ->
    clock w - start <= terminate_time + wait_time ->
    retrieve_loop pickle_loads fuel lag queue_name num_batches wait_time
                  terminate_time start batches w = (Ok result, w') ->
    clock w <= clock w'
    /\ clock w' - start <= terminate_time + wait_time + Z.of_nat late
    /\ (len result <> num_batches -> terminate_time < clock w' - start).
Proof.
  induction fuel as [|fuel IH]; intros lag batches result w w' Hlate Hsofar Hrun;
    destruct (Z.eq_dec (len batches) num_batches) as [Hdone | Hmore];
    try (rewrite retrieve_loop_exit in Hrun by assumption;
         injection Hrun as <- <-; cbn; split; [lia | split; [lia | contradiction]]).
  - now apply retrieve_loop_no_fuel in Hrun.
  - pose proof (Hlate 0%nat) as Hlag.
    apply retrieve_round_inv in Hrun as (next & w1 & Hclock & _ & Hend); [| assumption].
    destruct Hend as [(Hover & -> & Hsame & _)
                     | (Hnot & Hwait & w4 & Hslept & _ & Hrun)].
    + rewrite Hsame. split; [lia | split; [lia |]]. intros _. lia.
    + apply IH in Hrun as (Hmono & Hbound & Hshort);
        [| intros i; apply Hlate | lia].
      split; [lia | split; assumption].
Qed.

(** X5. The collector keeps its bounded wait whatever the results queue
    holds: if no poll takes more than [late] ticks, then when
    [retrieve_batches] returns, at most
    [terminate_time + wait_time + late] ticks have passed since it started,
    and if it returns fewer (or other) than [num_batches] units, the
    deadline had passed. *)
Theorem retrieve_batches_bounded_wait
    (pickle_loads : bytes -> outcome DataBatch) (fuel : nat) (lag : nat -> nat)
    (late : nat) (connection : Connection) (queue_name : string)
    (num_batches wait_time terminate_time : Z) (w w' : World)
    (result : list DataBatch) :
  0 <= wait_time -> 0 <= terminate_time ->
  (forall i, (lag i <= late)%nat) ->
  retrieve_batches pickle_loads fuel lag connection queue_name num_batches
                   wait_time terminate_time w = (Ok result, w') ->
  0 <= clock w' - clock w
  /\ clock w' - clock w <= terminate_time + wait_time + Z.of_nat late
  /\ (len result <> num_batches -> terminate_time < clock w' - clock w).
Proof.
  intros Hwait Hterm Hlate Hrun. rewrite retrieve_batches_prelude in Hrun.
  apply (retrieve_loop_elapsed _ _ _ _ _ _ late) in Hrun
    as (Hmono & Hbound & Hshort).
  - cbn [clock collector_ready] in Hmono. split; [lia |]. split; assumption.
  - exact Hlate.
  - cbn [clock collector_ready]. lia.
Qed.

(** Witness of X5: one result is there, two are expected, the collector
    polls without a pause, a poll takes two ticks and the deadline is three
    ticks. *)
Lemma retrieve_batches_bounded_wait_witness :
  let w := world_with_results [msg_at 0 "a"] in
  let run := retrieve_batches id_loads 9 (fun _ => 2%nat) BlockingConnection
                              RESULTS_QUEUE 2 0 3 w in
  fst run = Ok [plain_batch "a" "data"]
  /\ 0 <= clock (snd run) - clock w
  /\ clock (snd run) - clock w <= 3 + 0 + Z.of_nat 2
  /\ (len [plain_batch "a" "data"] <> 2 -> 3 < clock (snd run) - clock w).
Proof.
  intros w run. split; [vm_compute; reflexivity |].
  apply (retrieve_batches_bounded_wait id_loads 9 (fun _ => 2%nat) 2
           BlockingConnection RESULTS_QUEUE 2 0 3 w (snd run)
           [plain_batch "a" "data"]);
    [lia | lia | intros i; lia | vm_compute; reflexivity].
Defined.

Lemma retrieve_loop_takes_prefix (pickle_loads : bytes -> outcome DataBatch)
    (queue_name : string) (num_batches wait_time terminate_time start : Z) :
  forall (fuel : nat) (lag : nat -> nat) (batches result : list DataBatch)
         (w w' : World),
    retrieve_loop pickle_loads fuel lag queue_name num_batches wait_time
                  terminate_time start batches w = (Ok result, w') ->
    exists (taken : list Msg) (more : list DataBatch),
      queue_of queue_name w = taken ++ queue_of queue_name w'
      /\ Forall2 (fun m u => pickle_loads (body m) = Ok u) taken more
      /\ result = batches ++ more.
Proof.
  induction fuel as [|fuel IH]; intros lag batches result w w' Hrun;
    destruct (Z.eq_dec (len batches) num_batches) as [Hdone | Hmore];
    try (rewrite retrieve_loop_exit in Hrun by assumption;
         injection Hrun as <- <-; exists [], [];
         rewrite app_nil_r; repeat split; constructor).
  - now apply retrieve_loop_no_fuel in Hrun.
  - apply retrieve_round_inv in Hrun as (next & w1 & _ & Hpoll & Hend); [| assumption].
    assert (exists taken more,
              queue_of queue_name w1 = taken ++ queue_of queue_name w'
              /\ Forall2 (fun m u => pickle_loads (body m) = Ok u) taken more
              /\ result = next ++ more) as (taken & more & Hq & Hall & ->).
    { destruct Hend as [(_ & -> & _ & Hsame) | (_ & _ & w4 & _ & Hsame & Hrun)].
      - exists [], []. rewrite app_nil_r, Hsame. repeat split; constructor.
      - apply IH in Hrun as (taken & more & Hq & Hall & ->).
        exists taken, more. rewrite <- Hsame. auto. }
    destruct Hpoll as [[-> Hsame] | (m & u & Hhead & _ & Hloads & ->)].
    + exists taken, more. rewrite <- Hsame. auto.
    + exists (m :: taken), (u :: more). rewrite Hhead, Hq.
      split; [reflexivity |]. split; [now constructor |].
      now rewrite <- app_assoc.
Qed.

(** X6. The collector only ever takes messages from the head of the queue,
    however long its polls take: the list it returns is, unit by unit and in
    order, what a prefix of the queue unpickles to, and the queue keeps the
    rest untouched. *)
Theorem retrieve_batches_takes_prefix
    (pickle_loads : bytes -> outcome DataBatch) (fuel : nat) (lag : nat -> nat)
    (connection : Connection) (queue_name : string)
    (num_batches wait_time terminate_time : Z) (w w' : World)
    (result : list DataBatch) :
  retrieve_batches pickle_loads fuel lag connection queue_name num_batches
                   wait_time terminate_time w = (Ok result, w') ->
  exists taken : list Msg,
    queue_of queue_name w = taken ++ queue_of queue_name w'
    /\ Forall2 (fun m u => pickle_loads (body m) = Ok u) taken result.
Proof.
  intros Hrun. rewrite retrieve_batches_prelude in Hrun.
  apply retrieve_loop_takes_prefix in Hrun as (taken & more & Hq & Hall & ->).
  exists taken. rewrite queue_of_collector_ready in Hq. split; assumption.
Qed.

(** Witness of X6: three results in the queue, two expected. *)
Lemma retrieve_batches_takes_prefix_witness :
  let w := world_with_results [msg_at 0 "a"; msg_at 0 "b"; msg_at 0 "c"] in
  let run := retrieve_batches id_loads 5 on_time BlockingConnection RESULTS_QUEUE
                              2 1 240 w in
  exists taken : list Msg,
    queue_of RESULTS_QUEUE w = taken ++ queue_of RESULTS_QUEUE (snd run)
    /\ Forall2 (fun m u => id_loads (body m) = Ok u) taken
               [plain_batch "a" "data"; plain_batch "b" "data"].
Proof.
  intros w run.
  apply (retrieve_batches_takes_prefix id_loads 5 on_time BlockingConnection
           RESULTS_QUEUE 2 1 240 w (snd run)).
  vm_compute. reflexivity.
Defined.

(** ** [higgs_manager.py]: more on [missing_batches] and its use in [main] *)

(** Every value of the dictionary of [missing_batches] is a batch of the
    expected list. *)
Lemma expected_map_members (expected : list DataBatch) :
  forall (d : gmap string DataBatch) (k : string) (b : DataBatch),
    foldl (fun d batch => <[batch_id batch := batch]> d) d expected !! k = Some b ->
    b ∈ expected \/ d !! k = Some b.
Proof.
  induction expected as [|x xs IH]; intros d k b Hk; cbn in Hk; [now right |].
  apply IH in Hk as [Hin | Hk]; [left; now right |].
  rewrite lookup_insert in Hk. case_decide; [| now right].
  injection Hk as <-. left. now left.
Qed.

(** The run of [missing_batches] in full: nothing is missing when every
    expected id was retrieved; otherwise the list holds, for each missing
    id, one batch of the expected list with that id. *)
Lemma missing_batches_run (E R : list DataBatch) :
  exists units,
    map batch_id units = elements (ids E ∖ ids R)
    /\ Forall (fun u => u ∈ E) units
    /\ missing_batches E R
       = if decide (ids E ⊆ ids R) then Ok None else Ok (Some units).
Proof.
  unfold missing_batches.
  destruct (expected_map_fold E ∅) as [Hkeys Hdom]; [intros k b; now rewrite lookup_empty |].
  cbn zeta in Hkeys, Hdom. rewrite dom_empty_L, (left_id_L ∅ (∪)) in Hdom.
  pose proof (expected_map_members E ∅) as Hmembers.
  set (d := foldl _ ∅ E) in *. fold (ids R). rewrite Hdom.
  destruct (mapM_outcome_Forall2 (dict_getitem d)
              (fun k b => batch_id b = k /\ b ∈ E) (elements (ids E ∖ ids R)))
    as (units & Hunits & Hall).
  { intros k Hk. apply elem_of_elements in Hk.
    assert (k ∈ dom d) as Hin by (rewrite Hdom; now apply elem_of_difference in Hk as [? _]).
    apply elem_of_dom in Hin as [b Hb]. exists b.
    unfold dict_getitem. rewrite Hb. split; [reflexivity |]. split; [eauto |].
    destruct (Hmembers k b Hb) as [? | Hempty]; [assumption |].
    now rewrite lookup_empty in Hempty. }
  exists units. split; [| split].
  - apply ids_of_keys. eapply Forall2_impl; [exact Hall |]. now intros k b [? _].
  - clear Hunits. induction Hall as [|k b ks bs [_ Hb] _ IH]; constructor; assumption.
  - rewrite Hunits. cbn.
    destruct (Z.eqb_spec (Z.of_nat (size (ids E ∖ ids R))) 0) as [Hz | Hnz];
      destruct (decide (ids E ⊆ ids R)) as [Hsub | Hnsub]; try reflexivity.
    + exfalso. apply Hnsub, difference_empty_subseteq.
      apply leibniz_equiv, size_empty_inv. lia.
    + exfalso. apply Hnz. apply difference_empty_subseteq in Hsub.
      now rewrite Hsub.
Qed.

(** X7. A list returned by [missing_batches] is never empty, holds each
    missing id exactly once, and is made of batches of the expected list (of
    the objects that were dispatched, not of copies). *)
Theorem missing_batches_lists_dispatched_units (E R missing : list DataBatch) :
  missing_batches E R = Ok (Some missing) ->
  missing <> []
  /\ NoDup (map batch_id missing)
  /\ Forall (fun u => u ∈ E) missing
  /\ length missing = size (ids E ∖ ids R)
  /\ (length missing <= length E)%nat.
Proof.
  intros Hrun. destruct (missing_batches_run E R) as (units & Hids & Hfrom & Hrun').
  rewrite Hrun in Hrun'. destruct (decide (ids E ⊆ ids R)) as [? | Hnsub];
    [discriminate |]. injection Hrun' as ->.
  assert (NoDup (map batch_id units)) as Hnodup
    by (rewrite Hids; apply NoDup_elements).
  assert (length units = size (ids E ∖ ids R)) as Hlen.
  { unfold size, set_size. cbn. rewrite <- Hids. now rewrite length_map. }
  split; [| split; [| split; [| split]]]; try assumption.
  - intros ->. apply Hnsub, difference_empty_subseteq.
    apply leibniz_equiv, size_empty_inv. now rewrite <- Hlen.
  - rewrite <- (length_map batch_id units), <- (length_map batch_id E).
    apply submseteq_length, NoDup_submseteq; [assumption |].
    intros k Hk. apply list_elem_of_fmap in Hk as (u & -> & Hu).
    apply list_elem_of_fmap_2. rewrite Forall_forall in Hfrom. now apply Hfrom.
Qed.

(** Witness of X7: three batches dispatched, one retrieved. *)
Lemma missing_batches_lists_dispatched_units_witness :
  let a := plain_batch "a" "data" in
  let b := plain_batch "b" "data" in
  let c := plain_batch "c" "data" in
  [c; b] <> []
  /\ NoDup (map batch_id [c; b])
  /\ Forall (fun u => u ∈ [a; b; c]) [c; b]
  /\ length [c; b] = size (ids [a; b; c] ∖ ids [a])
  /\ (length [c; b] <= length [a; b; c])%nat.
Proof.
  intros a b c.
  apply (missing_batches_lists_dispatched_units [a; b; c] [a] [c; b]).
  vm_compute. reflexivity.
Defined.

(** X8. In the coordinator the retrieved list is never longer than the
    dispatched one; if moreover the dispatched ids are distinct,
    [missing_batches] returns [None] exactly when the retrieved ids are the
    dispatched ids. *)
Theorem missing_batches_none_iff_same_ids (E R : list DataBatch) :
  NoDup (map batch_id E) ->
  (length R <= length E)%nat ->
  (missing_batches E R = Ok None <-> ids R = ids E).
Proof.
  intros Hnodup Hlen.
  destruct (missing_batches_run E R) as (units & _ & _ & Hrun). rewrite Hrun.
  destruct (decide (ids E ⊆ ids R)) as [Hsub | Hnsub].
  - split; [intros _ | reflexivity].
    assert (map batch_id E ≡ₚ map batch_id R) as Hperm.
    { apply submseteq_length_Permutation; [| rewrite !length_map; lia].
      apply NoDup_submseteq; [assumption |]. intros k Hk.
      apply (elem_of_list_to_set (C := gset string)).
      apply Hsub. now apply elem_of_list_to_set. }
    apply leibniz_equiv. intros k. unfold ids.
    rewrite !elem_of_list_to_set. now rewrite Hperm.
  - split; [discriminate |]. intros Heq. exfalso. apply Hnsub. now rewrite Heq.
Qed.

(** Witness of X8: two batches dispatched, the same two retrieved in the
    other order. *)
Lemma missing_batches_none_iff_same_ids_witness :
  let a := plain_batch "a" "data" in
  let b := plain_batch "b" "data" in
  missing_batches [a; b] [b; a] = Ok None <-> ids [b; a] = ids [a; b].
Proof.
  intros a b.
  apply (missing_batches_none_iff_same_ids [a; b] [b; a]).
  - apply (bool_decide_unpack (NoDup (map batch_id [a; b]))). vm_compute. exact I.
  - cbn. lia.
Defined.

(** X9. Lines 59-79 of [main] let a run through only when nothing is
    missing: [report_missing] returns normally exactly when every dispatched
    id is among the retrieved ones, and then it has printed nothing. *)
Theorem report_missing_passes_only_complete_runs
    (batches processed_batches : list DataBatch) (w w' : World) :
  report_missing batches processed_batches w = (Ok tt, w')
  <-> (w' = w /\ ids batches ⊆ ids processed_batches).
Proof.
  unfold report_missing.
  destruct (missing_batches_run batches processed_batches) as (units & _ & _ & Hrun).
  destruct (decide (ids batches ⊆ ids processed_batches)) as [Hsub | Hnsub].
  - rewrite (bind_Ok _ _ w w None) by (unfold lift; now rewrite Hrun).
    split; [intros [= <-]; auto | intros [-> _]; reflexivity].
  - rewrite (bind_Ok _ _ w w (Some units)) by (unfold lift; now rewrite Hrun).
    split; [| intros [_ ?]; contradiction].
    destruct (len batches / 2 <? len units); intros Hok;
      apply bind_inv_Ok in Hok as (? & w1 & _ & Hok).
    + discriminate Hok.
    + apply bind_inv_Ok in Hok as (? & w2 & Hiter & _). discriminate Hiter.
Qed.

(** ** [higgs_manager.py]: more on [group_batches] and the checks of [main] *)

Lemma ak_concatenate_Ok_iff (arrays : list (option (list Event))) (data : list Event) :
  ak_concatenate arrays = Ok data
  <-> arrays <> [] /\ Forall is_Some arrays /\ data = concat (omap id arrays).
Proof.
  unfold ak_concatenate.
  destruct (existsb _ arrays) eqn:Hnone.
  - split; [discriminate |]. intros (_ & Hall & _). exfalso.
    apply existsb_exists in Hnone as (a & Ha & Hna).
    apply list_elem_of_In in Ha. rewrite Forall_forall in Hall.
    destruct (Hall a Ha) as [x ->]. discriminate.
  - assert (Forall is_Some arrays) as Hall.
    { apply Forall_forall. intros a Ha. destruct a as [x |]; [eauto |].
      exfalso. apply list_elem_of_In in Ha.
      assert (existsb (fun a => match a with None => true | Some _ => false end)
                      arrays = true) as Hex
        by (apply existsb_exists; exists None; auto).
      congruence. }
    destruct arrays as [|a arrays].
    + split; [discriminate | intros (? & _); contradiction].
    + split; [intros [= <-]; auto | intros (_ & _ & ->); reflexivity].
Qed.

Lemma sample_arrays_events (batches : list DataBatch) (name : string) :
  concat (omap id (map processed_data (batches_of batches name)))
  = sample_events batches name.
Proof.
  unfold sample_events. f_equal.
  induction (batches_of batches name) as [|b bs IH]; [reflexivity |].
  cbn. destruct (processed_data b); cbn; now rewrite IH.
Qed.

(** A sample can be grouped when one batch at least belongs to it and each
    of its batches carries processed data. *)
Lemma sample_can_be_grouped (batches : list DataBatch) (name : string) :
  (exists data,
     ak_concatenate (map processed_data (batches_of batches name)) = Ok data)
  <-> (exists b, b ∈ batches /\ sample b = name)
      /\ (forall b, b ∈ batches -> sample b = name -> processed_data b <> None).
Proof.
  split.
  - intros (data & Hdata). apply ak_concatenate_Ok_iff in Hdata as (Hne & Hall & _).
    split.
    + destruct (batches_of batches name) as [|b bs] eqn:Hof; [contradiction |].
      assert (b ∈ batches_of batches name) as Hb by (rewrite Hof; left).
      apply list_elem_of_filter in Hb as [? ?]. eauto.
    + intros b Hb Hname Hnone. rewrite Forall_forall in Hall.
      destruct (Hall (processed_data b)) as [x Hx]; [| congruence].
      apply list_elem_of_fmap_2. now apply list_elem_of_filter.
  - intros ((b & Hb & Hname) & Hdata). eexists. apply ak_concatenate_Ok_iff.
    split; [| split; [| reflexivity]].
    + intros Hnil. apply fmap_nil_inv in Hnil.
      assert (b ∈ batches_of batches name) as Hin by (now apply list_elem_of_filter).
      rewrite Hnil in Hin. now apply elem_of_nil in Hin.
    + apply Forall_forall. intros a Ha.
      apply list_elem_of_fmap in Ha as (b' & -> & Hb').
      apply list_elem_of_filter in Hb' as [Hname' Hb'].
      destruct (processed_data b') eqn:Hd; [eauto |].
      exfalso. now apply (Hdata b' Hb' Hname').
Qed.

(** The loop of [group_batches] in full. *)
Lemma group_batches_loop_Ok_iff (batches : list DataBatch) :
  forall (names : list string) (d0 d : gmap string (list Event)),
    group_batches_loop batches names d0 = Ok d
    <-> (forall name, name ∈ names ->
           exists data,
             ak_concatenate (map processed_data (batches_of batches name)) = Ok data)
        /\ d = foldl (fun d name => <[name := sample_events batches name]> d) d0 names.
Proof.
  induction names as [|n names IH]; intros d0 d; cbn [group_batches_loop foldl].
  - split.
    + intros [= <-]. split; [| reflexivity]. intros name Hin.
      now apply elem_of_nil in Hin.
    + intros [_ ->]. reflexivity.
  - fold (batches_of batches n).
    destruct (ak_concatenate (map processed_data (batches_of batches n)))
      as [data | e |] eqn:Hn; cbn.
    + pose proof Hn as Hdata. apply ak_concatenate_Ok_iff in Hdata as (_ & _ & ->).
      rewrite sample_arrays_events. rewrite IH. split.
      * intros [Hall ->]. split; [| reflexivity]. intros name Hin.
        apply elem_of_cons in Hin as [-> | Hin]; [eauto | now apply Hall].
      * intros [Hall ->]. split; [| reflexivity]. intros name Hin.
        apply Hall. now right.
    + split; [discriminate |]. intros [Hall _].
      destruct (Hall n) as [data Hdata]; [left |]. congruence.
    + split; [discriminate |]. intros [Hall _].
      destruct (Hall n) as [data Hdata]; [left |]. congruence.
Qed.

Lemma grouped_lookup (batches : list DataBatch) :
  forall (names : list string) (d0 : gmap string (list Event)) (name : string),
    foldl (fun d name => <[name := sample_events batches name]> d) d0 names !! name
    = if decide (name ∈ names) then Some (sample_events batches name)
      else d0 !! name.
Proof.
  induction names as [|n names IH]; intros d0 name; cbn [foldl].
  - destruct (decide (name ∈ [])) as [Hin | _]; [now apply elem_of_nil in Hin |].
    reflexivity.
  - rewrite IH. destruct (decide (name ∈ names)) as [Hin | Hnin].
    + destruct (decide (name ∈ n :: names)) as [_ | Hn]; [reflexivity |].
      exfalso. apply Hn. now right.
    + rewrite lookup_insert. destruct (decide (n = name)) as [-> | Hne].
      * destruct (decide (name ∈ name :: names)) as [_ | Hn]; [reflexivity |].
        exfalso. apply Hn. left.
      * destruct (decide (name ∈ n :: names)) as [Hn | _]; [| reflexivity].
        apply elem_of_cons in Hn as [-> | ?]; contradiction.
Qed.

(** X10. [group_batches] succeeds exactly when every sample of the
    configuration has at least one retrieved batch and every retrieved batch
    of a configured sample carries processed data. *)
Theorem group_batches_succeeds_iff (batches : list DataBatch)
    (samples : list (string * SampleInfo)) :
  (exists samples_data, group_batches batches samples = Ok samples_data)
  <-> forall name, name ∈ map fst samples ->
        (exists b, b ∈ batches /\ sample b = name)
        /\ (forall b, b ∈ batches -> sample b = name -> processed_data b <> None).
Proof.
  unfold group_batches. split.
  - intros (d & Hd) name Hname.
    apply group_batches_loop_Ok_iff in Hd as [Hall _].
    apply sample_can_be_grouped. now apply Hall.
  - intros Hall. eexists. apply group_batches_loop_Ok_iff.
    split; [| reflexivity]. intros name Hname.
    apply sample_can_be_grouped. now apply Hall.
Qed.

(** X11. When [group_batches] succeeds, its dictionary has exactly the
    samples of the configuration as keys, and under each the events of the
    retrieved batches of that sample, put end to end in the order the batches
    were retrieved. A batch is counted as often as it was retrieved, and
    batches of other samples are left out. *)
Theorem group_batches_groups_in_arrival_order (batches : list DataBatch)
    (samples : list (string * SampleInfo))
    (samples_data : gmap string (list Event)) :
  group_batches batches samples = Ok samples_data ->
  forall name,
    samples_data !! name
    = if decide (name ∈ map fst samples) then Some (sample_events batches name)
      else None.
Proof.
  unfold group_batches. intros Hd name.
  apply group_batches_loop_Ok_iff in Hd as [_ ->].
  rewrite grouped_lookup. now rewrite lookup_empty.
Qed.

(** Witness of X11: two batches of one sample, one of them retrieved twice,
    and a batch of a sample that is not configured. *)
Lemma group_batches_groups_in_arrival_order_witness :
  let e1 := mkEvent 91 None in
  let e2 := mkEvent 125 None in
  let a := set_processed_data (plain_batch "a" "data") [e1] in
  let b := set_processed_data (plain_batch "b" "data") [e2] in
  let c := set_processed_data (plain_batch "c" "other") [e1; e2] in
  let batches := [b; c; a; b] in
  let samples := [("data", mkSampleInfo ["data_A"] None)] in
  let samples_data := ({["data" := [e2; e1; e2]]} : gmap string (list Event)) in
  group_batches batches samples = Ok samples_data
  /\ samples_data !! "data"
     = (if decide ("data" ∈ map fst samples)
        then Some (sample_events batches "data") else None)
  /\ samples_data !! "other"
     = (if decide ("other" ∈ map fst samples)
        then Some (sample_events batches "other") else None).
Proof.
  intros e1 e2 a b c batches samples samples_data.
  assert (group_batches batches samples = Ok samples_data) as Hrun
    by (vm_compute; reflexivity).
  split; [exact Hrun |].
  split; apply (group_batches_groups_in_arrival_order batches samples _ Hrun).
Defined.

Lemma and_then_all_nil (w : World) : and_then_all w [] = w.
Proof. destruct w. unfold and_then_all. cbn. now rewrite app_nil_r. Qed.

Lemma and_then_all_cons (w : World) (e : Effect) (es : list Effect) :
  and_then_all (and_then w e) es = and_then_all w (e :: es).
Proof. unfold and_then_all, and_then. cbn. now rewrite <- app_assoc. Qed.

(** The loop of lines 85-93 over samples that all have events. *)
Lemma check_samples_pass (samples_data : gmap string (list Event)) :
  forall (samples : list (string * SampleInfo)) (w : World),
    (forall name, name ∈ map fst samples ->
       exists data, samples_data !! name = Some data /\ len data <> 0) ->
    check_samples samples_data samples w
    = (Ok tt, and_then_all w (low_warnings samples_data (map fst samples))).
Proof.
  unfold check_samples.
  induction samples as [|[name info] samples IH]; intros w Hall; cbn [map fst for_each].
  - cbn. now rewrite and_then_all_nil.
  - destruct (Hall name) as (data & Hdata & Hlen); [left |].
    unfold low_warnings. cbn [omap list_omap]. rewrite Hdata.
    unfold mbind at 1, M_bind at 1. unfold mbind at 1, M_bind at 1.
    unfold lift, dict_getitem. rewrite Hdata.
    destruct (Z.eqb_spec (len data) 0) as [? | _]; [contradiction |].
    destruct (len data <? 50).
    + rewrite print_run, IH by (intros n Hn; apply Hall; now right).
      now rewrite and_then_all_cons.
    + unfold mret, M_ret. rewrite IH by (intros n Hn; apply Hall; now right).
      reflexivity.
Qed.

(** X12. When every sample has events, the checks of lines 84-93 let the run
    go on and print, in the order of the configuration, one warning for each
    sample with fewer than 50 events and nothing else. *)
Theorem check_samples_warns_in_order (samples_data : gmap string (list Event))
    (samples : list (string * SampleInfo)) (w : World) :
  (forall name, name ∈ map fst samples ->
     exists data, samples_data !! name = Some data /\ len data <> 0) ->
  check_samples samples_data samples w
  = (Ok tt, and_then_all w (low_warnings samples_data (map fst samples)))
  /\ Forall (fun e => exists name data,
               e = Print ("warning: less than 50 events for sample - " +:+ name)
               /\ name ∈ map fst samples
               /\ samples_data !! name = Some data /\ len data < 50)
            (low_warnings samples_data (map fst samples)).
Proof.
  intros Hall. split; [now apply check_samples_pass |].
  apply Forall_forall. intros e He. unfold low_warnings in He.
  apply list_elem_of_omap in He as (name & Hname & He).
  destruct (samples_data !! name) as [data |] eqn:Hdata; [| discriminate].
  destruct (Z.ltb_spec (len data) 50) as [Hlow | _]; [| discriminate].
  injection He as <-. exists name, data. auto.
Qed.

(** Witness of X12: one sample of 60 events and one of 2. *)
Lemma check_samples_warns_in_order_witness :
  let d : gmap string (list Event) :=
    {["data" := replicate 60 (mkEvent 125 None);
      "Background $ZZ^*$" := replicate 2 (mkEvent 91 None)]} in
  let samples := [("data", mkSampleInfo ["data_A"] None);
                  ("Background $ZZ^*$", mkSampleInfo ["llll"] None)] in
  let w := fresh_world [] in
  check_samples d samples w
  = (Ok tt, and_then_all w (low_warnings d (map fst samples)))
  /\ Forall (fun e => exists name data,
               e = Print ("warning: less than 50 events for sample - " +:+ name)
               /\ name ∈ map fst samples
               /\ d !! name = Some data /\ len data < 50)
            (low_warnings d (map fst samples)).
Proof.
  intros d samples w.
  apply (check_samples_warns_in_order d samples w).
  intros name Hname. apply elem_of_cons in Hname as [-> | Hname].
  - eexists. split; [vm_compute; reflexivity | vm_compute; discriminate].
  - apply list_elem_of_singleton in Hname as ->.
    eexists. split; [vm_compute; reflexivity | vm_compute; discriminate].
Defined.

(** X13. The first sample without any event ends the run: the warnings of
    the samples before it have been printed, then the error line naming it,
    and the exit status is 1; the samples after it are not looked at. *)
Theorem check_samples_stops_at_first_empty_sample
    (samples_data : gmap string (list Event))
    (before after : list (string * SampleInfo)) (name : string) (info : SampleInfo)
    (w : World) :
  (forall n, n ∈ map fst before ->
     exists data, samples_data !! n = Some data /\ len data <> 0) ->
  samples_data !! name = Some [] ->
  check_samples samples_data (before ++ (name, info) :: after) w
  = (Raise (SystemExit 1),
     and_then_all w (low_warnings samples_data (map fst before)
                       ++ [Print ("error: no data for sample - " +:+ name)])).
Proof.
  intros Hbefore Hempty. revert w.
  unfold check_samples.
  induction before as [|[n i] before IH]; intros w; cbn [app map fst for_each].
  - unfold mbind at 1, M_bind at 1. unfold mbind at 1, M_bind at 1.
    unfold lift, dict_getitem. rewrite Hempty. reflexivity.
  - destruct (Hbefore n) as (data & Hdata & Hlen); [left |].
    assert (forall n', n' ∈ map fst before ->
              exists data, samples_data !! n' = Some data /\ len data <> 0) as Hrest
      by (intros n' Hn'; apply Hbefore; now right).
    unfold low_warnings. cbn [omap list_omap]. rewrite Hdata.
    unfold mbind at 1, M_bind at 1. unfold mbind at 1, M_bind at 1.
    unfold lift, dict_getitem. rewrite Hdata.
    destruct (Z.eqb_spec (len data) 0) as [? | _]; [contradiction |].
    destruct (len data <? 50).
    + rewrite print_run, (IH Hrest). now rewrite and_then_all_cons.
    + unfold mret, M_ret. now rewrite (IH Hrest).
Qed.

(** Witness of X13: a sample of 2 events, then one without events, then one
    that is not in the dictionary at all. *)
Lemma check_samples_stops_at_first_empty_sample_witness :
  let d : gmap string (list Event) :=
    {["data" := replicate 2 (mkEvent 125 None); "Background $ZZ^*$" := []]} in
  let w := fresh_world [] in
  check_samples d ([("data", mkSampleInfo ["data_A"] None)]
                     ++ ("Background $ZZ^*$", mkSampleInfo ["llll"] None)
                     :: [("absent", mkSampleInfo [] None)]) w
  = (Raise (SystemExit 1),
     and_then_all w (low_warnings d (map fst [("data", mkSampleInfo ["data_A"] None)])
                       ++ [Print ("error: no data for sample - "
                                  +:+ "Background $ZZ^*$")])).
Proof.
  intros d w.
  apply (check_samples_stops_at_first_empty_sample d
           [("data", mkSampleInfo ["data_A"] None)]
           [("absent", mkSampleInfo [] None)]
           "Background $ZZ^*$" (mkSampleInfo ["llll"] None) w).
  - intros n Hn. apply list_elem_of_singleton in Hn as ->.
    eexists. split; [vm_compute; reflexivity | vm_compute; discriminate].
  - vm_compute. reflexivity.
Defined.

(** ** [higgs_manager.py]: more on [data_batcher] *)

Lemma mapM_cons_inv {A B : Type} (f : A -> M B) (x : A) (xs : list A)
    (w w' : World) (r : list B) :
  mapM f (x :: xs) w = (Ok r, w') ->
  exists y ys w1, f x w = (Ok y, w1) /\ mapM f xs w1 = (Ok ys, w') /\ r = y :: ys.
Proof.
  cbn [mapM]. intros Hrun.
  apply bind_inv_Ok in Hrun as (y & w1 & Hy & Hrun).
  apply bind_inv_Ok in Hrun as (ys & w2 & Hys & Hrun).
  injection Hrun as <- <-. eauto 6.
Qed.

(** What holds of each result of the body holds of every result of a
    [mapM] that ends well. *)
Lemma mapM_Ok_Forall {A B : Type} (f : A -> M B) (P : B -> Prop) :
  forall (xs : list A) (w w' : World) (ys : list B),
    (forall x w0 y w1, x ∈ xs -> f x w0 = (Ok y, w1) -> P y) ->
    mapM f xs w = (Ok ys, w') ->
    Forall P ys.
Proof.
  induction xs as [|x xs IH]; intros w w' ys Hf Hrun.
  - injection Hrun as <- _. constructor.
  - apply mapM_cons_inv in Hrun as (y & ys' & w1 & Hy & Hys & ->).
    constructor; [eapply Hf; [left | exact Hy] |].
    eapply IH; [| exact Hys]. intros x' w0 y' w2 Hin. apply Hf. now right.
Qed.

Section BatcherRuns.

Variable uuid4 : nat -> string.
Variable infofile_DSID : string -> outcome string.
Variable tree_num_entries : string -> outcome Z.

Lemma draws_nil (w : World) : draws uuid4 w [] w.
Proof. unfold draws. cbn. split; [reflexivity | lia]. Qed.

Lemma draws_app (w1 w2 w3 : World) (xs ys : list DataBatch) :
  draws uuid4 w1 xs w2 -> draws uuid4 w2 ys w3 -> draws uuid4 w1 (xs ++ ys) w3.
Proof.
  unfold draws. intros [Hx Hc] [Hy Hc']. rewrite map_app, length_app, seq_app, map_app.
  rewrite Hx, Hy, Hc, Hc'. split; [reflexivity | lia].
Qed.

(** A [mapM] over bodies that draw the identifiers of their units draws the
    identifiers of all the units, in order. *)
Lemma mapM_concat_draws {A : Type} (f : A -> M (list DataBatch)) :
  (forall x w ys w', f x w = (Ok ys, w') -> draws uuid4 w ys w') ->
  forall (xs : list A) (w w' : World) (yss : list (list DataBatch)),
    mapM f xs w = (Ok yss, w') -> draws uuid4 w (concat yss) w'.
Proof.
  intros Hf. induction xs as [|x xs IH]; intros w w' yss Hrun.
  - injection Hrun as <- <-. apply draws_nil.
  - apply mapM_cons_inv in Hrun as (y & ys & w1 & Hy & Hys & ->).
    cbn [concat]. eapply draws_app; eauto.
Qed.

Lemma batch_subsample_draws (name subsample sample_type path_subsample : string)
    (num_events batch_size : Z) (w w' : World) (units : list DataBatch) :
  batch_subsample uuid4 name subsample sample_type path_subsample
                  num_events batch_size w = (Ok units, w') ->
  draws uuid4 w units w'.
Proof.
  unfold batch_subsample. intros Hrun.
  apply bind_inv_Ok in Hrun as (starts & w0 & Hstarts & Hrun).
  assert (w0 = w) as -> by (unfold lift in Hstarts; now injection Hstarts).
  clear Hstarts. revert w w' units Hrun.
  induction starts as [|s starts IH]; intros w w' units Hrun.
  - injection Hrun as <- <-. apply draws_nil.
  - apply mapM_cons_inv in Hrun as (u & us & w1 & Hu & Hus & ->).
    apply bind_inv_Ok in Hu as (fr & w2 & Hfr & Hu).
    assert (w2 = w) as -> by (unfold lift in Hfr; now injection Hfr).
    apply bind_inv_Ok in Hu as (id & w3 & Hid & Hu).
    injection Hu as <- <-. injection Hid as <- <-.
    eapply draws_app with (xs := [_]); [| apply IH; exact Hus].
    unfold draws. cbn. split; [reflexivity | lia].
Qed.

Lemma batch_one_draws (path : string) (fraction : float) (batch_size : Z)
    (name subsample : string) (w w' : World) (units : list DataBatch) :
  batch_one uuid4 infofile_DSID tree_num_entries path fraction batch_size
            name subsample w = (Ok units, w') ->
  draws uuid4 w units w'.
Proof.
  unfold batch_one. intros Hrun.
  apply bind_inv_Ok in Hrun as ([sample_type prefix] & w0 & Hkind & Hrun).
  assert (w0 = w) as ->.
  { destruct (String.eqb name "data").
    - now injection Hkind.
    - apply bind_inv_Ok in Hkind as (dsid & w1 & Hdsid & Hkind).
      unfold lift in Hdsid. injection Hkind as _ _ <-. now injection Hdsid. }
  apply bind_inv_Ok in Hrun as (T & w1 & HT & Hrun).
  assert (w1 = w) as -> by (unfold lift in HT; now injection HT).
  apply bind_inv_Ok in Hrun as (N & w2 & HN & Hrun).
  assert (w2 = w) as -> by (unfold lift in HN; now injection HN).
  now apply batch_subsample_draws in Hrun.
Qed.

Lemma data_batcher_draws (samples : list (string * SampleInfo)) (path : string)
    (fraction : float) (batch_size : Z) (w w' : World) (batches : list DataBatch) :
  data_batcher uuid4 infofile_DSID tree_num_entries samples path fraction
               batch_size w = (Ok batches, w') ->
  draws uuid4 w batches w'.
Proof.
  unfold data_batcher. intros Hrun.
  apply bind_inv_Ok in Hrun as (per_sample & w1 & Hper & Hrun).
  injection Hrun as <- <-.
  revert Hper. apply mapM_concat_draws.
  intros item w0 ys w2 Hitem.
  apply bind_inv_Ok in Hitem as (per_subsample & w3 & Hsub & Hitem).
  injection Hitem as <- <-.
  revert Hsub. apply mapM_concat_draws.
  intros subsample w4 units w5. apply batch_one_draws.
Qed.

End BatcherRuns.

(** X14. The batches of one call of [data_batcher] carry the identifiers
    drawn during the call, one each, in the order of the list; so if the
    generator never repeats a value, no two batches share an id. *)
Theorem data_batcher_ids_are_distinct (uuid4 : nat -> string)
    (infofile_DSID : string -> outcome string) (tree_num_entries : string -> outcome Z)
    (samples : list (string * SampleInfo)) (path : string) (fraction : float)
    (batch_size : Z) (w w' : World) (batches : list DataBatch) :
  (forall m n, uuid4 m = uuid4 n -> m = n) ->
  data_batcher uuid4 infofile_DSID tree_num_entries samples path fraction
               batch_size w = (Ok batches, w') ->
  NoDup (map batch_id batches)
  /\ map batch_id batches = map uuid4 (seq (uuid_count w) (length batches))
  /\ uuid_count w' = (uuid_count w + length batches)%nat.
Proof.
  intros Hinj Hrun. apply data_batcher_draws in Hrun as [Hids Hcount].
  split; [| split; assumption].
  rewrite Hids.
  assert (Inj (=) (=) uuid4) as Hinj' by (intros m n; apply Hinj).
  apply (NoDup_fmap_2 uuid4). apply NoDup_seq.
Qed.

Lemma nth_id_inj (m n : nat) : nth_id m = nth_id n -> m = n.
Proof.
  unfold nth_id. intros H.
  assert (forall a b : string, "id-" +:+ a = "id-" +:+ b -> a = b) as Hcut
    by (intros a b Hab; cbn in Hab; now injection Hab).
  apply Hcut in H. now apply (inj pretty) in H.
Qed.

(** Witness of X14: the job of the configuration, with the stand-ins. *)
Lemma data_batcher_ids_are_distinct_witness :
  exists batches w',
    data_batcher nth_id any_DSID any_num_entries SAMPLES PATH FRACTION BATCH_SIZE
                 (fresh_world []) = (Ok batches, w')
    /\ NoDup (map batch_id batches)
    /\ map batch_id batches
       = map nth_id (seq (uuid_count (fresh_world [])) (length batches))
    /\ uuid_count w' = (uuid_count (fresh_world []) + length batches)%nat.
Proof.
  eexists _, _. split; [vm_compute; reflexivity |].
  apply (data_batcher_ids_are_distinct nth_id any_DSID any_num_entries SAMPLES PATH
           FRACTION BATCH_SIZE (fresh_world []));
    [exact nth_id_inj | vm_compute; reflexivity].
Defined.

Section BatcherUnits.

Variable uuid4 : nat -> string.
Variable infofile_DSID : string -> outcome string.
Variable tree_num_entries : string -> outcome Z.

(** The units of the inner loop, field by field. *)
Lemma batch_subsample_units (name sub kind file : string) (N B : Z)
    (w w' : World) (units : list DataBatch) :
  0 < B ->
  batch_subsample uuid4 name sub kind file N B w = (Ok units, w') ->
  Forall (fun u =>
            sample u = name /\ subsample u = sub /\ sample_type u = kind
            /\ path u = file /\ processed_data u = None
            /\ 0 <= start_index u /\ start_index u < stop_index u
            /\ stop_index u <= N /\ stop_index u - start_index u <= B
            /\ py_truediv (stop_index u - start_index u) N = Ok (fraction u))
         units.
Proof.
  intros HB Hrun. unfold batch_subsample in Hrun.
  apply bind_inv_Ok in Hrun as (starts & w0 & Hstarts & Hrun).
  unfold lift in Hstarts. rewrite py_range_batch_starts in Hstarts by assumption.
  injection Hstarts as <- <-.
  eapply mapM_Ok_Forall; [| exact Hrun].
  intros s w0 u w1 Hs Hu. cbn beta zeta in Hu.
  apply list_elem_of_lookup in Hs as [k Hk].
  apply batch_starts_lookup in Hk as [_ Hrange]; [| assumption].
  apply bind_inv_Ok in Hu as (fr & w2 & Hfr & Hu).
  apply bind_inv_Ok in Hu as (id & w3 & _ & Hu).
  injection Hu as <- _. unfold lift in Hfr.
  destruct (py_truediv (Z.min (s + B) N - s) N) as [q | |] eqn:Hq; try discriminate.
  injection Hfr as <- _.
  cbn. repeat split; try reflexivity; try lia. exact Hq.
Qed.

(** The units of one subsample, and the file they point into. *)
Lemma batch_one_units (root : string) (f : float) (B : Z) (name sub : string)
    (w w' : World) (units : list DataBatch) :
  0 < B ->
  batch_one uuid4 infofile_DSID tree_num_entries root f B name sub w
    = (Ok units, w') ->
  Forall (fun u =>
            sample u = name /\ subsample u = sub
            /\ sample_type u
               = (if String.eqb name "data" then "measured" else "monte-carlo")
            /\ processed_data u = None
            /\ 0 <= start_index u /\ start_index u < stop_index u
            /\ stop_index u - start_index u <= B
            /\ exists T, tree_num_entries (path u +:+ ":mini") = Ok T
                         /\ stop_index u <= T)
         units.
Proof.
  intros HB Hrun. unfold batch_one in Hrun.
  apply bind_inv_Ok in Hrun as ([kind prefix] & w0 & Hkind & Hrun).
  assert (kind = if String.eqb name "data" then "measured" else "monte-carlo")
    as ->.
  { destruct (String.eqb name "data").
    - now injection Hkind.
    - apply bind_inv_Ok in Hkind as (dsid & w1 & _ & Hkind). now injection Hkind. }
  apply bind_inv_Ok in Hrun as (T & w1 & HT & Hrun).
  unfold lift in HT.
  destruct (tree_num_entries ((root +:+ prefix +:+ sub +:+ ".4lep.root") +:+ ":mini"))
    as [T' | |] eqn:Htree; try discriminate.
  injection HT as -> _.
  apply bind_inv_Ok in Hrun as (N & w2 & HN & Hrun).
  unfold lift in HN.
  destruct (num_events_of T f) as [N' | |] eqn:Hnum; try discriminate.
  injection HN as -> _. apply num_events_of_le in Hnum.
  apply batch_subsample_units in Hrun; [| assumption].
  eapply Forall_impl; [exact Hrun |]. cbn beta.
  intros u (Hs & Hsub & Hkind' & Hpath & Hdata & H0 & Hlt & Hstop & Hsize & _).
  repeat split; try assumption.
  exists T. rewrite Hpath. split; [exact Htree |]. lia.
Qed.

Lemma data_batcher_units (samples : list (string * SampleInfo)) (root : string)
    (f : float) (B : Z) (w w' : World) (batches : list DataBatch) :
  0 < B ->
  data_batcher uuid4 infofile_DSID tree_num_entries samples root f B w
    = (Ok batches, w') ->
  Forall (fun u =>
            (exists info, (sample u, info) ∈ samples
                          /\ subsample u ∈ sample_list info)
            /\ sample_type u
               = (if String.eqb (sample u) "data" then "measured" else "monte-carlo")
            /\ processed_data u = None
            /\ 0 <= start_index u /\ start_index u < stop_index u
            /\ stop_index u - start_index u <= B
            /\ exists T, tree_num_entries (path u +:+ ":mini") = Ok T
                         /\ stop_index u <= T)
         batches.
Proof.
  intros HB Hrun. unfold data_batcher in Hrun.
  apply bind_inv_Ok in Hrun as (per_sample & w1 & Hper & Hrun).
  injection Hrun as <- _. apply Forall_concat.
  eapply mapM_Ok_Forall; [| exact Hper].
  intros [name info] w2 ys w3 Hitem Hys. cbn [fst snd] in Hys.
  apply bind_inv_Ok in Hys as (per_subsample & w4 & Hsub & Hys).
  injection Hys as <- _. apply Forall_concat.
  eapply mapM_Ok_Forall; [| exact Hsub].
  intros sub w5 units w6 Hin Hunits. cbn beta in Hunits.
  apply batch_one_units in Hunits; [| assumption].
  eapply Forall_impl; [exact Hunits |]. cbn beta.
  intros u (Hs & Hsubs & Hkind & Hrest). rewrite Hs.
  split; [| split; [exact Hkind | exact Hrest]].
  exists info. rewrite Hsubs. split; assumption.
Qed.

End BatcherUnits.

(** X15. Every unit of a job that [data_batcher] returns, for a positive
    batch size, belongs to a sample and a subsample of the configuration, is
    "measured" exactly when its sample is "data", has no processed data yet,
    and covers a non-empty range of at most [batch_size] events that lies
    within the entries of its file. *)
Theorem data_batcher_units_are_well_formed (uuid4 : nat -> string)
    (infofile_DSID : string -> outcome string) (tree_num_entries : string -> outcome Z)
    (samples : list (string * SampleInfo)) (root : string) (f : float) (B : Z)
    (w w' : World) (batches : list DataBatch) (u : DataBatch) :
  0 < B ->
  data_batcher uuid4 infofile_DSID tree_num_entries samples root f B w
    = (Ok batches, w') ->
  u ∈ batches ->
  (exists info, (sample u, info) ∈ samples /\ subsample u ∈ sample_list info)
  /\ (sample_type u = "measured" <-> sample u = "data")
  /\ processed_data u = None
  /\ 0 <= start_index u /\ start_index u < stop_index u
  /\ stop_index u - start_index u <= B
  /\ exists T, tree_num_entries (path u +:+ ":mini") = Ok T /\ stop_index u <= T.
Proof.
  intros HB Hrun Hu.
  apply data_batcher_units in Hrun; [| assumption].
  rewrite Forall_forall in Hrun.
  destruct (Hrun u Hu) as (Hconf & Hkind & Hrest).
  split; [exact Hconf |]. split; [| exact Hrest].
  rewrite Hkind. destruct (String.eqb_spec (sample u) "data") as [-> | Hne].
  - split; reflexivity.
  - split; [discriminate | contradiction].
Qed.

(** Witness of X15: the second unit of the job of the configuration. *)
Lemma data_batcher_units_are_well_formed_witness :
  exists u,
    dispatched_job !! 1%nat = Some u
    /\ (exists info, (sample u, info) ∈ SAMPLES /\ subsample u ∈ sample_list info)
    /\ (sample_type u = "measured" <-> sample u = "data")
    /\ processed_data u = None
    /\ 0 <= start_index u /\ start_index u < stop_index u
    /\ stop_index u - start_index u <= BATCH_SIZE
    /\ exists T, any_num_entries (path u +:+ ":mini") = Ok T /\ stop_index u <= T.
Proof.
  eexists. split; [vm_compute; reflexivity |].
  eapply (data_batcher_units_are_well_formed nth_id any_DSID any_num_entries
            SAMPLES PATH FRACTION BATCH_SIZE (fresh_world []) _ dispatched_job).
  - reflexivity.
  - vm_compute. reflexivity.
  - apply list_elem_of_lookup. exists 1%nat. vm_compute. reflexivity.
Defined.



(** ** [higgs_worker.py]: [retrieve_batch] *)

Section WorkerPolls.

Variable pickle_loads : bytes -> outcome DataBatch.

Lemma basic_get_nothing (queue_name : string) (auto_ack : bool) (w : World) :
  silent_until (clock w) queue_name w ->
  basic_get queue_name auto_ack w
  = (Ok None, and_then w (BasicGet queue_name auto_ack None)).
Proof.
  unfold silent_until, queue_of, basic_get. intros Hs.
  destruct (default [] (queues w !! queue_name)) as [|m rest]; [reflexivity |].
  destruct (Z.leb_spec (available_at m) (clock w)); [lia | reflexivity].
Qed.

Lemma basic_get_delivers (queue_name : string) (w : World) (m : Msg) (rest : list Msg) :
  queue_of queue_name w = m :: rest ->
  available_at m <= clock w ->
  basic_get queue_name false w
  = (Ok (Some (next_tag w, body m)), after_delivery queue_name 0 0 m rest w).
Proof.
  unfold queue_of, basic_get, after_delivery. intros -> Hm.
  destruct (Z.leb_spec (available_at m) (clock w)); [| lia].
  cbn. now rewrite Z.add_0_r.
Qed.


(** The loop of [retrieve_batch] on a queue that hands out nothing. *)
Lemma retrieve_batch_loop_idle (queue_name : string) (retries wait_time : Z)
    (Hwait : 0 <= wait_time) :
  forall (n fuel : nat) (attempts : Z) (w : World),
    Z.of_nat n = retries - attempts ->
    silent_until (clock w + (Z.of_nat n - 1) * wait_time) queue_name w ->
    (n <= fuel)%nat ->
    higgs_worker.retrieve_batch_loop pickle_loads fuel queue_name attempts
                                     retries wait_time w
    = (Ok None,
       mkWorld (clock w + Z.of_nat n * wait_time) (network w) (queues w)
               (unacked w) (next_tag w) (uuid_count w)
               (effects w ++ idle_polls queue_name wait_time n)).
Proof.
  induction n as [|n IH]; intros fuel attempts w Hleft Hsilent Hfuel.
  - destruct fuel; cbn [higgs_worker.retrieve_batch_loop];
      (destruct (Z.ltb_spec attempts retries) as [? | _]; [lia |]);
      unfold mret, M_ret; destruct w; cbn; now rewrite Z.add_0_r, app_nil_r.
  - destruct fuel as [|fuel]; [lia |]. cbn [higgs_worker.retrieve_batch_loop].
    destruct (Z.ltb_spec attempts retries) as [_ | ?]; [| lia].
    assert (silent_until (clock w) queue_name w) as Hnow
      by (unfold silent_until in *; destruct (queue_of queue_name w);
          [exact I | nia]).
    rewrite (bind_Ok _ _ _ _ _ (basic_get_nothing queue_name false w Hnow)).
    unfold mbind, M_bind, time_sleep.
    destruct (Z.ltb_spec wait_time 0) as [? | _]; [lia |].
    rewrite IH; cbn [clock queues and_then]; try lia.
    + unfold idle_polls. cbn. do 2 f_equal; [lia |].
      now rewrite <- !app_assoc.
    + unfold silent_until, queue_of in *. cbn.
      destruct (default [] (queues w !! queue_name)); [exact I | lia].
Qed.

End WorkerPolls.

(** X17. A worker that finds the tasks queue silent polls it [retries]
    times, sleeps [wait_time] after every poll, the last one included, and
    gets [None] after [retries * wait_time] seconds; nothing else has
    changed. With [retries <= 0] it gets [None] at once without polling. *)
Theorem retrieve_batch_gives_up (pickle_loads : bytes -> outcome DataBatch)
    (queue_name : string) (retries wait_time : Z) (w : World) :
  0 <= wait_time ->
  silent_until (clock w + (retries - 1) * wait_time) queue_name w ->
  higgs_worker.retrieve_batch pickle_loads queue_name retries wait_time w
  = (Ok None,
     mkWorld (clock w + Z.max 0 retries * wait_time) (network w) (queues w)
             (unacked w) (next_tag w) (uuid_count w)
             (effects w ++ idle_polls queue_name wait_time (Z.to_nat retries))).
Proof.
  intros Hwait Hsilent. unfold higgs_worker.retrieve_batch.
  destruct (Z.le_gt_cases retries 0) as [Hnone | Hsome].
  - replace (Z.to_nat retries) with 0%nat by lia.
    cbn [higgs_worker.retrieve_batch_loop].
    destruct (Z.ltb_spec 0 retries) as [? | _]; [lia |].
    unfold mret, M_ret. destruct w; cbn.
    replace (Z.max 0 retries) with 0 by lia.
    now rewrite Z.mul_0_l, Z.add_0_r, app_nil_r.
  - rewrite (retrieve_batch_loop_idle pickle_loads queue_name retries wait_time
               Hwait (Z.to_nat retries)); [| lia | | lia].
    + rewrite Z2Nat.id by lia. now replace (Z.max 0 retries) with retries by lia.
    + now rewrite Z2Nat.id by lia.
Qed.

(** Witness of X17: the call of the worker's [main] on an empty queue. *)
Lemma retrieve_batch_gives_up_witness :
  let w := world_with_tasks [] in
  higgs_worker.retrieve_batch id_loads TASKS_QUEUE 12 5 w
  = (Ok None,
     mkWorld (clock w + Z.max 0 12 * 5) (network w) (queues w)
             (unacked w) (next_tag w) (uuid_count w)
             (effects w ++ idle_polls TASKS_QUEUE 5 (Z.to_nat 12))).
Proof.
  intros w.
  apply (retrieve_batch_gives_up id_loads TASKS_QUEUE 12 5 w); [lia | exact I].
Defined.



(** ** [higgs_worker.py]: the selections *)

Lemma column_rows (k : nat) (array : list (list Z)) :
  Forall (fun row => (k < length row)%nat) array ->
  higgs_worker.column k array = Ok (map (fun row => default 0 (row !! k)) array).
Proof.
  unfold higgs_worker.column.
  induction 1 as [|row array Hrow _ IH]; [reflexivity |].
  cbn [mapM map]. destruct (lookup_lt_is_Some_2 row k Hrow) as [x Hx].
  rewrite Hx, IH. reflexivity.
Qed.

(** A column is there, or the slice was refused. *)
Lemma column_outcome (k : nat) (array : list (list Z)) :
  (Forall (fun row => (k < length row)%nat) array
   /\ exists items, higgs_worker.column k array = Ok items)
  \/ higgs_worker.column k array = Raise (PyError "IndexError" "index out of range").
Proof.
  unfold higgs_worker.column.
  induction array as [|row array IH]; [left; split; [constructor | eauto] |].
  cbn [mapM]. destruct (row !! k) as [x |] eqn:Hx; [| now right].
  destruct IH as [[Hall [items ->]] | ->]; [left | now right].
  split; [| eauto]. constructor; [| assumption].
  now apply lookup_lt_Some in Hx.
Qed.

Lemma bits_positive (t : higgs_worker.dtype) : 0 < higgs_worker.bits t.
Proof. destruct t; reflexivity. Qed.

(** Wrapping a partial sum does not change what the whole sum wraps to. *)
Lemma wrap_add_l (t : higgs_worker.dtype) (x y : Z) :
  higgs_worker.wrap t (higgs_worker.wrap t x + y) = higgs_worker.wrap t (x + y).
Proof.
  unfold higgs_worker.wrap. cbv zeta.
  pose proof (bits_positive t) as Hbits.
  assert (0 < 2 ^ higgs_worker.bits t) as Hm by (apply Z.pow_pos_nonneg; lia).
  set (m := 2 ^ higgs_worker.bits t) in *.
  destruct (higgs_worker.signed t).
  - replace ((x + m / 2) mod m - m / 2 + y + m / 2)
      with ((x + m / 2) mod m + y) by lia.
    rewrite Zplus_mod_idemp_l. do 2 f_equal. lia.
  - now rewrite Zplus_mod_idemp_l.
Qed.

(** An integer that the type holds is what it wraps to. *)
Lemma wrap_in_dtype (t : higgs_worker.dtype) (x : Z) :
  in_dtype t x -> higgs_worker.wrap t x = x.
Proof.
  unfold in_dtype, higgs_worker.wrap. cbv zeta. intros Hx.
  destruct t; cbn [higgs_worker.signed higgs_worker.bits] in *;
    repeat match goal with
           | |- context [2 ^ ?b] =>
               let v := eval vm_compute in (2 ^ b) in change (2 ^ b) with v
           | H : context [2 ^ ?b] |- _ =>
               let v := eval vm_compute in (2 ^ b) in change (2 ^ b) with v in H
           end;
    repeat match goal with
           | |- context [Z.pos ?p / 2] =>
               let v := eval vm_compute in (Z.pos p / 2) in
               change (Z.pos p / 2) with v
           end;
    rewrite Z.mod_small by lia; lia.
Qed.

Lemma column_add_map (t : higgs_worker.dtype) (f g : list Z -> Z)
    (array : list (list Z)) :
  higgs_worker.column_add t (map f array) (map g array)
  = map (fun row => higgs_worker.wrap t (f row + g row)) array.
Proof.
  unfold higgs_worker.column_add.
  induction array as [|row array IH]; cbn; [reflexivity | now rewrite IH].
Qed.

Lemma sum_of_four_rows (t : higgs_worker.dtype) (array : list (list Z)) :
  Forall (fun row => (4 <= length row)%nat) array ->
  higgs_worker.sum_of_four t array
  = Ok (map (fun row => higgs_worker.wrap t (four_sum row)) array).
Proof.
  intros Hrows. unfold higgs_worker.sum_of_four.
  rewrite !column_rows by (eapply Forall_impl; [exact Hrows | cbn; lia]).
  cbn. rewrite !column_add_map. f_equal.
  induction Hrows as [|row array Hrow _ IH]; [reflexivity |].
  cbn [map]. rewrite IH. f_equal.
  destruct row as [|a [|b [|c [|d rest]]]]; cbn in Hrow; try lia.
  unfold four_sum. cbn -[higgs_worker.wrap Z.add].
  change (take 0 rest) with (@nil Z). cbn [foldr].
  rewrite wrap_add_l, <- Z.add_assoc, wrap_add_l. f_equal. lia.
Qed.

Lemma mask_select_map {A : Type} (f : A -> bool) (events : list A) :
  higgs_worker.mask_select events (map f events)
  = filter (fun e => f e = true) events.
Proof.
  unfold higgs_worker.mask_select.
  induction events as [|e events IH]; [reflexivity |].
  cbn [map zip zip_with]. destruct (f e) eqn:He.
  - rewrite filter_cons_True by reflexivity.
    rewrite (filter_cons_True (fun e => f e = true)) by assumption.
    cbn. now rewrite <- IH.
  - rewrite filter_cons_False by discriminate.
    rewrite (filter_cons_False (fun e => f e = true)) by congruence.
    exact IH.
Qed.

(** X19. On events that all have four leptons or more, each an electron
    (type 11) or a muon (type 13) among the first four, [valid_lepton_type]
    gives one flag per event, in order, and the flag says that the number of
    muons among the first four leptons is even: four electrons, two of each,
    or four muons. This holds for every integer type of the array. *)
Theorem valid_lepton_type_accepts_even_muons (t : higgs_worker.dtype)
    (lepton_types : list (list Z)) :
  Forall (fun row => (4 <= length row)%nat
                     /\ Forall (fun t => t = 11 \/ t = 13) (take 4 row))
         lepton_types ->
  higgs_worker.valid_lepton_type t lepton_types
  = Ok (map (fun row => Nat.even (count_of 13 row)) lepton_types).
Proof.
  intros Hrows. unfold higgs_worker.valid_lepton_type.
  rewrite sum_of_four_rows by (eapply Forall_impl; [exact Hrows | cbn; tauto]).
  cbn. f_equal. rewrite map_map.
  induction Hrows as [|row array [Hlen Hkinds] _ IH]; [reflexivity |].
  cbn [map]. rewrite IH. f_equal.
  destruct row as [|a [|b [|c [|d rest]]]]; cbn in Hlen; try lia.
  cbn [take] in Hkinds.
  apply Forall_cons in Hkinds as [Ha Hkinds].
  apply Forall_cons in Hkinds as [Hb Hkinds].
  apply Forall_cons in Hkinds as [Hc Hkinds].
  apply Forall_cons in Hkinds as [Hd _].
  destruct Ha as [-> | ->], Hb as [-> | ->], Hc as [-> | ->], Hd as [-> | ->];
    destruct t; reflexivity.
Qed.

(** Witness of X19: an event of two electrons and two muons, one of three
    electrons and a muon, and one of four muons followed by a fifth lepton. *)
Lemma valid_lepton_type_accepts_even_muons_witness :
  let lepton_types := [[11; 13; 11; 13]; [11; 11; 13; 11]; [13; 13; 13; 13; 11]] in
  higgs_worker.valid_lepton_type higgs_worker.uint32 lepton_types
  = Ok (map (fun row => Nat.even (count_of 13 row)) lepton_types).
Proof.
  intros lepton_types.
  apply (valid_lepton_type_accepts_even_muons higgs_worker.uint32 lepton_types).
  apply (bool_decide_unpack
           (Forall (fun row => (4 <= length row)%nat
                               /\ Forall (fun t => t = 11 \/ t = 13) (take 4 row))
                   lepton_types)).
  vm_compute. exact I.
Defined.

(** X20. On events that all have four leptons or more, each of charge 1 or
    -1 among the first four, [valid_lepton_charge] gives one flag per
    event, in order, and the flag says that exactly two of the first four
    leptons are positive. This holds for every integer type of the array. *)
Theorem valid_lepton_charge_accepts_two_pairs (t : higgs_worker.dtype)
    (lepton_charges : list (list Z)) :
  Forall (fun row => (4 <= length row)%nat
                     /\ Forall (fun q => q = 1 \/ q = -1) (take 4 row))
         lepton_charges ->
  higgs_worker.valid_lepton_charge t lepton_charges
  = Ok (map (fun row => Nat.eqb (count_of 1 row) 2) lepton_charges).
Proof.
  intros Hrows. unfold higgs_worker.valid_lepton_charge.
  rewrite sum_of_four_rows by (eapply Forall_impl; [exact Hrows | cbn; tauto]).
  cbn. f_equal. rewrite map_map.
  induction Hrows as [|row array [Hlen Hkinds] _ IH]; [reflexivity |].
  cbn [map]. rewrite IH. f_equal.
  destruct row as [|a [|b [|c [|d rest]]]]; cbn in Hlen; try lia.
  cbn [take] in Hkinds.
  apply Forall_cons in Hkinds as [Ha Hkinds].
  apply Forall_cons in Hkinds as [Hb Hkinds].
  apply Forall_cons in Hkinds as [Hc Hkinds].
  apply Forall_cons in Hkinds as [Hd _].
  destruct Ha as [-> | ->], Hb as [-> | ->], Hc as [-> | ->], Hd as [-> | ->];
    destruct t; reflexivity.
Qed.

(** Witness of X20: charges that cancel, and charges that do not. *)
Lemma valid_lepton_charge_accepts_two_pairs_witness :
  let lepton_charges := [[1; -1; -1; 1]; [1; 1; 1; -1]] in
  higgs_worker.valid_lepton_charge higgs_worker.int32 lepton_charges
  = Ok (map (fun row => Nat.eqb (count_of 1 row) 2) lepton_charges).
Proof.
  intros lepton_charges.
  apply (valid_lepton_charge_accepts_two_pairs higgs_worker.int32 lepton_charges).
  apply (bool_decide_unpack
           (Forall (fun row => (4 <= length row)%nat
                               /\ Forall (fun q => q = 1 \/ q = -1) (take 4 row))
                   lepton_charges)).
  vm_compute. exact I.
Defined.

Lemma sum_of_four_short (t : higgs_worker.dtype) (array : list (list Z)) :
  (exists row, row ∈ array /\ (length row < 4)%nat) ->
  higgs_worker.sum_of_four t array
  = Raise (PyError "IndexError" "index out of range").
Proof.
  intros (row & Hrow & Hshort). unfold higgs_worker.sum_of_four.
  destruct (column_outcome 0 array) as [[_ [c0 ->]] | ->]; [cbn | reflexivity].
  destruct (column_outcome 1 array) as [[_ [c1 ->]] | ->]; [cbn | reflexivity].
  destruct (column_outcome 2 array) as [[_ [c2 ->]] | ->]; [cbn | reflexivity].
  destruct (column_outcome 3 array) as [[Hall _] | ->]; [| reflexivity].
  rewrite Forall_forall in Hall. specialize (Hall row Hrow). lia.
Qed.

(** X21. One event with fewer than four leptons is enough for both
    selections to fail on the whole chunk: the slice of a column is refused
    with an [IndexError], and no flag is computed for any event. *)
Theorem selections_refuse_short_events (t : higgs_worker.dtype)
    (array : list (list Z)) :
  (exists row, row ∈ array /\ (length row < 4)%nat) ->
  higgs_worker.valid_lepton_type t array
    = Raise (PyError "IndexError" "index out of range")
  /\ higgs_worker.valid_lepton_charge t array
     = Raise (PyError "IndexError" "index out of range").
Proof.
  intros Hshort.
  unfold higgs_worker.valid_lepton_type, higgs_worker.valid_lepton_charge.
  rewrite (sum_of_four_short t array Hshort). split; reflexivity.
Qed.

(** Witness of X21: the second of three events has three leptons. *)
Lemma selections_refuse_short_events_witness :
  let array := [[11; 11; 13; 13]; [11; 13; 11]; [13; 13; 13; 13]] in
  higgs_worker.valid_lepton_type higgs_worker.uint32 array
    = Raise (PyError "IndexError" "index out of range")
  /\ higgs_worker.valid_lepton_charge higgs_worker.uint32 array
     = Raise (PyError "IndexError" "index out of range").
Proof.
  intros array. apply (selections_refuse_short_events higgs_worker.uint32 array).
  exists [11; 13; 11]. split; [right; left | cbn; lia].
Defined.

Lemma valid_lepton_type_rows (t : higgs_worker.dtype) (array : list (list Z)) :
  Forall (fun row => (4 <= length row)%nat) array ->
  higgs_worker.valid_lepton_type t array = Ok (map (type_ok t) array).
Proof.
  intros Hrows. unfold higgs_worker.valid_lepton_type.
  rewrite sum_of_four_rows by assumption. cbn. now rewrite map_map.
Qed.

Lemma valid_lepton_charge_rows (t : higgs_worker.dtype) (array : list (list Z)) :
  Forall (fun row => (4 <= length row)%nat) array ->
  higgs_worker.valid_lepton_charge t array = Ok (map (charge_ok t) array).
Proof.
  intros Hrows. unfold higgs_worker.valid_lepton_charge.
  rewrite sum_of_four_rows by assumption. cbn. now rewrite map_map.
Qed.

(** X22. The two selections of [process_data], applied one after the other
    to a chunk whose events all have four leptons or more, keep, in the
    order of the chunk, exactly the events whose first four lepton types add
    up to 44, 48 or 52 and whose first four charges add up to 0, each sum
    being taken in the integer type of its array, where it wraps around. For
    an event whose two sums are integers of these types, they are the sums
    of the integers. *)
Theorem cut_events_keeps_valid_events (Row : Type)
    (lep_type lep_charge : Row -> list Z)
    (type_dtype charge_dtype : higgs_worker.dtype) (events : list Row) :
  Forall (fun e => (4 <= length (lep_type e))%nat
                   /\ (4 <= length (lep_charge e))%nat) events ->
  higgs_worker.cut_events Row lep_type lep_charge type_dtype charge_dtype events
  = Ok (filter (fun e => type_ok type_dtype (lep_type e) = true
                         /\ charge_ok charge_dtype (lep_charge e) = true) events)
  /\ (forall e : Row,
        in_dtype type_dtype (four_sum (lep_type e)) ->
        in_dtype charge_dtype (four_sum (lep_charge e)) ->
        (type_ok type_dtype (lep_type e) = true
         <-> four_sum (lep_type e) = 44 \/ four_sum (lep_type e) = 48
             \/ four_sum (lep_type e) = 52)
        /\ (charge_ok charge_dtype (lep_charge e) = true
            <-> four_sum (lep_charge e) = 0)).
Proof.
  intros Hrows. split.
  - unfold higgs_worker.cut_events.
    rewrite valid_lepton_type_rows.
    2:{ apply Forall_fmap. eapply Forall_impl; [exact Hrows | cbn; tauto]. }
    cbn. rewrite map_map,
           (mask_select_map (fun e => type_ok type_dtype (lep_type e))).
    rewrite valid_lepton_charge_rows.
    2:{ apply Forall_fmap, Forall_forall. intros e He.
        apply list_elem_of_filter in He as [_ He].
        rewrite Forall_forall in Hrows. now apply Hrows. }
    cbn. rewrite map_map,
           (mask_select_map (fun e => charge_ok charge_dtype (lep_charge e))).
    rewrite list_filter_filter. f_equal.
    apply list_filter_iff. intros e. tauto.
  - intros e Htypes Hcharges. unfold type_ok, charge_ok. cbv zeta.
    rewrite (wrap_in_dtype _ _ Htypes), (wrap_in_dtype _ _ Hcharges).
    rewrite !orb_true_iff, !Z.eqb_eq. tauto.
Qed.

(** Witness of X22: five events with types stored as [uint32] and charges as
    [int32]. The first and the fourth pass; so does the last, whose types
    add up to [2^32 + 44]. *)
Lemma cut_events_keeps_valid_events_witness :
  let events : list (list Z * list Z) :=
    [ ([11; 11; 13; 13], [1; -1; 1; -1]);
      ([11; 11; 11; 13], [1; -1; 1; -1]);
      ([13; 13; 13; 13], [1; 1; 1; -1]);
      ([13; 13; 13; 13; 11], [1; 1; -1; -1; 1]);
      ([4294967295; 45; 0; 0], [1; 1; -1; -1]) ] in
  let kept : list (list Z * list Z) :=
    [ ([11; 11; 13; 13], [1; -1; 1; -1]);
      ([13; 13; 13; 13; 11], [1; 1; -1; -1; 1]);
      ([4294967295; 45; 0; 0], [1; 1; -1; -1]) ] in
  higgs_worker.cut_events (list Z * list Z) fst snd
                          higgs_worker.uint32 higgs_worker.int32 events
  = Ok kept
  /\ kept = filter (fun e => type_ok higgs_worker.uint32 (fst e) = true
                             /\ charge_ok higgs_worker.int32 (snd e) = true)
                   events.
Proof.
  intros events kept.
  assert (kept = filter (fun e => type_ok higgs_worker.uint32 (fst e) = true
                                  /\ charge_ok higgs_worker.int32 (snd e) = true)
                        events) as Hkept by (vm_compute; reflexivity).
  split; [| exact Hkept]. rewrite Hkept.
  apply (cut_events_keeps_valid_events (list Z * list Z) fst snd
           higgs_worker.uint32 higgs_worker.int32 events).
  repeat (constructor; [cbn; lia |]). constructor.
Defined.

(** ** [higgs_worker.py]: [main] *)

(** X23. A worker that finds the server at the first attempt and no task
    for the next 55 seconds polls the tasks queue twelve times, five seconds
    apart, then closes its channel and its connection, prints that there is
    no task and exits with status 0, one minute after it started. *)
Theorem worker_exits_when_idle (pickle_dumps : DataBatch -> bytes)
    (pickle_loads : bytes -> outcome DataBatch)
    (select_events : DataBatch -> Z -> M (list (list Event)))
    (fuel : nat) (w : World) (net : list bool) :
  network w = true :: net ->
  silent_until (clock w + 55) TASKS_QUEUE w ->
  (0 < fuel)%nat ->
  exists w',
    higgs_worker.main pickle_dumps pickle_loads select_events fuel w
      = (Raise (SystemExit 0), w')
    /\ exit_status (fst (higgs_worker.main pickle_dumps pickle_loads select_events
                                           fuel w)) = Some 0
    /\ clock w' = clock w + 60
    /\ effects w' = effects w
                    ++ [Connect RABBITMQ_SERVER true; ChannelOpen;
                        QueueDeclare TASKS_QUEUE]
                    ++ idle_polls TASKS_QUEUE 5 12
                    ++ [ChannelClose; ConnectionClose;
                        Print "exiting: no tasks in queue"].
Proof.
  intros Hnet Hsilent Hfuel.
  enough (exists w',
            higgs_worker.main pickle_dumps pickle_loads select_events fuel w
              = (Raise (SystemExit 0), w')
            /\ clock w' = clock w + 60
            /\ effects w' = effects w
                            ++ [Connect RABBITMQ_SERVER true; ChannelOpen;
                                QueueDeclare TASKS_QUEUE]
                            ++ idle_polls TASKS_QUEUE 5 12
                            ++ [ChannelClose; ConnectionClose;
                                Print "exiting: no tasks in queue"])
    as (w' & Hrun & Hclock & Heffects)
    by (exists w'; rewrite Hrun; auto).
  destruct fuel as [|fuel]; [lia |].
  assert (open_connection RABBITMQ_SERVER 6 5 w
          = (Ok (Some BlockingConnection),
             mkWorld (clock w + Z.of_nat 0 * 5) net (queues w) (unacked w)
                     (next_tag w) (uuid_count w)
                     (effects w ++ failed_attempts RABBITMQ_SERVER 5 0
                                ++ [Connect RABBITMQ_SERVER true]))) as Hconn.
  { unfold open_connection.
    apply (open_connection_loop_connects RABBITMQ_SERVER 6 5 ltac:(lia) 0);
      [exact Hnet | lia | cbn; lia]. }
  unfold higgs_worker.main. rewrite (bind_Ok _ _ _ _ _ Hconn).
  match goal with
  | |- context [connection_channel BlockingConnection ≫= _] =>
      unfold mbind at 1, M_bind at 1, connection_channel, emit;
      unfold mbind at 1, M_bind at 1, queue_declare
  end.
  cbn [clock network queues unacked next_tag uuid_count effects].
  match goal with
  | |- context [higgs_worker.worker_loop _ _ _ _ _ ?w3] => set (w3' := w3)
  end.
  assert (queue_of TASKS_QUEUE w3' = queue_of TASKS_QUEUE w) as Hq.
  { unfold w3', queue_of. cbn [queues].
    destruct (queues w !! TASKS_QUEUE) as [msgs |] eqn:Hdeclared.
    - now rewrite Hdeclared.
    - now rewrite lookup_insert_eq. }
  assert (higgs_worker.retrieve_batch pickle_loads TASKS_QUEUE 12 5 w3'
          = (Ok None,
             mkWorld (clock w3' + Z.of_nat 12 * 5) (network w3') (queues w3')
                     (unacked w3') (next_tag w3') (uuid_count w3')
                     (effects w3' ++ idle_polls TASKS_QUEUE 5 12))) as Hidle.
  { unfold higgs_worker.retrieve_batch.
    apply (retrieve_batch_loop_idle pickle_loads TASKS_QUEUE 12 5 ltac:(lia) 12);
      [lia | | cbn; lia].
    unfold silent_until in *. rewrite Hq. unfold w3'. cbn [clock].
    destruct (queue_of TASKS_QUEUE w); [exact I | lia]. }
  cbn [higgs_worker.worker_loop]. rewrite (bind_Ok _ _ _ _ _ Hidle).
  eexists. split; [reflexivity |].
  unfold w3'. cbn. split; [lia |]. now rewrite <- !app_assoc.
Qed.

(** Witness of X23: a server that answers and an empty tasks queue. *)
Lemma worker_exits_when_idle_witness :
  let w := fresh_world [true] in
  exists w',
    higgs_worker.main id_dumps id_loads one_event 1 w = (Raise (SystemExit 0), w')
    /\ exit_status (fst (higgs_worker.main id_dumps id_loads one_event 1 w)) = Some 0
    /\ clock w' = clock w + 60
    /\ effects w' = effects w
                    ++ [Connect RABBITMQ_SERVER true; ChannelOpen;
                        QueueDeclare TASKS_QUEUE]
                    ++ idle_polls TASKS_QUEUE 5 12
                    ++ [ChannelClose; ConnectionClose;
                        Print "exiting: no tasks in queue"].
Proof.
  intros w.
  apply (worker_exits_when_idle id_dumps id_loads one_event 1 w []);
    [reflexivity | exact I | lia].
Defined.

Section WorkerRounds.

Variable pickle_dumps : DataBatch -> bytes.
Variable pickle_loads : bytes -> outcome DataBatch.
Variable select_events : DataBatch -> Z -> M (list (list Event)).

(** A round of the worker on a task whose processing fails: the task is
    back at the head of the queue when the next round begins. *)
Lemma failing_round (connection : Connection) (fuel : nat) (w : World)
    (m : Msg) (rest : list Msg) (batch : DataBatch) (e : exn) :
  queue_of TASKS_QUEUE w = m :: rest ->
  available_at m <= clock w ->
  pickle_loads (body m) = Ok batch ->
  (forall start, select_events batch start = raise e) ->
  is_Exception e = true ->
  exists w2,
    higgs_worker.worker_loop pickle_dumps pickle_loads select_events (S fuel)
                             connection w
    = higgs_worker.worker_loop pickle_dumps pickle_loads select_events fuel
                               connection w2
    /\ clock w2 = clock w
    /\ next_tag w2 = next_tag w + 1
    /\ queue_of TASKS_QUEUE w2 = mkMsg (clock w) (body m) :: rest.
Proof.
  intros Hq Harrived Hloads Hfails Hcaught.
  assert (higgs_worker.retrieve_batch pickle_loads TASKS_QUEUE 12 5 w
          = (Ok (Some (next_tag w, batch)),
             after_delivery TASKS_QUEUE 0 0 m rest w)) as Hpull.
  { unfold higgs_worker.retrieve_batch.
    change (Z.to_nat 12) with 12%nat. cbn [higgs_worker.retrieve_batch_loop].
    change (0 <? 12) with true. cbn match.
    rewrite (bind_Ok _ _ _ _ _ (basic_get_delivers TASKS_QUEUE w m rest Hq Harrived)).
    unfold lift, mbind, M_bind, mret, M_ret. now rewrite Hloads. }
  cbn [higgs_worker.worker_loop]. rewrite (bind_Ok _ _ _ _ _ Hpull).
  set (w0 := after_delivery TASKS_QUEUE 0 0 m rest w).
  set (line := "Sample      : " +:+ sample batch +:+ higgs_worker.newline +:+
               "Subsample   : " +:+ subsample batch +:+ higgs_worker.newline +:+
               "Sample Type : " +:+ sample_type batch).
  set (wp := and_then (and_then (and_then w0 (Print line)) (TimeRead (clock w0)))
                      (Print ("error: failed to process batch " +:+ exn_str e))).
  assert (higgs_worker.handle_task pickle_dumps select_events connection
                                   (next_tag w) batch w0
          = (Ok tt, snd (basic_nack (next_tag w) true wp))) as Hhandle.
  { assert (higgs_worker.process_data select_events batch w0
            = (Raise e, and_then (and_then w0 (Print line)) (TimeRead (clock w0))))
      as Hprocess.
    { unfold higgs_worker.process_data, mbind, M_bind, print, emit, time_time.
      cbv beta iota. rewrite Hfails. reflexivity. }
    unfold higgs_worker.handle_task, try_except.
    rewrite (bind_Raise _ _ _ _ _ Hprocess), Hcaught. reflexivity. }
  rewrite (bind_Ok _ _ _ _ _ Hhandle).
  eexists. split; [reflexivity |].
  unfold basic_nack, wp, w0, after_delivery. cbn [snd clock next_tag unacked queues and_then].
  rewrite lookup_insert_eq. split; [lia |]. split; [reflexivity |].
  unfold queue_of. cbn [queues]. rewrite lookup_alter_eq, lookup_insert_eq. cbn.
  do 2 f_equal. lia.
Qed.

Lemma worker_loop_on_failing_task (connection : Connection) (rest : list Msg)
    (payload : bytes) (batch : DataBatch) (e : exn) :
  pickle_loads payload = Ok batch ->
  (forall start, select_events batch start = raise e) ->
  is_Exception e = true ->
  forall (fuel : nat) (w : World) (t : Z),
    queue_of TASKS_QUEUE w = mkMsg t payload :: rest ->
    t <= clock w ->
    exists w',
      higgs_worker.worker_loop pickle_dumps pickle_loads select_events fuel
                               connection w = (OutOfFuel, w')
      /\ clock w' = clock w
      /\ next_tag w' = next_tag w + Z.of_nat fuel
      /\ exists t', queue_of TASKS_QUEUE w' = mkMsg t' payload :: rest.
Proof.
  intros Hloads Hfails Hcaught. induction fuel as [|fuel IH]; intros w t Hq Ht.
  - exists w. cbn. split; [reflexivity |]. split; [reflexivity |].
    split; [lia | eauto].
  - destruct (failing_round connection fuel w (mkMsg t payload) rest batch e
                Hq Ht Hloads Hfails Hcaught) as (w2 & -> & Hclock & Htag & Hq2).
    destruct (IH w2 (clock w) Hq2 ltac:(lia)) as (w' & Hrun & Hclock' & Htag' & Hq').
    exists w'. rewrite Hrun. split; [reflexivity |]. split; [lia |].
    split; [lia | exact Hq'].
Qed.

End WorkerRounds.

(** X24. A task whose processing always raises an [Exception] keeps the
    worker busy for ever: every round pulls the task, fails, and requeues it
    at the head of the tasks queue, so that no number of rounds brings the
    worker to its exit, and the tasks behind it are never reached. *)
Theorem worker_never_ends_on_a_failing_task (pickle_dumps : DataBatch -> bytes)
    (pickle_loads : bytes -> outcome DataBatch)
    (select_events : DataBatch -> Z -> M (list (list Event)))
    (connection : Connection) (fuel : nat) (w : World) (m : Msg)
    (rest : list Msg) (batch : DataBatch) (e : exn) :
  queue_of TASKS_QUEUE w = m :: rest ->
  available_at m <= clock w ->
  pickle_loads (body m) = Ok batch ->
  (forall start, select_events batch start = raise e) ->
  is_Exception e = true ->
  exists w',
    higgs_worker.worker_loop pickle_dumps pickle_loads select_events fuel
                             connection w = (OutOfFuel, w')
    /\ clock w' = clock w
    /\ next_tag w' = next_tag w + Z.of_nat fuel
    /\ exists t', queue_of TASKS_QUEUE w' = mkMsg t' (body m) :: rest.
Proof.
  intros Hq Harrived Hloads Hfails Hcaught. destruct m as [t payload].
  now apply (worker_loop_on_failing_task pickle_dumps pickle_loads select_events
               connection rest payload batch e Hloads Hfails Hcaught fuel w t).
Qed.

(** Witness of X24: a file that cannot be read, seven rounds. *)
Lemma worker_never_ends_on_a_failing_task_witness :
  let w := world_with_tasks [msg_at 0 "a"; msg_at 0 "b"] in
  exists w',
    higgs_worker.worker_loop id_dumps id_loads unreadable 7 BlockingConnection w
      = (OutOfFuel, w')
    /\ clock w' = clock w
    /\ next_tag w' = next_tag w + Z.of_nat 7
    /\ exists t', queue_of TASKS_QUEUE w'
                  = mkMsg t' (body (msg_at 0 "a")) :: [msg_at 0 "b"].
Proof.
  intros w.
  apply (worker_never_ends_on_a_failing_task id_dumps id_loads unreadable
           BlockingConnection 7 w (msg_at 0 "a") [msg_at 0 "b"]
           (plain_batch "a" "data")
           (PyError "FileNotFoundError" "file not found: Data/data_A.4lep.root"));
    [reflexivity | cbn; lia | reflexivity | reflexivity | reflexivity].
Defined.

(** ** [higgs_manager.py]: [retrieve_batches], the end of the wait *)

(** X25. With a positive poll interval the collector always comes back,
    whatever the results queue holds, however long the polls take and
    however many units are expected: [terminate_time / wait_time + 2] rounds
    are enough for it to return a list or to raise what unpickling raised. *)
Theorem retrieve_batches_comes_back (pickle_loads : bytes -> outcome DataBatch)
    (fuel : nat) (lag : nat -> nat) (connection : Connection)
    (queue_name : string)
    (num_batches wait_time terminate_time : Z) (w : World) :
  0 < wait_time -> 0 <= terminate_time ->
  (forall payload, pickle_loads payload <> OutOfFuel) ->
  terminate_time / wait_time + 2 <= Z.of_nat fuel ->
  fst (retrieve_batches pickle_loads fuel lag connection queue_name num_batches
                        wait_time terminate_time w) <> OutOfFuel.
Proof.
  intros Hwait Hterm Hloads Hfuel. rewrite retrieve_batches_prelude.
  apply retrieve_loop_terminates; [exact Hwait | exact Hloads |].
  change (clock (collector_ready queue_name w)) with (clock w).
  rewrite Z.sub_diag, Z.sub_0_r.
  assert (0 <= terminate_time / wait_time) by (apply Z.div_pos; lia). lia.
Qed.

(** Witness of X25: one result out of three expected, a deadline of four
    seconds, polls two seconds apart. *)
Lemma retrieve_batches_comes_back_witness :
  fst (retrieve_batches id_loads 4 on_time BlockingConnection RESULTS_QUEUE 3 2 4
                        (world_with_results [msg_at 0 "a"])) <> OutOfFuel.
Proof.
  apply (retrieve_batches_comes_back id_loads 4 on_time BlockingConnection
           RESULTS_QUEUE 3 2 4 (world_with_results [msg_at 0 "a"]));
    [lia | lia | discriminate | vm_compute; discriminate].
Defined.
